(** * MedNeutral: detection and rewriting of stigmatizing clinical language

    A shallow embedding of the core of the repository
    ([src/core/stigma_classifier.py], [src/core/bert_enhanced_classifier.py],
    [src/core/hybrid_processor.py]) together with the properties of its
    specification.

    Modelling conventions.
    - A Python [str] is a list of characters ([pystr]); the text domain is
      7-bit ASCII, so [lower], [\w], [\s] and [str.isspace] are the ASCII
      ones (a character above 127 is kept as it is and counts as neither a
      word character nor white space).
    - Offsets and lengths are [nat]; a slice [s[a:b]] is [slice s a b].
    - Scores are Python floats, that is IEEE 754 binary64 numbers.  A finite
      double is modelled by the rational number it denotes ([Q]); a float
      literal such as [0.2] is [F64.lit 0.2], the double nearest to 2/10
      (the literals [0.5] and [1.0] are doubles and written as they are),
      and [+] and [-] on floats and [/] on integers are the exact operation
      followed by rounding to the nearest double, ties to even ([F64.add],
      [F64.sub], [F64.div]).  Comparisons and [min] are exact.  Infinities,
      NaN and the sign of zero are outside the model: the scores stay far
      inside the range of the finite doubles.  The raw similarities are
      taken as Python floats, as the annotations of the source say; what is
      proved for every rational similarity holds for every double.
    - The keyword catalog ([data/keywords.json]) and the embedding model are
      not part of the sources: the catalog is a value of type
      [keyword_dict], and the similarity of two words (the cosine of their
      embeddings) is a function carried by the classifier. *)

From Stdlib Require Import Ascii String.
From Stdlib Require Import Arith Bool Lia ZArith.
From Stdlib Require Import QArith Qminmax Lqa Qround Qabs Qpower.
From Corelib Require PrimFloat FloatOps SpecFloat.
From Stdlib Require Import List Sorted Permutation.
Import ListNotations.

Close Scope Q_scope.
Local Open Scope string_scope.
Local Open Scope nat_scope.
Local Open Scope list_scope.

(** ** Python strings *)

Module PyStr.

Definition pystr := list ascii.

(** A string literal. *)
Definition py (s : string) : pystr := list_ascii_of_string s.

Definition in_range (lo hi : nat) (c : ascii) : bool :=
  (lo <=? nat_of_ascii c) && (nat_of_ascii c <=? hi).

Definition is_upper (c : ascii) : bool := in_range 65 90 c.

Definition lower_char (c : ascii) : ascii :=
  if is_upper c then ascii_of_nat (nat_of_ascii c + 32) else c.

(** [str.lower()] *)
Definition lower (s : pystr) : pystr := map lower_char s.

(** [\w]: letters, digits and the underscore. *)
Definition is_word_char (c : ascii) : bool :=
  in_range 48 57 c || in_range 65 90 c || in_range 95 95 c || in_range 97 122 c.

(** [str.isspace] and [\s] on one character. *)
Definition is_space (c : ascii) : bool :=
  in_range 9 13 c || in_range 28 32 c.

Fixpoint str_eqb (a b : pystr) : bool :=
  match a, b with
  | [], [] => true
  | x :: a', y :: b' => Ascii.eqb x y && str_eqb a' b'
  | _, _ => false
  end.

(** [x in l] for a list of strings. *)
Definition str_in (x : pystr) (l : list pystr) : bool := existsb (str_eqb x) l.

(** [d.get(k)] on a dict with string keys, kept as an association list. *)
Fixpoint dict_get {V : Type} (d : list (pystr * V)) (k : pystr) : option V :=
  match d with
  | [] => None
  | (k', v) :: d' => if str_eqb k k' then Some v else dict_get d' k
  end.

(** [s[a:b]] for non-negative indices. *)
Definition slice (s : pystr) (a b : nat) : pystr := firstn (b - a) (skipn a s).

(** [s.startswith(p)] *)
Fixpoint startswith (p s : pystr) : bool :=
  match p, s with
  | [], _ => true
  | x :: p', y :: s' => Ascii.eqb x y && startswith p' s'
  | _ :: _, [] => false
  end.

(** [sub in s] *)
Fixpoint contains (sub s : pystr) : bool :=
  startswith sub s ||
  match s with
  | [] => false
  | _ :: s' => contains sub s'
  end.

(** [s.replace(old, new)] for a non-empty [old]: [skip] counts the
    characters of an occurrence still to be dropped. *)
Fixpoint replace_from (old new : pystr) (skip : nat) (s : pystr) : pystr :=
  match s with
  | [] => []
  | c :: s' =>
      match skip with
      | S k => replace_from old new k s'
      | O =>
          if startswith old s
          then new ++ replace_from old new (length old - 1) s'
          else c :: replace_from old new 0 s'
      end
  end.

(** [s.replace(old, new)]; an empty [old] matches before every character
    and at the end. *)
Definition replace (s old new : pystr) : pystr :=
  match old with
  | [] => new ++ flat_map (fun c => c :: new) s
  | _ :: _ => replace_from old new 0 s
  end.

Fixpoint lstrip (s : pystr) : pystr :=
  match s with
  | [] => []
  | c :: s' => if is_space c then lstrip s' else s
  end.

(** [s.strip()] *)
Definition strip (s : pystr) : pystr := rev (lstrip (rev (lstrip s))).

(** [s.split()]: the maximal runs of characters that are not white space. *)
Fixpoint split_ws_from (cur : pystr) (s : pystr) : list pystr :=
  match s with
  | [] => match cur with [] => [] | _ :: _ => [rev cur] end
  | c :: s' =>
      if is_space c
      then match cur with
           | [] => split_ws_from [] s'
           | _ :: _ => rev cur :: split_ws_from [] s'
           end
      else split_ws_from (c :: cur) s'
  end.

Definition split_ws (s : pystr) : list pystr := split_ws_from [] s.

(** [s.split(sep)] for a separator of one character. *)
Fixpoint split_char_from (sep : ascii) (cur : pystr) (s : pystr) : list pystr :=
  match s with
  | [] => [rev cur]
  | c :: s' =>
      if Ascii.eqb c sep
      then rev cur :: split_char_from sep [] s'
      else split_char_from sep (c :: cur) s'
  end.

Definition split_char (s : pystr) (sep : ascii) : list pystr :=
  split_char_from sep [] s.

(** [s.find(c, start)]: the first index at or after [start] holding [c];
    [None] stands for -1.  [i] is the index of the head of [s]. *)
Fixpoint find_from (c : ascii) (start i : nat) (s : pystr) : option nat :=
  match s with
  | [] => None
  | x :: s' =>
      if (start <=? i) && Ascii.eqb x c then Some i
      else find_from c start (S i) s'
  end.

Definition find (s : pystr) (c : ascii) (start : nat) : option nat :=
  find_from c start 0 s.

(** [s.rfind(c, 0, stop)]: the last index below [stop] holding [c]. *)
Fixpoint rfind_from (c : ascii) (stop i : nat) (s : pystr) : option nat :=
  match s with
  | [] => None
  | x :: s' =>
      match rfind_from c stop (S i) s' with
      | Some j => Some j
      | None => if (i <? stop) && Ascii.eqb x c then Some i else None
      end
  end.

Definition rfind (s : pystr) (c : ascii) (stop : nat) : option nat :=
  rfind_from c stop 0 s.

End PyStr.

(** ** The regular expressions of the sources *)

Module Re.
Import PyStr.

(** A literal of the pattern against the head of [s] under [re.IGNORECASE]. *)
Fixpoint prefix_ci (w s : pystr) : bool :=
  match w, s with
  | [], _ => true
  | x :: w', y :: s' => Ascii.eqb (lower_char x) (lower_char y) && prefix_ci w' s'
  | _ :: _, [] => false
  end.

Definition word_at (text : pystr) (i : nat) : bool :=
  match nth_error text i with
  | Some c => is_word_char c
  | None => false
  end.

(** [\b] at offset [i]: exactly one of the characters before and after the
    offset is a word character; outside the text counts as a non-word. *)
Definition word_boundary (text : pystr) (i : nat) : bool :=
  xorb (match i with O => false | S j => word_at text j end) (word_at text i).

(** ['|'.join(re.escape(word) for word in words)]: an empty list gives one
    empty alternative. *)
Definition alternatives (words : list pystr) : list pystr :=
  match words with
  | [] => [[]]
  | _ :: _ => words
  end.

(** The group and the closing [\b] at offset [i]: the alternatives are tried
    in order, and an alternative whose closing boundary fails is given up
    for the next one.  With [must_advance] an empty match is refused (the
    engine's rule right after an empty match at the same offset). *)
Fixpoint first_alt (text : pystr) (i : nat) (must_advance : bool)
    (alts : list pystr) : option nat :=
  match alts with
  | [] => None
  | w :: rest =>
      if prefix_ci w (skipn i text)
         && word_boundary text (i + length w)
         && negb (must_advance && (length w =? 0))
      then Some (i + length w)
      else first_alt text i must_advance rest
  end.

(** [\b(w1|...|wn)\b] anchored at offset [i]; the result is the end offset. *)
Definition match_at (text : pystr) (alts : list pystr) (i : nat)
    (must_advance : bool) : option nat :=
  if word_boundary text i then first_alt text i must_advance alts else None.

(** The scan of [pattern.finditer(text)]: [n] offsets remain from [i] on,
    and offsets below [resume] lie inside the previous match.  After an
    empty match the engine retries the same offset for a non-empty match. *)
Fixpoint scan (text : pystr) (alts : list pystr) (n i resume : nat)
    : list (nat * nat) :=
  match n with
  | O => []
  | S n' =>
      if i <? resume then scan text alts n' (S i) resume
      else
        match match_at text alts i false with
        | None => scan text alts n' (S i) resume
        | Some e =>
            if e =? i then
              match match_at text alts i true with
              | Some e' => (i, i) :: (i, e') :: scan text alts n' (S i) e'
              | None => (i, i) :: scan text alts n' (S i) resume
              end
            else (i, e) :: scan text alts n' (S i) e
        end
  end.

(** The spans [(match.start(), match.end())] of
    [re.compile(r'\b(' + '|'.join(...) + r')\b', re.IGNORECASE).finditer(text)]. *)
Definition finditer (words : list pystr) (text : pystr) : list (nat * nat) :=
  scan text (alternatives words) (S (length text)) 0 0.

(** The context patterns: literals separated by [\s+]. *)
Inductive tok := TLit (w : pystr) | TSpaces.

Fixpoint match_toks (toks : list tok) : pystr -> bool :=
  match toks with
  | [] => fun _ => true
  | TLit w :: rest => fun s => prefix_ci w s && match_toks rest (skipn (length w) s)
  | TSpaces :: rest =>
      fix spaces (s : pystr) : bool :=
        match s with
        | [] => false
        | c :: s' => is_space c && (spaces s' || match_toks rest s')
        end
  end.

(** [re.search(toks, s, re.IGNORECASE)] as a truth value. *)
Fixpoint search_toks (toks : list tok) (s : pystr) : bool :=
  match_toks toks s ||
  match s with
  | [] => false
  | _ :: s' => search_toks toks s'
  end.

(** [re.search(r'\bw\b', s, re.IGNORECASE)] as a truth value. *)
Definition search_word (w s : pystr) : bool :=
  existsb (fun i => match match_at s [w] i false with Some _ => true | None => false end)
          (seq 0 (S (length s))).

End Re.

(** ** Sorting *)

(** [list.sort(key=..., reverse=True)]: the stable sort in descending key
    order.  [gtb y x] says that the key of [y] is above the key of [x]. *)
Section StableSort.
Context {A : Type} (gtb : A -> A -> bool).

Fixpoint insert_desc (x : A) (l : list A) : list A :=
  match l with
  | [] => [x]
  | y :: l' => if gtb y x then y :: insert_desc x l' else x :: l
  end.

Definition sort_desc (l : list A) : list A := fold_right insert_desc [] l.
End StableSort.

(** ** Floats *)

(** IEEE 754 binary64, the format of a Python [float], on the rationals. *)
Module F64.

Definition pow2 (k : Z) : Q := (2 ^ k)%Q.

(** The integer nearest to [x], a tie going to the even one. *)
Definition rne (x : Q) : Z :=
  let f := Qfloor x in
  match (x - inject_Z f ?= 1 # 2)%Q with
  | Lt => f
  | Gt => (f + 1)%Z
  | Eq => if Z.even f then f else (f + 1)%Z
  end.

(** The exponent [e] with [2^e <= |x| < 2^(e+1)], for [x] other than 0. *)
Definition binade (x : Q) : Z :=
  let k := (Z.log2 (Z.abs (Qnum x)) - Z.log2 (Zpos (Qden x)))%Z in
  if Qle_bool (pow2 k) (Qabs x) then k else (k - 1)%Z.

(** The least exponent of a normal double. *)
Definition emin : Z := (-1022)%Z.

(** The distance between the doubles around [x]: 53 significant bits, and
    the subnormal spacing [2^-1074] below [2^emin]. *)
Definition quantum (x : Q) : Q := pow2 (Z.max (binade x) emin - 52).

(** The double nearest to [x], ties to even. *)
Definition round (x : Q) : Q :=
  if Qeq_bool x 0 then 0%Q else (inject_Z (rne (x / quantum x)) * quantum x)%Q.

(** A decimal float literal. *)
Definition lit (d : Q) : Q := round d.

(** [x + y] and [x - y] on floats, [a / b] on integers. *)
Definition add (x y : Q) : Q := round (x + y).
Definition sub (x y : Q) : Q := round (x - y).
Definition div (x y : Q) : Q := round (x / y).

(** The rational that a finite number of the kernel's binary64 type denotes
    (0 for the others), to compare the rounding with. *)
Definition of_float (f : PrimFloat.float) : Q :=
  match FloatOps.Prim2SF f with
  | SpecFloat.S754_finite s m e =>
      ((if s then -1 else 1) * inject_Z (Zpos m) * pow2 e)%Q
  | _ => 0%Q
  end.

Arguments round : simpl never.
Arguments lit : simpl never.
Arguments add : simpl never.
Arguments sub : simpl never.
Arguments div : simpl never.

End F64.

(** ** Results and exceptions *)

Inductive exn :=
| AttributeError
| RuntimeError
| ValueError.

Inductive result (A : Type) :=
| Ok (a : A)
| Raise (e : exn).
Arguments Ok {A} a.
Arguments Raise {A} e.

Definition bind {A B : Type} (r : result A) (k : A -> result B) : result B :=
  match r with
  | Ok a => k a
  | Raise e => Raise e
  end.

(** A list comprehension [[f(x) for x in l]]: the first exception leaves the
    comprehension. *)
Fixpoint comprehension {A B : Type} (f : A -> result B) (l : list A) : result (list B) :=
  match l with
  | [] => Ok []
  | x :: l' =>
      bind (f x) (fun y => bind (comprehension f l') (fun ys => Ok (y :: ys)))
  end.

(** The values a caller can put in a list of texts (the transport layer
    passes the decoded JSON array as it is). *)
Inductive pyval :=
| PyStr (s : PyStr.pystr)
| PyInt (n : Z)
| PyNone.

(** A keyword catalog as [json.load] returns it: the categories in file
    order, each with its list of keywords. *)
Definition keyword_dict := list (PyStr.pystr * list PyStr.pystr).

(** ** [src/core/stigma_classifier.py] *)

Module stigma_classifier.
Import PyStr.

Record StigmaMatch := mkStigmaMatch {
  original_text : pystr;
  start_pos : nat;
  end_pos : nat;
  category : pystr;
  confidence : Q;
  context : pystr
}.

(** [StigmaClassifier.detect_stigma]: one compiled pattern per category, in
    catalog order; each match keeps the text 50 characters around it. *)
Definition detect_stigma (keywords : keyword_dict) (text : pystr) : list StigmaMatch :=
  flat_map
    (fun entry : pystr * list pystr =>
       let (cat, words) := entry in
       map (fun span : nat * nat =>
              let (s, e) := span in
              mkStigmaMatch (slice text s e) s e cat 1%Q
                (slice text (s - 50) (Nat.min (length text) (e + 50))))
           (Re.finditer words text))
    keywords.

(** [StigmaClassifier.has_stigma] *)
Definition has_stigma (keywords : keyword_dict) (text : pystr) : bool :=
  0 <? length (detect_stigma keywords text).

Fixpoint dedup (l : list pystr) : list pystr :=
  match l with
  | [] => []
  | x :: l' => x :: filter (fun y => negb (str_eqb x y)) (dedup l')
  end.

(** [StigmaClassifier.get_stigma_categories]: [list(set(...))]; Python leaves
    the order of the result open, the model keeps first occurrences. *)
Definition get_stigma_categories (keywords : keyword_dict) (text : pystr) : list pystr :=
  dedup (map category (detect_stigma keywords text)).

Definition table (l : list (string * string)) : list (pystr * pystr) :=
  map (fun p => (py (fst p), py (snd p))) l.

(** [StigmaRewriter.replacements] *)
Definition replacements : list (pystr * list (pystr * pystr)) :=
  [ (py "adamant", table
      [ ("adamant", "firm"); ("adamantly", "firmly"); ("adament", "firm");
        ("adamently", "firmly"); ("claim", "report"); ("claimed", "reported");
        ("claiming", "reporting"); ("claims", "reports"); ("insist", "state");
        ("insisted", "stated"); ("insistence", "statement");
        ("insisting", "stating"); ("insists", "states") ]);
    (py "compliance", table
      [ ("adherance", "adherence"); ("adhere", "follow"); ("adhered", "followed");
        ("adherence", "compliance"); ("adherent", "compliant");
        ("adheres", "follows"); ("adhering", "following");
        ("compliance", "adherence"); ("compliant", "adherent");
        ("complied", "followed"); ("complies", "follows"); ("comply", "follow");
        ("complying", "following"); ("declined", "did not accept");
        ("declines", "does not accept"); ("declining", "not accepting");
        ("nonadherance", "non-adherence"); ("nonadherence", "non-adherence");
        ("nonadherent", "non-adherent"); ("noncompliance", "non-adherence");
        ("noncompliant", "non-adherent"); ("refusal", "declined");
        ("refuse", "decline"); ("refused", "declined"); ("refuses", "declines");
        ("refusing", "declining") ]);
    (py "other", table
      [ ("aggression", "agitation"); ("aggressive", "agitated");
        ("aggressively", "agitated"); ("agitated", "agitated");
        ("agitation", "agitation"); ("anger", "frustration");
        ("angered", "frustrated"); ("angers", "frustrates");
        ("angrier", "more frustrated"); ("angrily", "frustrated");
        ("angry", "frustrated"); ("argumentative", "disagreeing");
        ("argumentatively", "disagreeing"); ("belligerence", "confrontation");
        ("belligerent", "confrontational");
        ("belligerently", "confrontationally");
        ("combative", "confrontational"); ("combatively", "confrontationally");
        ("confrontational", "confrontational"); ("defensive", "defensive");
        ("disheveled", "disheveled"); ("drug seeking", "seeking medication");
        ("drug-seeking", "seeking medication"); ("exaggerate", "overstate");
        ("exaggerates", "overstates"); ("exaggerating", "overstating");
        ("historian", "patient"); ("malinger", "feign");
        ("malingered", "feigned"); ("malingerer", "person feigning");
        ("malingering", "feigning"); ("malingers", "feigns");
        ("narcotic seeking", "seeking pain medication");
        ("narcotic-seeking", "seeking pain medication");
        ("poorly groomed", "disheveled"); ("poorly-groomed", "disheveled");
        ("secondary gain", "secondary benefit");
        ("uncooperative", "uncooperative"); ("unkempt", "disheveled");
        ("unmotivated", "unmotivated"); ("unwilling", "unwilling");
        ("unwillingly", "unwillingly") ]) ].

(** [StigmaRewriter.get_replacement] *)
Definition get_replacement (word cat : pystr) : pystr :=
  let word_lower := lower word in
  match dict_get replacements cat with
  | Some tbl =>
      match dict_get tbl word_lower with
      | Some r => r
      | None => word
      end
  | None => word
  end.

Record Change := mkChange {
  c_original : pystr;
  c_replacement : pystr;
  c_category : pystr;
  c_position : nat;
  c_context : pystr
}.

(** [matches.sort(key=lambda x: x.start_pos, reverse=True)] *)
Definition sort_matches (matches : list StigmaMatch) : list StigmaMatch :=
  sort_desc (fun y x => start_pos x <? start_pos y) matches.

(** The body of the loop of [rewrite_text] on the state
    [(rewritten_text, changes)]. *)
Definition rewrite_step (st : pystr * list Change) (m : StigmaMatch)
    : pystr * list Change :=
  let (rewritten_text, changes) := st in
  let replacement := get_replacement (original_text m) (category m) in
  if negb (str_eqb (lower replacement) (lower (original_text m)))
  then (firstn (start_pos m) rewritten_text ++ replacement
          ++ skipn (end_pos m) rewritten_text,
        changes ++ [mkChange (original_text m) replacement (category m)
                      (start_pos m) (context m)])
  else st.

(** [StigmaRewriter.rewrite_text] *)
Definition rewrite_text (keywords : keyword_dict) (text : pystr)
    : pystr * list Change :=
  let matches := sort_matches (detect_stigma keywords text) in
  fold_left rewrite_step matches (text, []).

Record MatchInfo := mkMatchInfo {
  mi_text : pystr;
  mi_category : pystr;
  mi_position : nat;
  mi_context : pystr
}.

Record NoteResult := mkNoteResult {
  r_original_text : pystr;
  rewritten_text : pystr;
  r_has_stigma : bool;
  stigma_matches : list MatchInfo;
  stigma_categories : list pystr;
  changes_made : list Change;
  num_changes : nat
}.

(** [ClinicalNoteProcessor.process_note] on a text. *)
Definition process_note (keywords : keyword_dict) (text : pystr) : NoteResult :=
  let matches := detect_stigma keywords text in
  let categories := get_stigma_categories keywords text in
  let (rewritten, changes) := rewrite_text keywords text in
  mkNoteResult text rewritten (0 <? length matches)
    (map (fun m => mkMatchInfo (original_text m) (category m) (start_pos m) (context m))
         matches)
    categories changes (length changes).

(** A call [process_note(v)] on whatever value the caller passes: the first
    statement that touches the argument is [text.lower()] in
    [detect_stigma], and only a [str] has that method. *)
Definition call_process_note (keywords : keyword_dict) (v : pyval) : result NoteResult :=
  match v with
  | PyStr text => Ok (process_note keywords text)
  | PyInt _ => Raise AttributeError
  | PyNone => Raise AttributeError
  end.

(** [ClinicalNoteProcessor.batch_process]:
    [[self.process_note(text) for text in texts]] *)
Definition batch_process (keywords : keyword_dict) (texts : list pyval)
    : result (list NoteResult) :=
  comprehension (call_process_note keywords) texts.

End stigma_classifier.

(** ** [src/core/bert_enhanced_classifier.py] *)

Module bert_enhanced_classifier.
Import PyStr.

(** [x < y] on scores. *)
Definition Qltb (x y : Q) : bool := negb (Qle_bool y x).

Record BERTStigmaMatch := mkBERTStigmaMatch {
  original_text : pystr;
  start_pos : nat;
  end_pos : nat;
  category : pystr;
  confidence : Q;
  context : pystr;
  bert_alternatives : list (pystr * Q)
}.

(** The classifier after construction: the catalog it loaded and the
    embedding model, seen through
    [cosine_similarity([embedding(word)], [embedding(candidate)])]. *)
Record BERTEnhancedClassifier := mkClassifier {
  keyword_dict_of : keyword_dict;
  similarity : pystr -> pystr -> Q
}.

Definition words (l : list string) : list pystr := map py l.

Definition lists (l : list (string * list string)) : list (pystr * list pystr) :=
  map (fun p => (py (fst p), words (snd p))) l.

(** [load_neutral_alternatives] *)
Definition neutral_alternatives : list (pystr * list pystr) :=
  lists
  [ ("adamant",
      [ "firm"; "assertive"; "determined"; "resolute"; "steadfast";
        "persistent"; "consistent"; "clear"; "direct"; "straightforward" ]);
    ("compliance",
      [ "declined"; "did not accept"; "chose not to"; "elected not to";
        "was unable to"; "had difficulty with"; "struggled with";
        "follow"; "adhere"; "participate"; "engage" ]);
    ("behavioral",
      [ "agitated"; "distressed"; "concerned"; "frustrated"; "worried";
        "anxious"; "upset"; "troubled"; "bothered"; "uncomfortable";
        "confrontational"; "defensive"; "resistant" ]);
    ("appearance",
      [ "disheveled"; "unkept"; "tired"; "weary"; "exhausted";
        "fatigued"; "drained"; "worn"; "strained"; "stressed" ]);
    ("substance_use",
      [ "seeking medication"; "requesting pain relief"; "asking for treatment";
        "seeking help"; "requesting assistance"; "asking for support" ]);
    ("general",
      [ "patient"; "individual"; "person"; "client"; "resident";
        "participant"; "subject"; "case"; "client"; "recipient" ]) ].

Definition general_alternatives : list pystr :=
  words [ "patient"; "individual"; "person"; "client"; "resident";
          "participant"; "subject"; "case"; "client"; "recipient" ].

(** [all_stigma_words] of [compute_stigma_embeddings] *)
Definition all_stigma_words (keywords : keyword_dict) : list (pystr * pystr) :=
  flat_map (fun entry : pystr * list pystr =>
              map (fun w => (w, fst entry)) (snd entry))
           keywords.

(** [self.stigma_embeddings.get(word.lower(), {}).get('category', 'general')]:
    the table is filled in the order of [all_stigma_words] under the key
    [word.lower()], so the last entry of a key is the one kept. *)
Definition stigma_category (keywords : keyword_dict) (word_lower : pystr) : pystr :=
  match List.find (fun p : pystr * pystr => str_eqb (lower (fst p)) word_lower)
                  (rev (all_stigma_words keywords)) with
  | Some p => snd p
  | None => py "general"
  end.

Definition proven_replacements : list (pystr * list pystr) :=
  lists
  [ ("adamant", ["firm"; "determined"; "resolute"]);
    ("refused", ["declined"; "did not accept"; "chose not to"]);
    ("historian", ["patient"]);
    ("noncompliant", ["non-adherent"; "had difficulty with"]);
    ("aggressive", ["agitated"; "distressed"; "frustrated"; "confrontational"]);
    ("agitated", ["agitated"]);
    ("uncooperative", ["uncooperative"]);
    ("combative", ["confrontational"; "defensive"]);
    ("drug seeking", ["seeking medication"; "requesting pain relief"]);
    ("poorly groomed", ["disheveled"; "unkept"]);
    ("malingering", ["feigning"; "exaggerating"]);
    ("belligerent", ["confrontational"; "defensive"]);
    ("exaggerating", ["overstating"; "emphasizing"]);
    ("claimed", ["reported"; "stated"; "described"]);
    ("insisted", ["stated"; "reported"; "described"]);
    ("adherence", ["compliance"]);
    ("compliant", ["adherent"]);
    ("compliance", ["adherence"]);
    ("adherent", ["compliant"]);
    ("comply", ["follow"; "adhere"; "participate"]) ].

Definition poor_replacements : list (pystr * list pystr) :=
  lists
  [ ("refused", ["adhere"; "comply"; "accept"]);
    ("historian", ["person"; "individual"; "client"]);
    ("noncompliant", ["cooperate"; "participate"]);
    ("comply", ["declined"; "refused"; "did not accept"]);
    ("claimed", ["persistent"; "consistent"]);
    ("insisted", ["persistent"; "consistent"]) ].

(** [if k in d: if w in d[k]: ...] *)
Definition listed (d : list (pystr * list pystr)) (k w : pystr) : bool :=
  match dict_get d k with
  | Some l => str_in w l
  | None => false
  end.

(** The body of the boosting loop of [_filter_and_prioritize_alternatives]. *)
Definition boost (original_word : pystr) (pair : pystr * Q) : pystr * Q :=
  let (word, sim) := pair in
  let boosted_similarity := sim in
  let boosted_similarity :=
    if listed proven_replacements (lower original_word) (lower word)
    then F64.add boosted_similarity (F64.lit 0.2) else boosted_similarity in
  let boosted_similarity :=
    if listed poor_replacements (lower original_word) (lower word)
    then F64.sub boosted_similarity (F64.lit 0.3) else boosted_similarity in
  (word, boosted_similarity).

(** [boosted_pairs.sort(key=lambda x: x[1], reverse=True)] *)
Definition sort_pairs (pairs : list (pystr * Q)) : list (pystr * Q) :=
  sort_desc (fun y x => Qltb (snd x) (snd y)) pairs.

(** [_filter_and_prioritize_alternatives] *)
Definition _filter_and_prioritize_alternatives (original_word : pystr)
    (word_similarity_pairs : list (pystr * Q)) (cat : pystr) : list (pystr * Q) :=
  sort_pairs (map (boost original_word) word_similarity_pairs).

(** [find_similar_neutral_alternatives] *)
Definition find_similar_neutral_alternatives (cl : BERTEnhancedClassifier)
    (stigmatizing_word : pystr) (top_k : nat) : list (pystr * Q) :=
  let cat := stigma_category (keyword_dict_of cl) (lower stigmatizing_word) in
  let neutral_words :=
    match dict_get neutral_alternatives cat with
    | Some l => l
    | None => general_alternatives
    end in
  let word_similarity_pairs :=
    map (fun w => (w, similarity cl stigmatizing_word w)) neutral_words in
  firstn top_k
    (_filter_and_prioritize_alternatives stigmatizing_word word_similarity_pairs cat).

(** [detect_stigma_with_bert]; [find_similar_neutral_alternatives] is called
    with its default [top_k=5]. *)
Definition detect_stigma_with_bert (cl : BERTEnhancedClassifier) (text : pystr)
    : list BERTStigmaMatch :=
  flat_map
    (fun entry : pystr * list pystr =>
       let (cat, ws) := entry in
       map (fun span : nat * nat =>
              let (s, e) := span in
              let original_word := slice text s e in
              let alternatives := find_similar_neutral_alternatives cl original_word 5 in
              let conf := match alternatives with
                          | (_, score) :: _ => score
                          | [] => 0.5%Q
                          end in
              mkBERTStigmaMatch original_word s e cat conf
                (slice text (s - 50) (Nat.min (length text) (e + 50)))
                alternatives)
           (Re.finditer ws text))
    (keyword_dict_of cl).

(** The fragments looked for by [_is_grammatically_correct]. *)
Definition bad_fragments : list pystr :=
  words [ "was adhere"; "were adhere"; "is adhere"; "are adhere";
          "was comply"; "were comply"; "is comply"; "are comply";
          "a patient"; "an patient";
          "to declined"; "with declined"; "for declined";
          "declined to declined"; "refused to declined" ].

(** [_is_grammatically_correct] (its list [problematic_patterns] is built
    and never read). *)
Definition _is_grammatically_correct (original replacement full_text : pystr)
    (position : nat) : bool :=
  let start_ctx := position - 20 in
  let end_ctx := Nat.min (length full_text) (position + length original + 20) in
  let ctx := slice full_text start_ctx end_ctx in
  let test_context := replace ctx original replacement in
  negb (existsb (fun pattern => contains pattern (lower test_context)) bad_fragments).

Definition critical_terms : list (pystr * pystr) :=
  map (fun p : string * string => (py (fst p), py (snd p)))
  [ ("historian", "patient"); ("refused", "declined");
    ("noncompliant", "non-adherent"); ("nonadherent", "non-adherent") ].

Definition meaning_preserving : list (pystr * list pystr) :=
  lists
  [ ("adamant", ["firm"; "determined"; "resolute"]);
    ("aggressive", ["agitated"; "distressed"; "frustrated"]);
    ("combative", ["confrontational"; "defensive"]);
    ("drug seeking", ["seeking medication"; "requesting pain relief"]);
    ("poorly groomed", ["disheveled"; "unkept"]);
    ("malingering", ["feigning"; "exaggerating"]);
    ("comply", ["follow"; "adhere"; "participate"]);
    ("claimed", ["reported"; "stated"; "described"]);
    ("insisted", ["stated"; "reported"; "described"]) ].

(** [_preserves_clinical_meaning] *)
Definition _preserves_clinical_meaning (original replacement cat : pystr) : bool :=
  match dict_get critical_terms (lower original) with
  | Some r => str_eqb (lower replacement) r
  | None =>
      match dict_get meaning_preserving (lower original) with
      | Some l => str_in (lower replacement) l
      | None => true
      end
  end.

(** [problematic_contexts]: the word looked for in [original], the required
    replacement, and the pattern looked for in the sentence. *)
Definition problematic_contexts : list (pystr * pystr * list Re.tok) :=
  [ (py "historian", py "patient",
      [Re.TLit (py "poor"); Re.TSpaces; Re.TLit (py "historian")]);
    (py "refused", py "declined",
      [Re.TLit (py "refused"); Re.TSpaces; Re.TLit (py "to"); Re.TSpaces;
       Re.TLit (py "comply")]);
    (py "noncompliant", py "non-adherent",
      [Re.TLit (py "noncompliant"); Re.TSpaces; Re.TLit (py "with")]) ].

(** The loop of [_is_contextually_appropriate]: the first entry whose two
    searches succeed decides. *)
Fixpoint check_contexts (original replacement sentence : pystr)
    (l : list (pystr * pystr * list Re.tok)) : bool :=
  match l with
  | [] => true
  | (pattern, replacement_pattern, context_pattern) :: l' =>
      if Re.search_word pattern original && Re.search_toks context_pattern sentence
      then str_eqb (lower replacement) replacement_pattern
      else check_contexts original replacement sentence l'
  end.

(** [_is_contextually_appropriate] *)
Definition _is_contextually_appropriate (original replacement full_text : pystr)
    (position : nat) : bool :=
  let sentence_start :=
    match rfind full_text "."%char position with
    | Some i => i + 1
    | None => 0
    end in
  let sentence_end :=
    match find full_text "."%char position with
    | Some i => i
    | None => length full_text
    end in
  let sentence := strip (slice full_text sentence_start sentence_end) in
  check_contexts original replacement sentence problematic_contexts.

Definition neutral_terms : list pystr :=
  words ["agitated"; "uncooperative"; "patient"; "individual"; "person"].

(** [_is_appropriate_replacement] *)
Definition _is_appropriate_replacement (original replacement cat : pystr)
    (similarity_score : Q) (full_text : pystr) (position : nat) : bool :=
  if Qltb similarity_score (F64.lit 0.6) then false
  else if str_in (lower original) neutral_terms then false
  else if str_eqb cat (py "compliance")
          && ((str_in (lower original) (words ["refused"; "declined"])
               && str_in (lower replacement) (words ["adhere"; "comply"]))
              || (str_eqb (lower original) (py "comply")
                  && str_eqb (lower replacement) (py "declined")))
       then false
  else if negb (_is_grammatically_correct original replacement full_text position)
       then false
  else if negb (_preserves_clinical_meaning original replacement cat) then false
  else if negb (_is_contextually_appropriate original replacement full_text position)
       then false
  else true.

Definition high_quality_replacements : list (pystr * pystr) :=
  map (fun p : string * string => (py (fst p), py (snd p)))
  [ ("adamant", "firm"); ("refused", "declined"); ("historian", "patient");
    ("noncompliant", "non-adherent"); ("aggressive", "agitated");
    ("combative", "confrontational"); ("drug seeking", "seeking medication");
    ("poorly groomed", "disheveled"); ("malingering", "feigning") ].

(** [_calculate_quality_score] *)
Definition _calculate_quality_score (original replacement : pystr)
    (similarity_score : Q) : Q :=
  let quality_score := similarity_score in
  let quality_score :=
    match dict_get high_quality_replacements (lower original) with
    | Some r =>
        if str_eqb (lower replacement) r then F64.add quality_score (F64.lit 0.1)
        else quality_score
    | None => quality_score
    end in
  Qmin quality_score 1.0%Q.

Record Change := mkChange {
  c_original : pystr;
  c_replacement : pystr;
  c_category : pystr;
  c_position : nat;
  c_context : pystr;
  c_similarity_score : Q;
  c_all_alternatives : list (pystr * Q);
  c_quality_score : Q
}.

(** [matches.sort(key=lambda x: x.start_pos, reverse=True)] *)
Definition sort_matches (matches : list BERTStigmaMatch) : list BERTStigmaMatch :=
  sort_desc (fun y x => start_pos x <? start_pos y) matches.

(** The body of the loop of [rewrite_text_with_bert]; [text] is the
    unchanged input, which the quality gate reads. *)
Definition rewrite_step (text : pystr) (st : pystr * list Change)
    (m : BERTStigmaMatch) : pystr * list Change :=
  let (rewritten_text, changes) := st in
  match bert_alternatives m with
  | (best_alternative, similarity_score) :: _ =>
      if _is_appropriate_replacement (original_text m) best_alternative
           (category m) similarity_score text (start_pos m)
      then (firstn (start_pos m) rewritten_text ++ best_alternative
              ++ skipn (end_pos m) rewritten_text,
            changes ++ [mkChange (original_text m) best_alternative (category m)
                          (start_pos m) (context m) similarity_score
                          (bert_alternatives m)
                          (_calculate_quality_score (original_text m)
                             best_alternative similarity_score)])
      else st
  | [] => st
  end.

(** [rewrite_text_with_bert] *)
Definition rewrite_text_with_bert (cl : BERTEnhancedClassifier) (text : pystr)
    : pystr * list Change :=
  let matches := sort_matches (detect_stigma_with_bert cl text) in
  fold_left (rewrite_step text) matches (text, []).

Record MatchInfo := mkMatchInfo {
  mi_text : pystr;
  mi_category : pystr;
  mi_position : nat;
  mi_context : pystr;
  mi_confidence : Q;
  mi_alternatives : list (pystr * Q)
}.

Record NoteResult := mkNoteResult {
  r_original_text : pystr;
  rewritten_text : pystr;
  r_has_stigma : bool;
  stigma_matches : list MatchInfo;
  stigma_categories : list pystr;
  changes_made : list Change;
  num_changes : nat
}.

(** [BERTEnhancedProcessor.process_note]; the key [bert_enhanced] of the
    result is the constant [True]. *)
Definition process_note (cl : BERTEnhancedClassifier) (text : pystr) : NoteResult :=
  let matches := detect_stigma_with_bert cl text in
  let categories := stigma_classifier.dedup (map category matches) in
  let (rewritten, changes) := rewrite_text_with_bert cl text in
  mkNoteResult text rewritten (0 <? length matches)
    (map (fun m => mkMatchInfo (original_text m) (category m) (start_pos m)
                     (context m) (confidence m) (bert_alternatives m))
         matches)
    categories changes (length changes).

End bert_enhanced_classifier.

(** ** [src/core/hybrid_processor.py] *)

Module hybrid_processor.
Import PyStr.

(** The processor after construction: the rule-based processor always, the
    similarity processor when its construction succeeded. *)
Record HybridProcessor := mkHybridProcessor {
  traditional_processor : keyword_dict;
  bert_processor : option bert_enhanced_classifier.BERTEnhancedClassifier
}.

Record TraditionalResult := mkTraditionalResult {
  t_result : stigma_classifier.NoteResult;
  t_method : pystr;
  t_bert_enhanced : bool
}.

Record BertResult := mkBertResult {
  b_result : bert_enhanced_classifier.NoteResult;
  b_method : pystr
}.

(** The value under [changes_made] of a hybrid result is the list of one of
    the two pipelines. *)
Inductive Changes :=
| TraditionalChanges (l : list stigma_classifier.Change)
| BertChanges (l : list bert_enhanced_classifier.Change).

Record HybridResult := mkHybridResult {
  h_original_text : pystr;
  h_method : pystr;
  h_bert_enhanced : bool;
  traditional_result : TraditionalResult;
  bert_result : option BertResult;
  h_rewritten_text : pystr;
  h_has_stigma : bool;
  h_stigma_categories : list pystr;
  h_changes_made : Changes;
  h_num_changes : nat;
  primary_method : pystr
}.

Inductive ProcessResult :=
| OfTraditional (r : TraditionalResult)
| OfBert (r : BertResult)
| OfHybrid (r : HybridResult).

(** [_process_traditional] *)
Definition _process_traditional (p : HybridProcessor) (text : pystr) : TraditionalResult :=
  mkTraditionalResult
    (stigma_classifier.process_note (traditional_processor p) text)
    (py "traditional") false.

(** [_process_bert] *)
Definition _process_bert (p : HybridProcessor) (text : pystr) : result BertResult :=
  match bert_processor p with
  | None => Raise RuntimeError
  | Some cl => Ok (mkBertResult (bert_enhanced_classifier.process_note cl text) (py "bert"))
  end.

(** The two branches of [hybrid_result.update(...)]. *)
Definition with_primary (text : pystr) (enhanced : bool) (t : TraditionalResult)
    (b : option BertResult) : HybridResult :=
  let use_bert :=
    match b with
    | Some br =>
        stigma_classifier.num_changes (t_result t)
          <? bert_enhanced_classifier.num_changes (b_result br)
    | None => false
    end in
  match b, use_bert with
  | Some br, true =>
      mkHybridResult text (py "hybrid") enhanced t b
        (bert_enhanced_classifier.rewritten_text (b_result br))
        (bert_enhanced_classifier.r_has_stigma (b_result br))
        (bert_enhanced_classifier.stigma_categories (b_result br))
        (BertChanges (bert_enhanced_classifier.changes_made (b_result br)))
        (bert_enhanced_classifier.num_changes (b_result br))
        (py "bert")
  | _, _ =>
      mkHybridResult text (py "hybrid") enhanced t b
        (stigma_classifier.rewritten_text (t_result t))
        (stigma_classifier.r_has_stigma (t_result t))
        (stigma_classifier.stigma_categories (t_result t))
        (TraditionalChanges (stigma_classifier.changes_made (t_result t)))
        (stigma_classifier.num_changes (t_result t))
        (py "traditional")
  end.

(** [_process_hybrid] *)
Definition _process_hybrid (p : HybridProcessor) (text : pystr) : result HybridResult :=
  let traditional := _process_traditional p text in
  bind (match bert_processor p with
        | Some _ => bind (_process_bert p text) (fun r => Ok (Some r))
        | None => Ok None
        end)
       (fun bert =>
          Ok (with_primary text
                (match bert_processor p with Some _ => true | None => false end)
                traditional bert)).

(** [_process_auto] *)
Definition _process_auto (p : HybridProcessor) (text : pystr) : result ProcessResult :=
  if (match bert_processor p with Some _ => true | None => false end)
     && (20 <? length (split_ws text))
  then bind (_process_bert p text) (fun r => Ok (OfBert r))
  else Ok (OfTraditional (_process_traditional p text)).

(** [HybridProcessor.process_note] *)
Definition process_note (p : HybridProcessor) (text method : pystr) : result ProcessResult :=
  if str_eqb method (py "traditional")
  then Ok (OfTraditional (_process_traditional p text))
  else if str_eqb method (py "bert")
  then bind (_process_bert p text) (fun r => Ok (OfBert r))
  else if str_eqb method (py "hybrid")
  then bind (_process_hybrid p text) (fun r => Ok (OfHybrid r))
  else if str_eqb method (py "auto")
  then _process_auto p text
  else Raise ValueError.

Record Complexity := mkComplexity {
  word_count : nat;
  sentence_count : nat;
  avg_sentence_length : Q;
  recommended_method : pystr
}.

(** [analyze_text_complexity] *)
Definition analyze_text_complexity (p : HybridProcessor) (text : pystr) : Complexity :=
  let ws := split_ws text in
  let sentences := split_char text "."%char in
  let avg :=
    match sentences with
    | [] => 0%Q
    | _ :: _ =>
        F64.div (inject_Z (Z.of_nat (length ws)))
          (inject_Z (Z.of_nat (length sentences)))
    end in
  let recommended :=
    if (20 <? length ws) || (3 <? length sentences)
    then match bert_processor p with
         | Some _ => py "bert"
         | None => py "traditional"
         end
    else py "traditional" in
  mkComplexity (length ws) (length sentences) avg recommended.

(** The per-method entries of [compare_methods]; [confidence_scores] is
    present in the similarity entry and [primary_method] in the hybrid
    entry. *)
Record MethodSummary := mkMethodSummary {
  s_rewritten_text : pystr;
  s_num_changes : nat;
  s_has_stigma : bool;
  s_stigma_categories : list pystr;
  s_confidence_scores : option (list Q);
  s_primary_method : option pystr
}.

Record Comparison := mkComparison {
  cmp_original_text : pystr;
  methods_available : list pystr;
  cmp_traditional : MethodSummary;
  cmp_bert : option MethodSummary;
  cmp_hybrid : option MethodSummary
}.

(** [compare_methods] *)
Definition compare_methods (p : HybridProcessor) (text : pystr) : result Comparison :=
  let traditional := _process_traditional p text in
  let traditional_entry :=
    mkMethodSummary
      (stigma_classifier.rewritten_text (t_result traditional))
      (stigma_classifier.num_changes (t_result traditional))
      (stigma_classifier.r_has_stigma (t_result traditional))
      (stigma_classifier.stigma_categories (t_result traditional))
      None None in
  match bert_processor p with
  | None =>
      Ok (mkComparison text [py "traditional"] traditional_entry None None)
  | Some _ =>
      bind (_process_bert p text) (fun b =>
      bind (_process_hybrid p text) (fun h =>
      Ok (mkComparison text [py "traditional"; py "bert"; py "hybrid"]
            traditional_entry
            (Some (mkMethodSummary
                     (bert_enhanced_classifier.rewritten_text (b_result b))
                     (bert_enhanced_classifier.num_changes (b_result b))
                     (bert_enhanced_classifier.r_has_stigma (b_result b))
                     (bert_enhanced_classifier.stigma_categories (b_result b))
                     (Some (map bert_enhanced_classifier.mi_confidence
                              (bert_enhanced_classifier.stigma_matches (b_result b))))
                     None))
            (Some (mkMethodSummary (h_rewritten_text h) (h_num_changes h)
                     (h_has_stigma h) (h_stigma_categories h) None
                     (Some (primary_method h)))))))
  end.

(** The loop of the branch [method == "traditional"] of
    [get_word_alternatives]: the first category whose table has the word. *)
Fixpoint traditional_alternatives (word_lower : pystr)
    (tables : list (pystr * list (pystr * pystr))) : list (pystr * Q) :=
  match tables with
  | [] => []
  | (_, tbl) :: rest =>
      match dict_get tbl word_lower with
      | Some r => [(r, 1.0%Q)]
      | None => traditional_alternatives word_lower rest
      end
  end.

(** [HybridProcessor.get_word_alternatives] *)
Definition get_word_alternatives (p : HybridProcessor) (word method : pystr)
    (top_k : nat) : result (list (pystr * Q)) :=
  match (if str_eqb method (py "bert") then bert_processor p else None) with
  | Some cl =>
      Ok (bert_enhanced_classifier.find_similar_neutral_alternatives cl word top_k)
  | None =>
      if str_eqb method (py "traditional")
      then Ok (traditional_alternatives (lower word) stigma_classifier.replacements)
      else Raise ValueError
  end.

End hybrid_processor.

(** ** Notions of the specification *)

Module Spec.
Import PyStr.

(** The keyword [w] stands in [text] at offset [i] as a whole word, letter
    case ignored. *)
Definition occurs_at (text w : pystr) (i : nat) : Prop :=
  Re.word_boundary text i = true
  /\ Re.prefix_ci w (skipn i text) = true
  /\ Re.word_boundary text (i + length w) = true.

Definition contains_catalog_keyword (keywords : keyword_dict) (text : pystr) : Prop :=
  exists cat ws w i, In (cat, ws) keywords /\ In w ws /\ occurs_at text w i.

(** Every category of the catalog lists at least one keyword. *)
Definition populated (keywords : keyword_dict) : Prop :=
  forall cat ws, In (cat, ws) keywords -> ws <> [].

Definition occurs_atb (text w : pystr) (i : nat) : bool :=
  Re.word_boundary text i
  && Re.prefix_ci w (skipn i text)
  && Re.word_boundary text (i + length w).

(** The decision procedure for [contains_catalog_keyword]. *)
Definition contains_catalog_keywordb (keywords : keyword_dict) (text : pystr) : bool :=
  existsb (fun entry : pystr * list pystr =>
             existsb (fun w => existsb (occurs_atb text w) (seq 0 (S (length text))))
                     (snd entry))
          keywords.

(** The change the loop body of [StigmaRewriter.rewrite_text] appends for a
    match, if any. *)
Definition rule_change (m : stigma_classifier.StigmaMatch)
    : list stigma_classifier.Change :=
  let replacement :=
    stigma_classifier.get_replacement (stigma_classifier.original_text m)
      (stigma_classifier.category m) in
  if negb (str_eqb (lower replacement) (lower (stigma_classifier.original_text m)))
  then [stigma_classifier.mkChange (stigma_classifier.original_text m) replacement
          (stigma_classifier.category m) (stigma_classifier.start_pos m)
          (stigma_classifier.context m)]
  else [].

(** The change the loop body of [rewrite_text_with_bert] appends for a
    match, if any. *)
Definition bert_change (text : pystr) (m : bert_enhanced_classifier.BERTStigmaMatch)
    : list bert_enhanced_classifier.Change :=
  match bert_enhanced_classifier.bert_alternatives m with
  | (best, score) :: _ =>
      if bert_enhanced_classifier._is_appropriate_replacement
           (bert_enhanced_classifier.original_text m) best
           (bert_enhanced_classifier.category m) score text
           (bert_enhanced_classifier.start_pos m)
      then [bert_enhanced_classifier.mkChange
              (bert_enhanced_classifier.original_text m) best
              (bert_enhanced_classifier.category m)
              (bert_enhanced_classifier.start_pos m)
              (bert_enhanced_classifier.context m) score
              (bert_enhanced_classifier.bert_alternatives m)
              (bert_enhanced_classifier._calculate_quality_score
                 (bert_enhanced_classifier.original_text m) best score)]
      else []
  | [] => []
  end.

(** The specification's selection rule: the first candidate of the ranked
    list that passes the quality gate. *)
Definition first_accepted (text : pystr) (m : bert_enhanced_classifier.BERTStigmaMatch)
    : option (pystr * Q) :=
  List.find (fun cand : pystr * Q =>
               bert_enhanced_classifier._is_appropriate_replacement
                 (bert_enhanced_classifier.original_text m) (fst cand)
                 (bert_enhanced_classifier.category m) (snd cand) text
                 (bert_enhanced_classifier.start_pos m))
            (bert_enhanced_classifier.bert_alternatives m).

(** An edit of a text: the span [[start, end)] and what replaces it. *)
Definition edit := (nat * nat * pystr)%type.

(** [text[:start] + replacement + text[end:]] *)
Definition apply_edit (t : pystr) (ed : edit) : pystr :=
  let '(s, e, r) := ed in firstn s t ++ r ++ skipn e t.

(** The input text from offset [cur] on with the edits, given in ascending
    order, carried out side by side: the text between the edits is copied,
    each span is replaced. *)
Fixpoint rebuild (text : pystr) (cur : nat) (edits : list edit) : pystr :=
  match edits with
  | [] => skipn cur text
  | (s, e, r) :: rest => slice text cur s ++ r ++ rebuild text e rest
  end.

(** The edit a recorded change stands for. *)
Definition rule_edit (c : stigma_classifier.Change) : edit :=
  (stigma_classifier.c_position c,
   stigma_classifier.c_position c + length (stigma_classifier.c_original c),
   stigma_classifier.c_replacement c).

Definition bert_edit (c : bert_enhanced_classifier.Change) : edit :=
  (bert_enhanced_classifier.c_position c,
   bert_enhanced_classifier.c_position c
   + length (bert_enhanced_classifier.c_original c),
   bert_enhanced_classifier.c_replacement c).

(** Offset, extent and category of a match, the part both pipelines
    share. *)
Definition rule_span (m : stigma_classifier.StigmaMatch) : nat * nat * pystr :=
  (stigma_classifier.start_pos m, stigma_classifier.end_pos m,
   stigma_classifier.category m).

Definition bert_span (m : bert_enhanced_classifier.BERTStigmaMatch) : nat * nat * pystr :=
  (bert_enhanced_classifier.start_pos m, bert_enhanced_classifier.end_pos m,
   bert_enhanced_classifier.category m).

(** Two matches at the same place, of the same category, whose texts differ
    in letter case only. *)
Definition same_match_ci (m1 m2 : stigma_classifier.StigmaMatch) : Prop :=
  stigma_classifier.start_pos m1 = stigma_classifier.start_pos m2
  /\ stigma_classifier.end_pos m1 = stigma_classifier.end_pos m2
  /\ stigma_classifier.category m1 = stigma_classifier.category m2
  /\ lower (stigma_classifier.original_text m1)
     = lower (stigma_classifier.original_text m2).

(** What a change does, the letter case of its original set aside. *)
Definition change_key (c : stigma_classifier.Change)
    : nat * pystr * pystr * pystr :=
  (stigma_classifier.c_position c, stigma_classifier.c_category c,
   lower (stigma_classifier.c_original c), stigma_classifier.c_replacement c).

End Spec.

(** ** Sample inputs *)

Module Examples.
Import PyStr.

Definition keywords : keyword_dict :=
  [ (py "adamant", map py ["adamant"; "claimed"; "insisted"]);
    (py "compliance", map py ["refused"; "noncompliant"; "comply"]);
    (py "other", map py ["combative"; "aggressive"; "historian"]) ].

Definition note_adamant : pystr := py "Patient was adamant about symptoms.".
Definition note_two : pystr := py "Patient refused treatment and was combative.".
Definition note_clean : pystr := py "Patient was cooperative and followed treatment plan.".
Definition note_dotted : pystr := py "a.b.c.d".

(** An embedding that puts "assertive" nearest to every word and "firm"
    next. *)
Definition assertive_first (w c : pystr) : Q :=
  if str_eqb c (py "assertive") then F64.lit 0.95
  else if str_eqb c (py "firm") then F64.lit 0.7
  else F64.lit 0.1.

(** An embedding that puts "firm" nearest to every word. *)
Definition firm_first (w c : pystr) : Q :=
  if str_eqb c (py "firm") then F64.lit 0.9 else F64.lit 0.1.

Definition classifier_assertive : bert_enhanced_classifier.BERTEnhancedClassifier :=
  bert_enhanced_classifier.mkClassifier keywords assertive_first.

Definition classifier_firm : bert_enhanced_classifier.BERTEnhancedClassifier :=
  bert_enhanced_classifier.mkClassifier keywords firm_first.

Definition processor_firm : hybrid_processor.HybridProcessor :=
  hybrid_processor.mkHybridProcessor keywords (Some classifier_firm).

Definition processor_rules_only : hybrid_processor.HybridProcessor :=
  hybrid_processor.mkHybridProcessor keywords None.

(** The change of the rule-based pipeline for "refused" in [note_two]. *)
Definition change_declined : stigma_classifier.Change :=
  stigma_classifier.mkChange (py "refused") (py "declined") (py "compliance") 8
    note_two.

(** The change of the similarity pipeline for "adamant" in [note_adamant]
    under [classifier_firm]. *)
Definition change_firm : bert_enhanced_classifier.Change :=
  bert_enhanced_classifier.mkChange (py "adamant") (py "firm") (py "adamant") 12
    note_adamant (F64.add (F64.lit 0.9) (F64.lit 0.2))
    (bert_enhanced_classifier.find_similar_neutral_alternatives classifier_firm
       (py "adamant") 5)
    (bert_enhanced_classifier._calculate_quality_score (py "adamant") (py "firm")
       (F64.add (F64.lit 0.9) (F64.lit 0.2))).

(** The match of the rule-based pipeline for "adamant" in [note_adamant]. *)
Definition match_rule : stigma_classifier.StigmaMatch :=
  stigma_classifier.mkStigmaMatch (py "adamant") 12 19 (py "adamant") 1%Q
    note_adamant.

(** The match of the similarity pipeline for "adamant" in [note_adamant]
    under [classifier_firm]. *)
Definition match_bert : bert_enhanced_classifier.BERTStigmaMatch :=
  bert_enhanced_classifier.mkBERTStigmaMatch (py "adamant") 12 19 (py "adamant")
    (F64.add (F64.lit 0.9) (F64.lit 0.2)) note_adamant
    (bert_enhanced_classifier.find_similar_neutral_alternatives classifier_firm
       (py "adamant") 5).

(** A batch as the transport layer can hand it over: the second item is a
    number. *)
Definition batch_mixed : list pyval :=
  [PyStr note_adamant; PyInt 7; PyStr note_clean].

Definition note_two_upper : pystr := py "PATIENT Refused treatment AND was COMBATIVE.".

End Examples.

(** * Properties *)

(** ** Rounding to binary64 *)

Lemma pow2_pos (k : Z) : (0 < F64.pow2 k)%Q.
Proof. apply Qpower_0_lt. reflexivity. Qed.

Lemma pow2_add (a b : Z) : (F64.pow2 (a + b) == F64.pow2 a * F64.pow2 b)%Q.
Proof. apply Qpower_plus. discriminate. Qed.

Lemma pow2_le (a b : Z) : (a <= b)%Z -> (F64.pow2 a <= F64.pow2 b)%Q.
Proof. intros H. apply Qpower_le_compat_l; [exact H | discriminate]. Qed.

Lemma pow2_inject (a : Z) : (0 <= a)%Z -> (inject_Z (2 ^ a) == F64.pow2 a)%Q.
Proof. intros H. now apply Zpower_Qpower. Qed.

Lemma rne_floor (x : Q) : (Qfloor x <= F64.rne x <= Qfloor x + 1)%Z.
Proof.
  unfold F64.rne. destruct (x - inject_Z (Qfloor x) ?= 1 # 2)%Q; [|lia|lia].
  destruct (Z.even (Qfloor x)); lia.
Qed.

Lemma rne_inject (z : Z) : F64.rne (inject_Z z) = z.
Proof.
  unfold F64.rne. rewrite Qfloor_Z.
  destruct (Qcompare_spec (inject_Z z - inject_Z z) (1 # 2)) as [C | C | C];
    [exfalso; lra | reflexivity | exfalso; lra].
Qed.

Lemma rne_mono (x y : Q) : (x <= y)%Q -> (F64.rne x <= F64.rne y)%Z.
Proof.
  intros Hxy. pose proof (Qfloor_resp_le x y Hxy) as Hf.
  destruct (Z.eq_dec (Qfloor x) (Qfloor y)) as [E | N].
  - unfold F64.rne. rewrite <- E.
    destruct (Qcompare_spec (x - inject_Z (Qfloor x)) (1 # 2)) as [Cx | Cx | Cx];
      destruct (Qcompare_spec (y - inject_Z (Qfloor x)) (1 # 2)) as [Cy | Cy | Cy];
      try (destruct (Z.even (Qfloor x))); try lia; exfalso; lra.
  - pose proof (rne_floor x). pose proof (rne_floor y). lia.
Qed.

Lemma rne_error (x : Q) : (Qabs (inject_Z (F64.rne x) - x) <= 1 # 2)%Q.
Proof.
  pose proof (Qfloor_le x) as Hlo. pose proof (Qlt_floor x) as Hhi.
  rewrite inject_Z_plus in Hhi. apply Qabs_Qle_condition.
  unfold F64.rne.
  destruct (Qcompare_spec (x - inject_Z (Qfloor x)) (1 # 2)) as [C | C | C].
  - destruct (Z.even (Qfloor x)); [|rewrite inject_Z_plus];
      change (inject_Z 1) with 1%Q in *; lra.
  - change (inject_Z 1) with 1%Q in *. lra.
  - rewrite inject_Z_plus. change (inject_Z 1) with 1%Q in *. lra.
Qed.

(** The binade of a number other than 0: [2^e <= |x| < 2^(e+1)]. *)
Lemma binade_spec (x : Q) :
  ~ (x == 0)%Q ->
  (F64.pow2 (F64.binade x) <= Qabs x < F64.pow2 (F64.binade x + 1))%Q.
Proof.
  intros Hx. destruct x as [n d].
  assert (Hn : (0 < Z.abs n)%Z).
  { destruct (Z.eq_dec n 0) as [-> | Hn]; [exfalso; apply Hx; reflexivity | lia]. }
  set (a := Z.log2 (Z.abs n)). set (b := Z.log2 (Zpos d)).
  pose proof (Z.log2_spec _ Hn) as [Ha1 Ha2]. fold a in Ha1, Ha2.
  pose proof (Z.log2_spec (Zpos d) eq_refl) as [Hb1 Hb2]. fold b in Hb1, Hb2.
  assert (Ha0 : (0 <= a)%Z) by apply Z.log2_nonneg.
  assert (Hb0 : (0 <= b)%Z) by apply Z.log2_nonneg.
  assert (HX : (Qabs (n # d) * inject_Z (Zpos d) == inject_Z (Z.abs n))%Q).
  { unfold Qabs, Qeq, Qmult, inject_Z. simpl. lia. }
  assert (HD : (0 < inject_Z (Zpos d))%Q) by (unfold Qlt; simpl; lia).
  assert (Ha1' : (F64.pow2 a <= inject_Z (Z.abs n))%Q).
  { rewrite <- pow2_inject by exact Ha0. now rewrite <- Zle_Qle. }
  assert (Ha2' : (inject_Z (Z.abs n) < F64.pow2 (a + 1))%Q).
  { rewrite <- pow2_inject by lia. now rewrite <- Zlt_Qlt. }
  assert (Hb1' : (F64.pow2 b <= inject_Z (Zpos d))%Q).
  { rewrite <- pow2_inject by exact Hb0. now rewrite <- Zle_Qle. }
  assert (Hb2' : (inject_Z (Zpos d) < F64.pow2 (b + 1))%Q).
  { rewrite <- pow2_inject by lia. now rewrite <- Zlt_Qlt. }
  assert (Hup : (Qabs (n # d) < F64.pow2 (a - b + 1))%Q).
  { pose proof (pow2_add (a - b + 1) b) as E.
    replace (a - b + 1 + b)%Z with (a + 1)%Z in E by lia.
    pose proof (pow2_pos (a - b + 1)). pose proof (pow2_pos b). nra. }
  assert (Hlo : (F64.pow2 (a - b - 1) < Qabs (n # d))%Q).
  { pose proof (pow2_add (a - b - 1) (b + 1)) as E.
    replace (a - b - 1 + (b + 1))%Z with a in E by lia.
    pose proof (pow2_pos (a - b - 1)). pose proof (pow2_pos (b + 1)). nra. }
  unfold F64.binade. cbn [Qnum Qden]. fold a b.
  destruct (Qle_bool (F64.pow2 (a - b)) (Qabs (n # d))) eqn:C.
  - apply Qle_bool_iff in C. split; [exact C | exact Hup].
  - assert (C' : (Qabs (n # d) < F64.pow2 (a - b))%Q).
    { apply Qnot_le_lt. intros H. apply Qle_bool_iff in H. congruence. }
    replace (a - b - 1 + 1)%Z with (a - b)%Z by lia.
    split; [now apply Qlt_le_weak | exact C'].
Qed.

Lemma binade_mono (x y : Q) :
  ~ (x == 0)%Q -> (Qabs x <= Qabs y)%Q -> (F64.binade x <= F64.binade y)%Z.
Proof.
  intros Hx Hxy.
  assert (Hy : ~ (y == 0)%Q).
  { intros E. rewrite E in Hxy. change (Qabs 0) with 0%Q in Hxy.
    apply Qabs_Qle_condition in Hxy. apply Hx. lra. }
  destruct (binade_spec x Hx) as [X1 X2]. destruct (binade_spec y Hy) as [Y1 Y2].
  destruct (Z_le_gt_dec (F64.binade x) (F64.binade y)) as [L | G]; [exact L|].
  exfalso. pose proof (pow2_le (F64.binade y + 1) (F64.binade x) ltac:(lia)). lra.
Qed.

Lemma quantum_pos (x : Q) : (0 < F64.quantum x)%Q.
Proof. apply pow2_pos. Qed.

Lemma round_zero (x : Q) : (x == 0)%Q -> F64.round x = 0%Q.
Proof. intros H. unfold F64.round. apply Qeq_bool_iff in H. now rewrite H. Qed.

Lemma round_nonzero (x : Q) :
  ~ (x == 0)%Q ->
  F64.round x = (inject_Z (F64.rne (x / F64.quantum x)) * F64.quantum x)%Q.
Proof.
  intros H. unfold F64.round.
  destruct (Qeq_bool x 0) eqn:E; [|reflexivity].
  apply Qeq_bool_iff in E. contradiction.
Qed.

(** Rounding with the quantum [2^(e-52)] does not cross a power of two
    above the quantum, which is a multiple of it. *)
Lemma round_at_le (x : Q) (e k : Z) :
  (0 <= k)%Z -> (x <= F64.pow2 (e - 52 + k))%Q ->
  (inject_Z (F64.rne (x / F64.pow2 (e - 52))) * F64.pow2 (e - 52)
   <= F64.pow2 (e - 52 + k))%Q.
Proof.
  intros Hk Hx. pose proof (pow2_pos (e - 52)) as Hq.
  rewrite (pow2_add (e - 52) k), (Qmult_comm (F64.pow2 (e - 52))) in *.
  apply Qmult_le_compat_r; [|now apply Qlt_le_weak].
  rewrite <- (pow2_inject k Hk). rewrite <- Zle_Qle.
  rewrite <- (rne_inject (2 ^ k)). apply rne_mono.
  rewrite (pow2_inject k Hk). now apply Qle_shift_div_r.
Qed.

Lemma round_at_ge (x : Q) (e k : Z) :
  (0 <= k)%Z -> (F64.pow2 (e - 52 + k) <= x)%Q ->
  (F64.pow2 (e - 52 + k)
   <= inject_Z (F64.rne (x / F64.pow2 (e - 52))) * F64.pow2 (e - 52))%Q.
Proof.
  intros Hk Hx. pose proof (pow2_pos (e - 52)) as Hq.
  rewrite (pow2_add (e - 52) k), (Qmult_comm (F64.pow2 (e - 52))) in *.
  apply Qmult_le_compat_r; [|now apply Qlt_le_weak].
  rewrite <- (pow2_inject k Hk). rewrite <- Zle_Qle.
  rewrite <- (rne_inject (2 ^ k)) at 1. apply rne_mono.
  rewrite (pow2_inject k Hk). now apply Qle_shift_div_l.
Qed.

Lemma round_at_opp_ge (x : Q) (e k : Z) :
  (0 <= k)%Z -> (- F64.pow2 (e - 52 + k) <= x)%Q ->
  (- F64.pow2 (e - 52 + k)
   <= inject_Z (F64.rne (x / F64.pow2 (e - 52))) * F64.pow2 (e - 52))%Q.
Proof.
  intros Hk Hx. pose proof (pow2_pos (e - 52)) as Hq.
  rewrite (pow2_add (e - 52) k), (Qmult_comm (F64.pow2 (e - 52))) in *.
  setoid_replace (- (F64.pow2 k * F64.pow2 (e - 52)))%Q
    with ((- F64.pow2 k) * F64.pow2 (e - 52))%Q by ring.
  setoid_replace (- (F64.pow2 k * F64.pow2 (e - 52)))%Q
    with ((- F64.pow2 k) * F64.pow2 (e - 52))%Q in Hx by ring.
  apply Qmult_le_compat_r; [|now apply Qlt_le_weak].
  rewrite <- (pow2_inject k Hk). rewrite <- inject_Z_opp, <- Zle_Qle.
  rewrite <- (rne_inject (- 2 ^ k)) at 1. apply rne_mono.
  rewrite inject_Z_opp, (pow2_inject k Hk). now apply Qle_shift_div_l.
Qed.

Lemma round_at_opp_le (x : Q) (e k : Z) :
  (0 <= k)%Z -> (x <= - F64.pow2 (e - 52 + k))%Q ->
  (inject_Z (F64.rne (x / F64.pow2 (e - 52))) * F64.pow2 (e - 52)
   <= - F64.pow2 (e - 52 + k))%Q.
Proof.
  intros Hk Hx. pose proof (pow2_pos (e - 52)) as Hq.
  rewrite (pow2_add (e - 52) k), (Qmult_comm (F64.pow2 (e - 52))) in *.
  setoid_replace (- (F64.pow2 k * F64.pow2 (e - 52)))%Q
    with ((- F64.pow2 k) * F64.pow2 (e - 52))%Q by ring.
  setoid_replace (- (F64.pow2 k * F64.pow2 (e - 52)))%Q
    with ((- F64.pow2 k) * F64.pow2 (e - 52))%Q in Hx by ring.
  apply Qmult_le_compat_r; [|now apply Qlt_le_weak].
  rewrite <- (pow2_inject k Hk). rewrite <- inject_Z_opp, <- Zle_Qle.
  rewrite <- (rne_inject (- 2 ^ k)). apply rne_mono.
  rewrite inject_Z_opp, (pow2_inject k Hk). now apply Qle_shift_div_r.
Qed.

Lemma round_at_mono (x y q : Q) :
  (0 < q)%Q -> (x <= y)%Q ->
  (inject_Z (F64.rne (x / q)) * q <= inject_Z (F64.rne (y / q)) * q)%Q.
Proof.
  intros Hq Hxy. apply Qmult_le_compat_r; [|now apply Qlt_le_weak].
  rewrite <- Zle_Qle. apply rne_mono.
  apply Qmult_le_compat_r; [exact Hxy|]. apply Qlt_le_weak, Qinv_lt_0_compat, Hq.
Qed.

(** A positive number is rounded inside its binade, ends included. *)
Lemma round_pos (x : Q) :
  (0 < x)%Q ->
  (0 <= F64.round x)%Q
  /\ (F64.round x <= F64.pow2 (Z.max (F64.binade x) F64.emin + 1))%Q
  /\ ((F64.emin <= F64.binade x)%Z -> (F64.pow2 (F64.binade x) <= F64.round x)%Q).
Proof.
  intros Hx.
  assert (Hnz : ~ (x == 0)%Q) by lra.
  destruct (binade_spec x Hnz) as [B1 B2].
  rewrite (Qabs_pos x) in B1, B2 by lra.
  rewrite (round_nonzero x Hnz). unfold F64.quantum.
  set (e := Z.max (F64.binade x) F64.emin).
  split; [|split].
  - apply Qmult_le_0_compat; [|apply Qlt_le_weak, pow2_pos].
    assert (H0 : (F64.rne (inject_Z 0) <= F64.rne (x / F64.pow2 (e - 52)))%Z).
    { apply rne_mono. apply Qle_shift_div_l; [apply pow2_pos|].
      change (inject_Z 0) with 0%Q. lra. }
    rewrite rne_inject in H0. change 0%Q with (inject_Z 0). now rewrite <- Zle_Qle.
  - replace (e + 1)%Z with (e - 52 + 53)%Z by lia.
    apply round_at_le; [lia|].
    replace (e - 52 + 53)%Z with (e + 1)%Z by lia.
    pose proof (pow2_le (F64.binade x + 1) (e + 1) ltac:(lia)). lra.
  - intros Hmin. replace e with (F64.binade x) by lia.
    pose proof (round_at_ge x (F64.binade x) 52 ltac:(lia)) as H.
    replace (F64.binade x - 52 + 52)%Z with (F64.binade x) in H by lia.
    apply H. exact B1.
Qed.

Lemma round_neg (x : Q) :
  (x < 0)%Q ->
  (F64.round x <= 0)%Q
  /\ (- F64.pow2 (Z.max (F64.binade x) F64.emin + 1) <= F64.round x)%Q
  /\ ((F64.emin <= F64.binade x)%Z -> (F64.round x <= - F64.pow2 (F64.binade x))%Q).
Proof.
  intros Hx.
  assert (Hnz : ~ (x == 0)%Q) by lra.
  destruct (binade_spec x Hnz) as [B1 B2].
  rewrite (Qabs_neg x) in B1, B2 by lra.
  rewrite (round_nonzero x Hnz). unfold F64.quantum.
  set (e := Z.max (F64.binade x) F64.emin).
  split; [|split].
  - assert (H0 : (F64.rne (x / F64.pow2 (e - 52)) <= F64.rne (inject_Z 0))%Z).
    { apply rne_mono. apply Qle_shift_div_r; [apply pow2_pos|].
      change (inject_Z 0) with 0%Q. lra. }
    rewrite rne_inject in H0. rewrite Zle_Qle in H0.
    change (inject_Z 0) with 0%Q in H0.
    pose proof (pow2_pos (e - 52)). nra.
  - replace (e + 1)%Z with (e - 52 + 53)%Z by lia.
    apply round_at_opp_ge; [lia|].
    replace (e - 52 + 53)%Z with (e + 1)%Z by lia.
    pose proof (pow2_le (F64.binade x + 1) (e + 1) ltac:(lia)). lra.
  - intros Hmin. replace e with (F64.binade x) by lia.
    pose proof (round_at_opp_le x (F64.binade x) 52 ltac:(lia)) as H.
    replace (F64.binade x - 52 + 52)%Z with (F64.binade x) in H by lia.
    apply H. lra.
Qed.

(** Rounding is monotone. *)
Lemma round_mono (x y : Q) : (x <= y)%Q -> (F64.round x <= F64.round y)%Q.
Proof.
  intros Hxy.
  destruct (Q_dec x 0) as [[Hx | Hx] | Hx]; destruct (Q_dec y 0) as [[Hy | Hy] | Hy];
    try (exfalso; lra).
  - (* both negative *)
    assert (Hnx : ~ (x == 0)%Q) by lra. assert (Hny : ~ (y == 0)%Q) by lra.
    assert (Hb : (F64.binade y <= F64.binade x)%Z).
    { apply binade_mono; [exact Hny|]. rewrite !Qabs_neg by lra. lra. }
    destruct (Z.eq_dec (Z.max (F64.binade x) F64.emin) (Z.max (F64.binade y) F64.emin))
      as [E | N].
    + rewrite (round_nonzero x Hnx), (round_nonzero y Hny).
      unfold F64.quantum. rewrite E. apply round_at_mono; [apply pow2_pos | exact Hxy].
    + destruct (round_neg x Hx) as (_ & _ & X3). destruct (round_neg y Hy) as (_ & Y2 & _).
      assert (Hbx : (F64.emin <= F64.binade x)%Z) by lia.
      specialize (X3 Hbx).
      pose proof (pow2_le (Z.max (F64.binade y) F64.emin + 1) (F64.binade x) ltac:(lia)).
      lra.
  - destruct (round_neg x Hx) as (X1 & _). destruct (round_pos y Hy) as (Y1 & _). lra.
  - destruct (round_neg x Hx) as (X1 & _). rewrite (round_zero y Hy). exact X1.
  - (* both positive *)
    assert (Hnx : ~ (x == 0)%Q) by lra. assert (Hny : ~ (y == 0)%Q) by lra.
    assert (Hb : (F64.binade x <= F64.binade y)%Z).
    { apply binade_mono; [exact Hnx|]. rewrite !Qabs_pos by lra. exact Hxy. }
    destruct (Z.eq_dec (Z.max (F64.binade x) F64.emin) (Z.max (F64.binade y) F64.emin))
      as [E | N].
    + rewrite (round_nonzero x Hnx), (round_nonzero y Hny).
      unfold F64.quantum. rewrite E. apply round_at_mono; [apply pow2_pos | exact Hxy].
    + destruct (round_pos x Hx) as (_ & X2 & _). destruct (round_pos y Hy) as (_ & _ & Y3).
      assert (Hby : (F64.emin <= F64.binade y)%Z) by lia.
      specialize (Y3 Hby).
      pose proof (pow2_le (Z.max (F64.binade x) F64.emin + 1) (F64.binade y) ltac:(lia)).
      lra.
  - rewrite (round_zero x Hx). destruct (round_pos y Hy) as (Y1 & _). exact Y1.
  - rewrite (round_zero x Hx), (round_zero y Hy). apply Qle_refl.
Qed.

(** Rounding moves a number by at most half the distance between the
    doubles around it. *)
Lemma round_error_quantum (x : Q) :
  ~ (x == 0)%Q -> (Qabs (F64.round x - x) <= (1 # 2) * F64.quantum x)%Q.
Proof.
  intros Hnz. rewrite (round_nonzero x Hnz).
  set (q := F64.quantum x).
  assert (Hq : (0 < q)%Q) by apply quantum_pos.
  setoid_replace (inject_Z (F64.rne (x / q)) * q - x)%Q
    with ((inject_Z (F64.rne (x / q)) - x / q) * q)%Q by (field; lra).
  rewrite Qabs_Qmult, (Qabs_pos q) by lra.
  pose proof (rne_error (x / q)) as He.
  pose proof (Qabs_nonneg (inject_Z (F64.rne (x / q)) - x / q)) as H0.
  nra.
Qed.

(** The relative error of a rounding is at most [2^-53], and below the
    normal range the absolute error is at most [2^-1075]. *)
Lemma round_error_rel (x : Q) :
  (Qabs (F64.round x - x) <= Qabs x * F64.pow2 (-53) + F64.pow2 (-1075))%Q.
Proof.
  pose proof (pow2_pos (-53)) as H53. pose proof (pow2_pos (-1075)) as H1075.
  pose proof (Qabs_nonneg x) as Hx0.
  destruct (Qeq_dec x 0) as [Hz | Hnz].
  - rewrite (round_zero x Hz).
    setoid_replace (0 - x)%Q with 0%Q by lra. change (Qabs 0) with 0%Q. nra.
  - pose proof (round_error_quantum x Hnz) as He.
    destruct (binade_spec x Hnz) as [B1 _].
    unfold F64.quantum in He.
    destruct (Z_le_gt_dec F64.emin (F64.binade x)) as [L | G].
    + rewrite Z.max_l in He by exact L.
      pose proof (pow2_add (F64.binade x) (-52)) as E1.
      assert (E2 : ((1 # 2) * F64.pow2 (-52) == F64.pow2 (-53))%Q) by reflexivity.
      change (F64.binade x + -52)%Z with (F64.binade x - 52)%Z in E1.
      pose proof (pow2_pos (F64.binade x)). pose proof (pow2_pos (-52)). nra.
    + rewrite Z.max_r in He by lia.
      assert (E : ((1 # 2) * F64.pow2 (F64.emin - 52) == F64.pow2 (-1075))%Q)
        by reflexivity.
      nra.
Qed.

(** A number below 2 in magnitude is rounded by at most [2^-53]. *)
Lemma round_error (x : Q) :
  (Qabs x < 2)%Q -> (Qabs (F64.round x - x) <= F64.pow2 (-53))%Q.
Proof.
  intros Hx. destruct (Qeq_dec x 0) as [Hz | Hnz].
  - rewrite (round_zero x Hz).
    setoid_replace (0 - x)%Q with 0%Q by lra. apply Qlt_le_weak, pow2_pos.
  - destruct (binade_spec x Hnz) as [B1 _].
    assert (Hb : (F64.binade x <= 0)%Z).
    { destruct (Z_le_gt_dec (F64.binade x) 0) as [L | G]; [exact L | exfalso].
      pose proof (pow2_le 1 (F64.binade x) ltac:(lia)) as H.
      change (F64.pow2 1) with 2%Q in H. lra. }
    pose proof (round_error_quantum x Hnz) as He.
    assert (Hq' : (F64.quantum x <= F64.pow2 (-52))%Q).
    { apply pow2_le. unfold F64.emin. lia. }
    assert (E53 : (F64.pow2 (-53) == (1 # 2) * F64.pow2 (-52))%Q) by reflexivity.
    rewrite E53. lra.
Qed.

(** The literals 0.5 and 1.0 are doubles: they are written as they are. *)
Lemma exact_literals : (F64.lit 0.5 == 0.5 /\ F64.lit 1.0 == 1.0)%Q.
Proof. split; vm_compute; reflexivity. Qed.

(** The rounding agrees with the binary64 arithmetic of the kernel on the
    literals of the source and on the operations that the examples below go
    through. *)
Module Binary64.
Import PrimFloat.

#[warnings="-inexact-float"]
Lemma round_agrees_with_kernel_floats :
  (F64.lit 0.1 == F64.of_float 0.1
   /\ F64.lit 0.2 == F64.of_float 0.2
   /\ F64.lit 0.3 == F64.of_float 0.3
   /\ F64.lit 0.6 == F64.of_float 0.6
   /\ F64.lit 0.7 == F64.of_float 0.7
   /\ F64.lit 0.9 == F64.of_float 0.9
   /\ F64.lit 0.95 == F64.of_float 0.95
   /\ F64.lit 1.2 == F64.of_float 1.2
   /\ F64.lit (-1.3) == F64.of_float (-1.3)
   /\ F64.lit 0.8999999999999999 == F64.of_float 0.8999999999999999
   /\ F64.add (F64.lit 0.7) (F64.lit 0.2) == F64.of_float (0.7 + 0.2)
   /\ F64.add (F64.lit 0.9) (F64.lit 0.2) == F64.of_float (0.9 + 0.2)
   /\ F64.add (F64.lit 0.9) (F64.lit 0.1) == F64.of_float (0.9 + 0.1)
   /\ F64.add 1 (F64.lit 0.2) == F64.of_float (1 + 0.2)
   /\ F64.sub (-1) (F64.lit 0.3) == F64.of_float (-1 - 0.3)
   /\ F64.sub (F64.add (F64.lit 0.7) (F64.lit 0.2)) (F64.lit 0.7)
      == F64.of_float (0.7 + 0.2 - 0.7)
   /\ F64.div 1 3 == F64.of_float (1 / 3)
   /\ F64.div 1 4 == F64.of_float (1 / 4))%Q.
Proof. repeat split; vm_compute; reflexivity. Qed.

End Binary64.

(** From here on a rounding is computed as a whole or not at all. *)
Opaque F64.round.

(** ** Strings and slices *)

Lemma str_eqb_refl (a : PyStr.pystr) : PyStr.str_eqb a a = true.
Proof.
  induction a as [|x a IH]; simpl; [reflexivity|].
  now rewrite Ascii.eqb_refl, IH.
Qed.

Lemma str_eqb_eq (a b : PyStr.pystr) : PyStr.str_eqb a b = true <-> a = b.
Proof.
  split.
  - revert b; induction a as [|x a IH]; intros [|y b] H; simpl in H;
      try discriminate; [reflexivity|].
    apply andb_true_iff in H as [Hxy Hab].
    apply Ascii.eqb_eq in Hxy. subst y. f_equal. now apply IH.
  - intros ->. apply str_eqb_refl.
Qed.

Lemma firstn_own_length {A : Type} (n : nat) (l : list A) :
  firstn (length (firstn n l)) l = firstn n l.
Proof.
  revert l; induction n as [|n IH]; intros [|x l]; simpl; try reflexivity.
  now rewrite IH.
Qed.

Lemma In_firstn {A : Type} (n : nat) (l : list A) (x : A) :
  In x (firstn n l) -> In x l.
Proof.
  intros H. rewrite <- (firstn_skipn n l). apply in_or_app. now left.
Qed.

(** Slicing again from the same start over the length of a slice gives the
    slice back, wherever the first slice was cut short by the end of the
    text. *)
Lemma slice_again (text : PyStr.pystr) (s e : nat) :
  PyStr.slice text s (s + length (PyStr.slice text s e)) = PyStr.slice text s e.
Proof.
  unfold PyStr.slice.
  replace (s + length (firstn (e - s) (skipn s text)) - s)
    with (length (firstn (e - s) (skipn s text))) by lia.
  apply firstn_own_length.
Qed.

(** ** The stable descending sort *)

Section StableSortFacts.
Context {A : Type} (gtb : A -> A -> bool).

Lemma insert_desc_perm (x : A) (l : list A) :
  Permutation (insert_desc gtb x l) (x :: l).
Proof.
  induction l as [|y l IH]; simpl; [reflexivity|].
  destruct (gtb y x); [|reflexivity].
  rewrite IH. apply perm_swap.
Qed.

Lemma sort_desc_perm (l : list A) : Permutation (sort_desc gtb l) l.
Proof.
  induction l as [|x l IH]; simpl; [reflexivity|].
  rewrite insert_desc_perm. now constructor.
Qed.

Lemma sort_desc_In (l : list A) (x : A) : In x (sort_desc gtb l) <-> In x l.
Proof.
  split; apply Permutation_in;
    [apply sort_desc_perm | symmetry; apply sort_desc_perm].
Qed.

(** Sortedness, for an order [R] that the comparison decides. *)
Section Sorted.
Variable R : A -> A -> Prop.
Hypothesis gtb_above : forall y x, gtb y x = true -> R y x.
Hypothesis gtb_not_above : forall y x, gtb y x = false -> R x y.
Hypothesis R_trans : forall a b c, R a b -> R b c -> R a c.

Lemma insert_desc_hd (x a : A) (l : list A) :
  R a x -> HdRel R a l -> HdRel R a (insert_desc gtb x l).
Proof.
  intros Hax Hhd. destruct l as [|y l]; simpl.
  - now constructor.
  - destruct (gtb y x); constructor; [now inversion Hhd | assumption].
Qed.

Lemma insert_desc_sorted (x : A) (l : list A) :
  Sorted R l -> Sorted R (insert_desc gtb x l).
Proof.
  induction 1 as [|y l Hs IH Hhd]; simpl.
  - repeat constructor.
  - destruct (gtb y x) eqn:E.
    + constructor; [exact IH|].
      apply insert_desc_hd; [now apply gtb_above | exact Hhd].
    + constructor; [now constructor|].
      constructor. now apply gtb_not_above.
Qed.

Lemma sort_desc_sorted (l : list A) : StronglySorted R (sort_desc gtb l).
Proof.
  apply Sorted_StronglySorted; [exact R_trans|].
  induction l as [|x l IH]; simpl; [constructor|].
  now apply insert_desc_sorted.
Qed.
End Sorted.

(** Stability: the elements selected by a predicate [tie] that never holds
    of two elements of which one is above the other keep their order. *)
Section Stable.
Variable tie : A -> bool.
Hypothesis tie_level : forall y x, tie y = true -> tie x = true -> gtb y x = false.

Lemma insert_desc_stable (x : A) (l : list A) :
  filter tie (insert_desc gtb x l) = filter tie (x :: l).
Proof.
  induction l as [|y l IH]; [reflexivity|].
  simpl insert_desc. destruct (gtb y x) eqn:E; [|reflexivity].
  simpl. simpl in IH. rewrite IH.
  destruct (tie y) eqn:Ey, (tie x) eqn:Ex; try reflexivity.
  rewrite (tie_level y x Ey Ex) in E. discriminate.
Qed.

Lemma sort_desc_stable (l : list A) : filter tie (sort_desc gtb l) = filter tie l.
Proof.
  induction l as [|x l IH]; [reflexivity|].
  simpl sort_desc. rewrite insert_desc_stable. simpl. now rewrite IH.
Qed.
End Stable.

End StableSortFacts.

(** A list of changes read off a sorted list of matches is sorted. *)
Lemma flat_map_sorted {A B : Type} (R : A -> A -> Prop) (R' : B -> B -> Prop)
    (f : A -> list B) (l : list A) :
  (forall a, f a = [] \/ exists b, f a = [b]) ->
  (forall a a' b b', R a a' -> In b (f a) -> In b' (f a') -> R' b b') ->
  StronglySorted R l -> StronglySorted R' (flat_map f l).
Proof.
  intros Hsmall Hrel. induction 1 as [|a l Hs IH Hall]; simpl; [constructor|].
  destruct (Hsmall a) as [E | [b E]].
  - rewrite E. exact IH.
  - rewrite E. simpl. constructor; [exact IH|].
    apply Forall_forall. intros b' Hb'.
    apply in_flat_map in Hb' as [a' [Ha' Hb']].
    rewrite Forall_forall in Hall.
    apply (Hrel a a' b b'); [now apply Hall | rewrite E; now left | exact Hb'].
Qed.

(** ** Detection *)

(** A rule match holds the piece of the text between its offsets, and its
    confidence is 1. *)
Lemma detect_stigma_match (keywords : keyword_dict) (text : PyStr.pystr)
    (m : stigma_classifier.StigmaMatch) :
  In m (stigma_classifier.detect_stigma keywords text) ->
  stigma_classifier.original_text m
    = PyStr.slice text (stigma_classifier.start_pos m) (stigma_classifier.end_pos m)
  /\ stigma_classifier.confidence m = 1%Q.
Proof.
  unfold stigma_classifier.detect_stigma. intros H.
  apply in_flat_map in H as [[cat ws] [_ H]].
  apply in_map_iff in H as [[s e] [<- _]]. simpl. now split.
Qed.

Lemma detect_stigma_with_bert_match
    (cl : bert_enhanced_classifier.BERTEnhancedClassifier) (text : PyStr.pystr)
    (m : bert_enhanced_classifier.BERTStigmaMatch) :
  In m (bert_enhanced_classifier.detect_stigma_with_bert cl text) ->
  bert_enhanced_classifier.original_text m
    = PyStr.slice text (bert_enhanced_classifier.start_pos m)
        (bert_enhanced_classifier.end_pos m)
  /\ bert_enhanced_classifier.bert_alternatives m
     = bert_enhanced_classifier.find_similar_neutral_alternatives cl
         (bert_enhanced_classifier.original_text m) 5
  /\ bert_enhanced_classifier.confidence m
     = match bert_enhanced_classifier.bert_alternatives m with
       | (_, score) :: _ => score
       | [] => 0.5%Q
       end.
Proof.
  unfold bert_enhanced_classifier.detect_stigma_with_bert. intros H.
  apply in_flat_map in H as [[cat ws] [_ H]].
  apply in_map_iff in H as [[s e] [<- _]]. simpl. now repeat split.
Qed.

(** ** The rewriting loops *)

Lemma rule_loop_changes (ms : list stigma_classifier.StigmaMatch)
    (t : PyStr.pystr) (cs : list stigma_classifier.Change) :
  snd (fold_left stigma_classifier.rewrite_step ms (t, cs))
  = cs ++ flat_map Spec.rule_change ms.
Proof.
  revert t cs. induction ms as [|m ms IH]; intros t cs; simpl.
  - now rewrite app_nil_r.
  - unfold Spec.rule_change.
    destruct (negb _); rewrite IH; [now rewrite <- app_assoc | reflexivity].
Qed.

Lemma rewrite_text_changes (keywords : keyword_dict) (text : PyStr.pystr) :
  snd (stigma_classifier.rewrite_text keywords text)
  = flat_map Spec.rule_change
      (stigma_classifier.sort_matches (stigma_classifier.detect_stigma keywords text)).
Proof. unfold stigma_classifier.rewrite_text. now rewrite rule_loop_changes. Qed.

Lemma bert_loop_changes (text : PyStr.pystr)
    (ms : list bert_enhanced_classifier.BERTStigmaMatch)
    (t : PyStr.pystr) (cs : list bert_enhanced_classifier.Change) :
  snd (fold_left (bert_enhanced_classifier.rewrite_step text) ms (t, cs))
  = cs ++ flat_map (Spec.bert_change text) ms.
Proof.
  revert t cs. induction ms as [|m ms IH]; intros t cs; simpl.
  - now rewrite app_nil_r.
  - unfold Spec.bert_change.
    destruct (bert_enhanced_classifier.bert_alternatives m) as [|[best score] rest].
    + apply IH.
    + destruct (bert_enhanced_classifier._is_appropriate_replacement _ _ _ _ _ _);
        rewrite IH; [now rewrite <- app_assoc | reflexivity].
Qed.

Lemma rewrite_text_with_bert_changes
    (cl : bert_enhanced_classifier.BERTEnhancedClassifier) (text : PyStr.pystr) :
  snd (bert_enhanced_classifier.rewrite_text_with_bert cl text)
  = flat_map (Spec.bert_change text)
      (bert_enhanced_classifier.sort_matches
         (bert_enhanced_classifier.detect_stigma_with_bert cl text)).
Proof.
  unfold bert_enhanced_classifier.rewrite_text_with_bert.
  now rewrite bert_loop_changes.
Qed.

(** A change of the rule-based pipeline comes from a detected match. *)
Lemma rule_change_origin (keywords : keyword_dict) (text : PyStr.pystr)
    (c : stigma_classifier.Change) :
  In c (snd (stigma_classifier.rewrite_text keywords text)) <->
  exists m, In m (stigma_classifier.detect_stigma keywords text)
            /\ In c (Spec.rule_change m).
Proof.
  rewrite rewrite_text_changes, in_flat_map.
  unfold stigma_classifier.sort_matches.
  split; intros [m [Hm Hc]]; exists m; split; try exact Hc.
  - now apply sort_desc_In in Hm.
  - now apply sort_desc_In.
Qed.

(** A change of the similarity pipeline comes from a detected match. *)
Lemma bert_change_origin (cl : bert_enhanced_classifier.BERTEnhancedClassifier)
    (text : PyStr.pystr) (c : bert_enhanced_classifier.Change) :
  In c (snd (bert_enhanced_classifier.rewrite_text_with_bert cl text)) <->
  exists m, In m (bert_enhanced_classifier.detect_stigma_with_bert cl text)
            /\ In c (Spec.bert_change text m).
Proof.
  rewrite rewrite_text_with_bert_changes, in_flat_map.
  unfold bert_enhanced_classifier.sort_matches.
  split; intros [m [Hm Hc]]; exists m; split; try exact Hc.
  - now apply sort_desc_In in Hm.
  - now apply sort_desc_In.
Qed.

(** What [bert_change] yields: nothing, or one change built from the head of
    the ranked list, which passed the gate. *)
Lemma bert_change_inv (text : PyStr.pystr)
    (m : bert_enhanced_classifier.BERTStigmaMatch)
    (c : bert_enhanced_classifier.Change) :
  In c (Spec.bert_change text m) <->
  exists best score rest,
    bert_enhanced_classifier.bert_alternatives m = (best, score) :: rest
    /\ bert_enhanced_classifier._is_appropriate_replacement
         (bert_enhanced_classifier.original_text m) best
         (bert_enhanced_classifier.category m) score text
         (bert_enhanced_classifier.start_pos m) = true
    /\ c = bert_enhanced_classifier.mkChange
             (bert_enhanced_classifier.original_text m) best
             (bert_enhanced_classifier.category m)
             (bert_enhanced_classifier.start_pos m)
             (bert_enhanced_classifier.context m) score
             (bert_enhanced_classifier.bert_alternatives m)
             (bert_enhanced_classifier._calculate_quality_score
                (bert_enhanced_classifier.original_text m) best score).
Proof.
  unfold Spec.bert_change.
  destruct (bert_enhanced_classifier.bert_alternatives m) as [|[best score] rest] eqn:E.
  - split; [intros [] | intros (? & ? & ? & H & _); discriminate].
  - destruct (bert_enhanced_classifier._is_appropriate_replacement _ _ _ _ _ _) eqn:G.
    + split.
      * intros [<- | []]. exists best, score, rest.
        split; [reflexivity | split; [exact G | reflexivity]].
      * intros (b & s & r & H & _ & ->). injection H as -> -> _. now left.
    + split; [intros [] |].
      intros (b & s & r & H & G' & _). injection H as -> -> _.
      rewrite G in G'. discriminate.
Qed.

(** ** The quality gate *)

Lemma Qltb_false_le (x y : Q) :
  bert_enhanced_classifier.Qltb x y = false -> (y <= x)%Q.
Proof.
  unfold bert_enhanced_classifier.Qltb. intros H.
  apply negb_false_iff in H. now apply Qle_bool_iff.
Qed.

Lemma Qltb_true_lt (x y : Q) :
  bert_enhanced_classifier.Qltb x y = true <-> (x < y)%Q.
Proof.
  unfold bert_enhanced_classifier.Qltb. rewrite negb_true_iff.
  split; intros H.
  - apply Qnot_le_lt. intros Hle. apply Qle_bool_iff in Hle. congruence.
  - destruct (Qle_bool y x) eqn:E; [|reflexivity].
    apply Qle_bool_iff in E. exfalso. now apply (Qlt_not_le x y).
Qed.

(** The gate lets no score below the float 0.6 through. *)
Lemma gate_threshold (original replacement cat : PyStr.pystr) (score : Q)
    (full_text : PyStr.pystr) (position : nat) :
  bert_enhanced_classifier._is_appropriate_replacement original replacement cat
    score full_text position = true ->
  (F64.lit 0.6 <= score)%Q.
Proof.
  unfold bert_enhanced_classifier._is_appropriate_replacement.
  destruct (bert_enhanced_classifier.Qltb score (F64.lit 0.6)) eqn:E;
    [intros H; discriminate H|].
  intros _. apply Qltb_false_le, E.
Qed.

(** C2 (as amended): the similarity rewrite records a change for a match
    exactly when the head of the match's ranked candidate list passes the
    quality gate, and the applied replacement is that head; a match whose
    head is refused records nothing, whatever the candidates behind it. *)
Theorem bert_change_is_top_candidate
    (cl : bert_enhanced_classifier.BERTEnhancedClassifier) (text : PyStr.pystr)
    (c : bert_enhanced_classifier.Change) :
  In c (snd (bert_enhanced_classifier.rewrite_text_with_bert cl text)) <->
  exists m best score rest,
    In m (bert_enhanced_classifier.detect_stigma_with_bert cl text)
    /\ bert_enhanced_classifier.bert_alternatives m = (best, score) :: rest
    /\ bert_enhanced_classifier._is_appropriate_replacement
         (bert_enhanced_classifier.original_text m) best
         (bert_enhanced_classifier.category m) score text
         (bert_enhanced_classifier.start_pos m) = true
    /\ c = bert_enhanced_classifier.mkChange
             (bert_enhanced_classifier.original_text m) best
             (bert_enhanced_classifier.category m)
             (bert_enhanced_classifier.start_pos m)
             (bert_enhanced_classifier.context m) score
             (bert_enhanced_classifier.bert_alternatives m)
             (bert_enhanced_classifier._calculate_quality_score
                (bert_enhanced_classifier.original_text m) best score).
Proof.
  rewrite bert_change_origin. split.
  - intros [m [Hm Hc]]. apply bert_change_inv in Hc as (best & score & rest & H).
    exists m, best, score, rest. split; [exact Hm | exact H].
  - intros (m & best & score & rest & Hm & H). exists m. split; [exact Hm|].
    apply bert_change_inv. exists best, score, rest. exact H.
Qed.

(** C2 (as stated) fails: with "assertive" ranked first (0.95) and refused by
    the gate, and "firm" ranked second (the float sum 0.7 + 0.2) and
    acceptable to it, the specification's rule picks "firm", and the rewrite
    records no change and leaves the text as it was. *)
Lemma top_candidate_refused_no_fallback :
  exists m,
    bert_enhanced_classifier.detect_stigma_with_bert Examples.classifier_assertive
      Examples.note_adamant = [m]
    /\ Spec.first_accepted Examples.note_adamant m
       = Some (PyStr.py "firm", F64.add (F64.lit 0.7) (F64.lit 0.2))
    /\ bert_enhanced_classifier.rewrite_text_with_bert Examples.classifier_assertive
         Examples.note_adamant = (Examples.note_adamant, []).
Proof.
  eexists. split; [vm_compute; reflexivity|].
  split; vm_compute; reflexivity.
Qed.

(** C3: the gate refuses every candidate whose score is below 0.6, and every
    change recorded by the similarity rewrite carries a similarity score of
    at least 0.6; the threshold is the float that the literal [0.6] of the
    source denotes, which lies within [2^-55] below 6/10. *)
Theorem bert_changes_above_threshold :
  (forall original replacement cat score full_text position,
      (score < F64.lit 0.6)%Q ->
      bert_enhanced_classifier._is_appropriate_replacement original replacement
        cat score full_text position = false)
  /\ (forall cl text c,
        In c (snd (bert_enhanced_classifier.rewrite_text_with_bert cl text)) ->
        (F64.lit 0.6 <= bert_enhanced_classifier.c_similarity_score c)%Q)
  /\ (0.6 - F64.pow2 (-55) <= F64.lit 0.6 <= 0.6)%Q.
Proof.
  split; [|split; [|split; vm_compute; discriminate]].
  - intros original replacement cat score full_text position Hlt.
    unfold bert_enhanced_classifier._is_appropriate_replacement.
    apply Qltb_true_lt in Hlt. rewrite Hlt. reflexivity.
  - intros cl text c Hc.
    apply bert_change_origin in Hc as [m [_ Hc]].
    apply bert_change_inv in Hc as (best & score & rest & _ & Hgate & ->).
    cbn [bert_enhanced_classifier.c_similarity_score].
    exact (gate_threshold _ _ _ _ _ _ Hgate).
Qed.

Lemma bert_changes_above_threshold_witness :
  ((0.5 < F64.lit 0.6)%Q
   /\ bert_enhanced_classifier._is_appropriate_replacement (PyStr.py "adamant")
        (PyStr.py "firm") (PyStr.py "adamant") 0.5%Q Examples.note_adamant 12 = false)
  /\ (In Examples.change_firm
         (snd (bert_enhanced_classifier.rewrite_text_with_bert
                 Examples.classifier_firm Examples.note_adamant))
      /\ (F64.lit 0.6
          <= bert_enhanced_classifier.c_similarity_score Examples.change_firm)%Q).
Proof.
  assert (Hlt : (0.5 < F64.lit 0.6)%Q) by (vm_compute; reflexivity).
  assert (Hin : In Examples.change_firm
                  (snd (bert_enhanced_classifier.rewrite_text_with_bert
                          Examples.classifier_firm Examples.note_adamant)))
    by (vm_compute; left; reflexivity).
  split; split.
  - exact Hlt.
  - exact (proj1 bert_changes_above_threshold (PyStr.py "adamant") (PyStr.py "firm")
             (PyStr.py "adamant") 0.5%Q Examples.note_adamant 12 Hlt).
  - exact Hin.
  - exact (proj1 (proj2 bert_changes_above_threshold) Examples.classifier_firm
             Examples.note_adamant Examples.change_firm Hin).
Defined.

(** C4: in both pipelines, the piece of the input text that starts at a
    change's position and has the length of its recorded original is that
    original. *)
Theorem change_locates_original :
  (forall keywords text c,
      In c (snd (stigma_classifier.rewrite_text keywords text)) ->
      PyStr.slice text (stigma_classifier.c_position c)
        (stigma_classifier.c_position c + length (stigma_classifier.c_original c))
      = stigma_classifier.c_original c)
  /\ (forall cl text c,
        In c (snd (bert_enhanced_classifier.rewrite_text_with_bert cl text)) ->
        PyStr.slice text (bert_enhanced_classifier.c_position c)
          (bert_enhanced_classifier.c_position c
           + length (bert_enhanced_classifier.c_original c))
        = bert_enhanced_classifier.c_original c).
Proof.
  split.
  - intros keywords text c Hc.
    apply rule_change_origin in Hc as [m [Hm Hc]].
    apply detect_stigma_match in Hm as [Horig _].
    unfold Spec.rule_change in Hc.
    destruct (negb _); [|contradiction].
    destruct Hc as [<- | []]. simpl. rewrite Horig. apply slice_again.
  - intros cl text c Hc.
    apply bert_change_origin in Hc as [m [Hm Hc]].
    apply detect_stigma_with_bert_match in Hm as [Horig _].
    apply bert_change_inv in Hc as (best & score & rest & _ & _ & ->).
    simpl. rewrite Horig. apply slice_again.
Qed.

Lemma change_locates_original_witness :
  (In Examples.change_declined
     (snd (stigma_classifier.rewrite_text Examples.keywords Examples.note_two))
   /\ PyStr.slice Examples.note_two 8 (8 + length (PyStr.py "refused"))
      = PyStr.py "refused")
  /\ (In Examples.change_firm
         (snd (bert_enhanced_classifier.rewrite_text_with_bert
                 Examples.classifier_firm Examples.note_adamant))
      /\ PyStr.slice Examples.note_adamant 12 (12 + length (PyStr.py "adamant"))
         = PyStr.py "adamant").
Proof.
  assert (Hrule : In Examples.change_declined
                    (snd (stigma_classifier.rewrite_text Examples.keywords
                            Examples.note_two)))
    by (vm_compute; right; left; reflexivity).
  assert (Hbert : In Examples.change_firm
                    (snd (bert_enhanced_classifier.rewrite_text_with_bert
                            Examples.classifier_firm Examples.note_adamant)))
    by (vm_compute; left; reflexivity).
  split; split; try assumption.
  - exact (proj1 change_locates_original Examples.keywords Examples.note_two
             Examples.change_declined Hrule).
  - exact (proj2 change_locates_original Examples.classifier_firm
             Examples.note_adamant Examples.change_firm Hbert).
Defined.

(** C10: in both pipelines the returned changes are in non-increasing order
    of position. *)
Theorem changes_in_descending_position :
  (forall keywords text,
      StronglySorted
        (fun a b => stigma_classifier.c_position b <= stigma_classifier.c_position a)
        (snd (stigma_classifier.rewrite_text keywords text)))
  /\ (forall cl text,
        StronglySorted
          (fun a b => bert_enhanced_classifier.c_position b
                      <= bert_enhanced_classifier.c_position a)
          (snd (bert_enhanced_classifier.rewrite_text_with_bert cl text))).
Proof.
  split.
  - intros keywords text. rewrite rewrite_text_changes.
    apply (flat_map_sorted
             (fun a b => stigma_classifier.start_pos b <= stigma_classifier.start_pos a)).
    + intros m. unfold Spec.rule_change. destruct (negb _); eauto.
    + intros m m' c c' Hle Hc Hc'. unfold Spec.rule_change in Hc, Hc'.
      destruct (negb _); [|contradiction]. destruct Hc as [<- | []].
      destruct (negb _); [|contradiction]. destruct Hc' as [<- | []].
      exact Hle.
    + apply sort_desc_sorted.
      * intros y x H. apply Nat.ltb_lt in H. lia.
      * intros y x H. apply Nat.ltb_ge in H. lia.
      * intros a b c Hab Hbc. lia.
  - intros cl text. rewrite rewrite_text_with_bert_changes.
    apply (flat_map_sorted
             (fun a b => bert_enhanced_classifier.start_pos b
                         <= bert_enhanced_classifier.start_pos a)).
    + intros m. unfold Spec.bert_change.
      destruct (bert_enhanced_classifier.bert_alternatives m) as [|[best score] rest];
        [now left|].
      destruct (bert_enhanced_classifier._is_appropriate_replacement _ _ _ _ _ _); eauto.
    + intros m m' c c' Hle Hc Hc'.
      apply bert_change_inv in Hc as (? & ? & ? & _ & _ & ->).
      apply bert_change_inv in Hc' as (? & ? & ? & _ & _ & ->).
      exact Hle.
    + apply sort_desc_sorted.
      * intros y x H. apply Nat.ltb_lt in H. lia.
      * intros y x H. apply Nat.ltb_ge in H. lia.
      * intros a b c Hab Hbc. lia.
Qed.

(** ** Ranking *)

Lemma boost_fst (original w : PyStr.pystr) (s : Q) :
  fst (bert_enhanced_classifier.boost original (w, s)) = w.
Proof.
  unfold bert_enhanced_classifier.boost.
  now destruct (bert_enhanced_classifier.listed _ _ _),
               (bert_enhanced_classifier.listed _ _ _).
Qed.

(** The adjusted score: the float sum with 0.2 for a proven replacement,
    then the float difference with 0.3 for a poor one. *)
Lemma boost_snd (original w : PyStr.pystr) (s : Q) :
  snd (bert_enhanced_classifier.boost original (w, s))
  = (let s1 :=
       if bert_enhanced_classifier.listed
            bert_enhanced_classifier.proven_replacements
            (PyStr.lower original) (PyStr.lower w)
       then F64.add s (F64.lit 0.2) else s in
     if bert_enhanced_classifier.listed
          bert_enhanced_classifier.poor_replacements
          (PyStr.lower original) (PyStr.lower w)
     then F64.sub s1 (F64.lit 0.3) else s1).
Proof.
  unfold bert_enhanced_classifier.boost.
  now destruct (bert_enhanced_classifier.listed
                  bert_enhanced_classifier.proven_replacements _ _),
               (bert_enhanced_classifier.listed
                  bert_enhanced_classifier.poor_replacements _ _).
Qed.

(** The floats 0.2 and 0.3 next to the numbers 2/10 and 3/10. *)
Lemma lit_two_tenths :
  (0.2 <= F64.lit 0.2 <= 0.2 + F64.pow2 (-56))%Q.
Proof. split; vm_compute; discriminate. Qed.

Lemma lit_three_tenths :
  (0.3 - F64.pow2 (-56) <= F64.lit 0.3 <= 0.3)%Q.
Proof. split; vm_compute; discriminate. Qed.

Lemma pow2_53_value : (F64.pow2 (-53) == 1 # 9007199254740992)%Q.
Proof. reflexivity. Qed.

Lemma pow2_small :
  (F64.pow2 (-52) == 2 * F64.pow2 (-53)
   /\ F64.pow2 (-51) == 4 * F64.pow2 (-53)
   /\ F64.pow2 (-53) == 8 * F64.pow2 (-56))%Q.
Proof. repeat split. Qed.

(** A float sum or difference of numbers in a small range is within
    [2^-53] of the exact one. *)
Lemma add_error (x y : Q) :
  (-2 < x + y < 2)%Q ->
  (x + y - F64.pow2 (-53) <= F64.add x y <= x + y + F64.pow2 (-53))%Q.
Proof.
  intros H. unfold F64.add.
  assert (Ha : (Qabs (x + y) < 2)%Q) by (apply Qabs_Qlt_condition; lra).
  pose proof (round_error (x + y) Ha) as He.
  apply Qabs_Qle_condition in He. lra.
Qed.

Lemma sub_error (x y : Q) :
  (-2 < x - y < 2)%Q ->
  (x - y - F64.pow2 (-53) <= F64.sub x y <= x - y + F64.pow2 (-53))%Q.
Proof.
  intros H. unfold F64.sub.
  assert (Ha : (Qabs (x - y) < 2)%Q) by (apply Qabs_Qlt_condition; lra).
  pose proof (round_error (x - y) Ha) as He.
  apply Qabs_Qle_condition in He. lra.
Qed.

(** For a raw similarity in [-1, 1] the adjusted score is within [2^-51]
    of the exact adjustment. *)
Lemma boost_near_exact (original w : PyStr.pystr) (s : Q) :
  (-1 <= s <= 1)%Q ->
  (Qabs (snd (bert_enhanced_classifier.boost original (w, s))
         - (s
            + (if bert_enhanced_classifier.listed
                    bert_enhanced_classifier.proven_replacements
                    (PyStr.lower original) (PyStr.lower w) then 0.2 else 0)
            - (if bert_enhanced_classifier.listed
                    bert_enhanced_classifier.poor_replacements
                    (PyStr.lower original) (PyStr.lower w) then 0.3 else 0)))
   <= F64.pow2 (-51))%Q.
Proof.
  intros Hs. rewrite boost_snd.
  pose proof lit_two_tenths as H2. pose proof lit_three_tenths as H3.
  pose proof pow2_small as (E52 & E51 & E56).
  pose proof (pow2_pos (-56)) as P56.
  pose proof pow2_53_value as V53.
  apply Qabs_Qle_condition.
  destruct (bert_enhanced_classifier.listed
              bert_enhanced_classifier.proven_replacements _ _),
           (bert_enhanced_classifier.listed
              bert_enhanced_classifier.poor_replacements _ _);
    cbv zeta.
  - pose proof (add_error s (F64.lit 0.2) ltac:(lra)) as Ha.
    pose proof (sub_error (F64.add s (F64.lit 0.2)) (F64.lit 0.3) ltac:(lra)) as Hb.
    lra.
  - pose proof (add_error s (F64.lit 0.2) ltac:(lra)) as Ha. lra.
  - pose proof (sub_error s (F64.lit 0.3) ltac:(lra)) as Hb. lra.
  - lra.
Qed.

Lemma sort_pairs_sorted (pairs : list (PyStr.pystr * Q)) :
  StronglySorted (fun a b => (snd b <= snd a)%Q)
    (bert_enhanced_classifier.sort_pairs pairs).
Proof.
  apply sort_desc_sorted.
  - intros y x H. apply Qltb_true_lt in H. now apply Qlt_le_weak.
  - intros y x H. now apply Qltb_false_le in H.
  - intros a b c Hab Hbc. now apply (Qle_trans _ (snd b)).
Qed.

Lemma sort_pairs_stable (q : Q) (pairs : list (PyStr.pystr * Q)) :
  filter (fun p => Qeq_bool (snd p) q) (bert_enhanced_classifier.sort_pairs pairs)
  = filter (fun p => Qeq_bool (snd p) q) pairs.
Proof.
  apply sort_desc_stable. intros y x Hy Hx.
  apply Qeq_bool_iff in Hy, Hx.
  unfold bert_enhanced_classifier.Qltb. apply negb_false_iff, Qle_bool_iff.
  rewrite Hy, Hx. apply Qle_refl.
Qed.

(** C5 (as amended): the ranking adjusts the raw similarity of a candidate
    in float arithmetic: the float sum with 0.2 when the candidate is listed
    as a proven replacement of the original word, then the float difference
    with 0.3 when it is listed as a poor one; for a raw similarity in
    [-1, 1] the adjusted score is within [2^-51] of the exact adjustment.
    The ranking keeps every candidate, orders them by descending adjusted
    score and leaves candidates of equal adjusted score in pool order.  For
    "adamant", the candidate "firm" is ranked with the float sum of its raw
    similarity and 0.2, which for a raw similarity in [-1, 1] is above the
    raw similarity by at least [0.2 - 2^-52]. *)
Theorem ranking_adjusts_and_sorts :
  (forall original w s,
      let proven :=
        bert_enhanced_classifier.listed bert_enhanced_classifier.proven_replacements
          (PyStr.lower original) (PyStr.lower w) in
      let poor :=
        bert_enhanced_classifier.listed bert_enhanced_classifier.poor_replacements
          (PyStr.lower original) (PyStr.lower w) in
      let s1 := if proven then F64.add s (F64.lit 0.2) else s in
      bert_enhanced_classifier.boost original (w, s)
      = (w, if poor then F64.sub s1 (F64.lit 0.3) else s1)
      /\ ((-1 <= s <= 1)%Q ->
          (Qabs (snd (bert_enhanced_classifier.boost original (w, s))
                 - (s + (if proven then 0.2 else 0) - (if poor then 0.3 else 0)))
           <= F64.pow2 (-51))%Q))
  /\ (forall original pairs cat,
        let ranked :=
          bert_enhanced_classifier._filter_and_prioritize_alternatives
            original pairs cat in
        let adjusted := map (bert_enhanced_classifier.boost original) pairs in
        Permutation ranked adjusted
        /\ StronglySorted (fun a b => (snd b <= snd a)%Q) ranked
        /\ (forall q, filter (fun p => Qeq_bool (snd p) q) ranked
                      = filter (fun p => Qeq_bool (snd p) q) adjusted))
  /\ (forall pairs cat s,
        In (PyStr.py "firm", s) pairs ->
        In (PyStr.py "firm", F64.add s (F64.lit 0.2))
           (bert_enhanced_classifier._filter_and_prioritize_alternatives
              (PyStr.py "adamant") pairs cat)
        /\ ((-1 <= s <= 1)%Q ->
            (s + 0.2 - F64.pow2 (-52) <= F64.add s (F64.lit 0.2))%Q)).
Proof.
  split; [|split].
  - intros original w s proven poor s1. subst proven poor s1. split.
    + rewrite (surjective_pairing (bert_enhanced_classifier.boost original (w, s))).
      now rewrite boost_fst, boost_snd.
    + apply boost_near_exact.
  - intros original pairs cat ranked adjusted. subst ranked adjusted.
    unfold bert_enhanced_classifier._filter_and_prioritize_alternatives.
    split; [apply sort_desc_perm|].
    split; [apply sort_pairs_sorted|].
    intros q. apply sort_pairs_stable.
  - intros pairs cat s Hin. split.
    + unfold bert_enhanced_classifier._filter_and_prioritize_alternatives,
        bert_enhanced_classifier.sort_pairs.
      apply sort_desc_In, in_map_iff.
      exists (PyStr.py "firm", s). split; [reflexivity | exact Hin].
    + intros Hs. pose proof lit_two_tenths as H2.
      pose proof pow2_small as (E52 & _ & E56).
      pose proof pow2_53_value as V53.
      pose proof (add_error s (F64.lit 0.2) ltac:(lra)) as Ha. lra.
Qed.

Lemma ranking_adjusts_and_sorts_witness :
  ((-1 <= F64.lit 0.7 <= 1)%Q
   /\ (Qabs (snd (bert_enhanced_classifier.boost (PyStr.py "adamant")
                    (PyStr.py "firm", F64.lit 0.7))
             - (F64.lit 0.7 + 0.2 - 0))
       <= F64.pow2 (-51))%Q)
  /\ In (PyStr.py "firm", F64.lit 0.7)
        [(PyStr.py "firm", F64.lit 0.7); (PyStr.py "assertive", F64.lit 0.9)]
  /\ In (PyStr.py "firm", F64.add (F64.lit 0.7) (F64.lit 0.2))
        (bert_enhanced_classifier._filter_and_prioritize_alternatives
           (PyStr.py "adamant")
           [(PyStr.py "firm", F64.lit 0.7); (PyStr.py "assertive", F64.lit 0.9)]
           (PyStr.py "adamant"))
  /\ (F64.lit 0.7 + 0.2 - F64.pow2 (-52)
      <= F64.add (F64.lit 0.7) (F64.lit 0.2))%Q.
Proof.
  assert (Hs : (-1 <= F64.lit 0.7 <= 1)%Q) by (split; vm_compute; discriminate).
  assert (Hin : In (PyStr.py "firm", F64.lit 0.7)
                   [(PyStr.py "firm", F64.lit 0.7);
                    (PyStr.py "assertive", F64.lit 0.9)])
    by (left; reflexivity).
  split; [split; [exact Hs|] | split; [exact Hin | split]].
  - exact (proj2 (proj1 ranking_adjusts_and_sorts (PyStr.py "adamant")
                    (PyStr.py "firm") (F64.lit 0.7)) Hs).
  - exact (proj1 (proj2 (proj2 ranking_adjusts_and_sorts) _ (PyStr.py "adamant")
                    (F64.lit 0.7) Hin)).
  - exact (proj2 (proj2 (proj2 ranking_adjusts_and_sorts) _ (PyStr.py "adamant")
                    (F64.lit 0.7) Hin) Hs).
Defined.

(** C5 (as stated) fails: with a raw similarity of 0.7 for "firm" and of 0.9
    for "assertive", the ranking for "adamant" gives "firm" the float sum
    0.7 + 0.2, which is the float 0.8999999999999999: it is less than the
    raw similarity plus 0.2, and the float difference between it and the
    raw similarity is less than 0.2; it is also less than 0.9, so that
    "firm", the first of the pool, is ranked behind "assertive". *)
Lemma firm_boost_below_two_tenths :
  bert_enhanced_classifier._filter_and_prioritize_alternatives (PyStr.py "adamant")
    [(PyStr.py "firm", F64.lit 0.7); (PyStr.py "assertive", F64.lit 0.9)]
    (PyStr.py "adamant")
  = [(PyStr.py "assertive", F64.lit 0.9);
     (PyStr.py "firm", F64.add (F64.lit 0.7) (F64.lit 0.2))]
  /\ (F64.add (F64.lit 0.7) (F64.lit 0.2) == F64.lit 0.8999999999999999)%Q
  /\ (F64.add (F64.lit 0.7) (F64.lit 0.2) < F64.lit 0.7 + 0.2)%Q
  /\ (F64.sub (F64.add (F64.lit 0.7) (F64.lit 0.2)) (F64.lit 0.7) < F64.lit 0.2)%Q
  /\ (F64.add (F64.lit 0.7) (F64.lit 0.2) < F64.lit 0.9)%Q.
Proof.
  split; [vm_compute; reflexivity|].
  split; [vm_compute; reflexivity|].
  split; [vm_compute; reflexivity|].
  split; vm_compute; reflexivity.
Qed.

(** ** Scores *)

Lemma quality_score_bounds (original replacement : PyStr.pystr) (score : Q) :
  (F64.lit 0.6 <= score)%Q ->
  (F64.lit 0.6
   <= bert_enhanced_classifier._calculate_quality_score original replacement score
   <= 1)%Q.
Proof.
  intros Hs. unfold bert_enhanced_classifier._calculate_quality_score.
  split.
  - apply Q.min_glb; [|vm_compute; discriminate].
    destruct (PyStr.dict_get _ _) as [r|]; [|exact Hs].
    destruct (PyStr.str_eqb _ r); [|exact Hs].
    unfold F64.add.
    apply (Qle_trans _ (F64.round (F64.lit 0.6))); [vm_compute; discriminate|].
    apply round_mono.
    assert (H1 : (0 <= F64.lit 0.1)%Q) by (vm_compute; discriminate).
    lra.
  - eapply Qle_trans; [apply Q.le_min_r | lra].
Qed.

(** For a raw similarity in [-1, 1] the adjusted score lies between the
    floats -1.3 and 1.2. *)
Lemma boost_range (original w : PyStr.pystr) (s : Q) :
  (-1 <= s <= 1)%Q ->
  (F64.lit (-1.3) <= snd (bert_enhanced_classifier.boost original (w, s))
   <= F64.lit 1.2)%Q.
Proof.
  intros [Hlo Hhi]. rewrite boost_snd.
  destruct (bert_enhanced_classifier.listed
              bert_enhanced_classifier.proven_replacements _ _),
           (bert_enhanced_classifier.listed
              bert_enhanced_classifier.poor_replacements _ _);
    cbv zeta; unfold F64.add, F64.sub.
  - assert (A : (F64.round (-1 + F64.lit 0.2) <= F64.round (s + F64.lit 0.2)
                 <= F64.round (1 + F64.lit 0.2))%Q)
      by (split; apply round_mono; lra).
    split.
    + apply (Qle_trans _ (F64.round (F64.round (-1 + F64.lit 0.2) - F64.lit 0.3)));
        [vm_compute; discriminate | apply round_mono; lra].
    + apply (Qle_trans _ (F64.round (F64.round (1 + F64.lit 0.2) - F64.lit 0.3)));
        [apply round_mono; lra | vm_compute; discriminate].
  - split.
    + apply (Qle_trans _ (F64.round (-1 + F64.lit 0.2)));
        [vm_compute; discriminate | apply round_mono; lra].
    + apply (Qle_trans _ (F64.round (1 + F64.lit 0.2)));
        [apply round_mono; lra | vm_compute; discriminate].
  - split.
    + apply (Qle_trans _ (F64.round (-1 - F64.lit 0.3)));
        [vm_compute; discriminate | apply round_mono; lra].
    + apply (Qle_trans _ (F64.round (1 - F64.lit 0.3)));
        [apply round_mono; lra | vm_compute; discriminate].
  - split.
    + apply (Qle_trans _ (-1)); [vm_compute; discriminate | exact Hlo].
    + apply (Qle_trans _ 1); [exact Hhi | vm_compute; discriminate].
Qed.

(** The scores of a ranked list stay within the adjustment of the raw
    similarities. *)
Lemma ranked_scores_bounds (cl : bert_enhanced_classifier.BERTEnhancedClassifier)
    (word : PyStr.pystr) (top_k : nat) (w : PyStr.pystr) (q : Q) :
  (forall a b, -1 <= bert_enhanced_classifier.similarity cl a b <= 1)%Q ->
  In (w, q) (bert_enhanced_classifier.find_similar_neutral_alternatives cl word top_k) ->
  (F64.lit (-1.3) <= q <= F64.lit 1.2)%Q.
Proof.
  intros Hraw Hin.
  unfold bert_enhanced_classifier.find_similar_neutral_alternatives in Hin.
  apply In_firstn in Hin.
  unfold bert_enhanced_classifier._filter_and_prioritize_alternatives,
    bert_enhanced_classifier.sort_pairs in Hin.
  apply sort_desc_In, in_map_iff in Hin as [[w' s] [Hb Hin]].
  apply in_map_iff in Hin as [w'' [Hw _]]. injection Hw as Hw1 Hw2. subst w' s.
  pose proof (boost_range word w'' (bert_enhanced_classifier.similarity cl word w'')
                (Hraw word w'')) as Hbd.
  rewrite Hb in Hbd. exact Hbd.
Qed.

(** C9 (as amended): the confidence of a rule match is exactly 1; the
    quality score of every change of the similarity pipeline lies in
    [0.6, 1]; the confidence of a match of the similarity pipeline is the
    adjusted score at the head of its ranked list, which is not clamped:
    for raw similarities in [-1, 1] it lies in [-1.3, 1.2].  The bounds
    0.6, -1.3 and 1.2 are the floats that these literals denote: the first
    lies within [2^-55] below 6/10, the second within [2^-54] below -13/10,
    the third below 12/10. *)
Theorem score_ranges :
  (forall keywords text m,
      In m (stigma_classifier.detect_stigma keywords text) ->
      stigma_classifier.confidence m = 1%Q)
  /\ (forall cl text c,
        In c (snd (bert_enhanced_classifier.rewrite_text_with_bert cl text)) ->
        (F64.lit 0.6 <= bert_enhanced_classifier.c_quality_score c <= 1)%Q)
  /\ (forall cl text m,
        (forall a b, (-1 <= bert_enhanced_classifier.similarity cl a b <= 1)%Q) ->
        In m (bert_enhanced_classifier.detect_stigma_with_bert cl text) ->
        (F64.lit (-1.3) <= bert_enhanced_classifier.confidence m <= F64.lit 1.2)%Q)
  /\ (0.6 - F64.pow2 (-55) <= F64.lit 0.6
      /\ -1.3 - F64.pow2 (-54) <= F64.lit (-1.3)
      /\ F64.lit 1.2 <= 1.2)%Q.
Proof.
  split; [|split; [|split; [|repeat split; vm_compute; discriminate]]].
  - intros keywords text m Hm. now apply detect_stigma_match in Hm.
  - intros cl text c Hc.
    apply bert_change_origin in Hc as [m [_ Hc]].
    apply bert_change_inv in Hc as (best & score & rest & _ & Hgate & ->).
    cbn [bert_enhanced_classifier.c_quality_score].
    apply quality_score_bounds. exact (gate_threshold _ _ _ _ _ _ Hgate).
  - intros cl text m Hraw Hm.
    apply detect_stigma_with_bert_match in Hm as (_ & Halt & ->).
    destruct (bert_enhanced_classifier.bert_alternatives m) as [|[w q] rest] eqn:E.
    + split; vm_compute; discriminate.
    + assert (Hin : In (w, q)
                      (bert_enhanced_classifier.find_similar_neutral_alternatives
                         cl (bert_enhanced_classifier.original_text m) 5))
        by (rewrite <- Halt; now left).
      exact (ranked_scores_bounds _ _ _ _ _ Hraw Hin).
Qed.

Lemma firm_first_range (a b : PyStr.pystr) :
  (-1 <= Examples.firm_first a b <= 1)%Q.
Proof.
  unfold Examples.firm_first.
  destruct (PyStr.str_eqb b _); split; vm_compute; discriminate.
Qed.

Lemma score_ranges_witness :
  (In Examples.match_rule
      (stigma_classifier.detect_stigma Examples.keywords Examples.note_adamant)
   /\ stigma_classifier.confidence Examples.match_rule = 1%Q)
  /\ (In Examples.change_firm
         (snd (bert_enhanced_classifier.rewrite_text_with_bert
                 Examples.classifier_firm Examples.note_adamant))
      /\ (F64.lit 0.6
          <= bert_enhanced_classifier.c_quality_score Examples.change_firm <= 1)%Q)
  /\ (In Examples.match_bert
         (bert_enhanced_classifier.detect_stigma_with_bert
            Examples.classifier_firm Examples.note_adamant)
      /\ (F64.lit (-1.3)
          <= bert_enhanced_classifier.confidence Examples.match_bert
          <= F64.lit 1.2)%Q).
Proof.
  assert (H1 : In Examples.match_rule
                 (stigma_classifier.detect_stigma Examples.keywords
                    Examples.note_adamant))
    by (vm_compute; left; reflexivity).
  assert (H2 : In Examples.change_firm
                 (snd (bert_enhanced_classifier.rewrite_text_with_bert
                         Examples.classifier_firm Examples.note_adamant)))
    by (vm_compute; left; reflexivity).
  assert (H3 : In Examples.match_bert
                 (bert_enhanced_classifier.detect_stigma_with_bert
                    Examples.classifier_firm Examples.note_adamant))
    by (vm_compute; left; reflexivity).
  split; [|split]; (split; [assumption|]).
  - exact (proj1 score_ranges _ _ _ H1).
  - exact (proj1 (proj2 score_ranges) _ _ _ H2).
  - exact (proj1 (proj2 (proj2 score_ranges)) Examples.classifier_firm _ _
             firm_first_range H3).
Defined.

(** C9 (as stated) fails: with a raw similarity of 0.9 between "adamant" and
    "firm", inside [-1, 1], the confidence of the match is the float sum
    0.9 + 0.2, above 1. *)
Lemma confidence_above_one :
  bert_enhanced_classifier.similarity Examples.classifier_firm
    (PyStr.py "adamant") (PyStr.py "firm") = F64.lit 0.9
  /\ In Examples.match_bert
        (bert_enhanced_classifier.detect_stigma_with_bert
           Examples.classifier_firm Examples.note_adamant)
  /\ bert_enhanced_classifier.confidence Examples.match_bert
     = F64.add (F64.lit 0.9) (F64.lit 0.2)
  /\ (1 < bert_enhanced_classifier.confidence Examples.match_bert)%Q.
Proof.
  split; [reflexivity|].
  split; [vm_compute; left; reflexivity|].
  split; [reflexivity | vm_compute; reflexivity].
Qed.

(** ** Texts without catalog keywords *)

Lemma word_boundary_range (text : PyStr.pystr) (i : nat) :
  Re.word_boundary text i = true -> i <= length text.
Proof.
  intros H. destruct (Nat.le_gt_cases i (length text)) as [Hle | Hgt]; [exact Hle|].
  exfalso. unfold Re.word_boundary, Re.word_at in H.
  destruct i as [|j]; [lia|].
  assert (Hj : nth_error text j = None) by (apply nth_error_None; lia).
  assert (Hi : nth_error text (S j) = None) by (apply nth_error_None; lia).
  rewrite Hj, Hi in H. discriminate.
Qed.

Lemma occurs_atb_spec (text w : PyStr.pystr) (i : nat) :
  Spec.occurs_atb text w i = true <-> Spec.occurs_at text w i.
Proof.
  unfold Spec.occurs_atb, Spec.occurs_at.
  rewrite !andb_true_iff. tauto.
Qed.

(** The decision procedure finds every occurrence. *)
Lemma contains_catalog_keywordb_complete (keywords : keyword_dict) (text : PyStr.pystr) :
  Spec.contains_catalog_keywordb keywords text = false ->
  ~ Spec.contains_catalog_keyword keywords text.
Proof.
  intros Hb (cat & ws & w & i & Hin & Hw & Hocc).
  assert (Hi : i <= length text) by (apply word_boundary_range, Hocc).
  enough (Spec.contains_catalog_keywordb keywords text = true) by congruence.
  unfold Spec.contains_catalog_keywordb.
  apply existsb_exists. exists (cat, ws). split; [exact Hin|].
  apply existsb_exists. exists w. split; [exact Hw|].
  apply existsb_exists. exists i. split.
  - apply in_seq. lia.
  - now apply occurs_atb_spec.
Qed.

Lemma match_at_none (text : PyStr.pystr) (alts : list PyStr.pystr) (i : nat)
    (must_advance : bool) :
  (forall w, In w alts -> ~ Spec.occurs_at text w i) ->
  Re.match_at text alts i must_advance = None.
Proof.
  intros Hno. unfold Re.match_at.
  destruct (Re.word_boundary text i) eqn:B; [|reflexivity].
  induction alts as [|w alts IH]; simpl; [reflexivity|].
  destruct (Re.prefix_ci w (skipn i text)) eqn:P; simpl.
  - destruct (Re.word_boundary text (i + length w)) eqn:B'; simpl.
    + exfalso. apply (Hno w); [now left|]. now repeat split.
    + apply IH. intros w' Hw'. apply Hno. now right.
  - apply IH. intros w' Hw'. apply Hno. now right.
Qed.

Lemma scan_none (text : PyStr.pystr) (alts : list PyStr.pystr) (n i resume : nat) :
  (forall j w, In w alts -> ~ Spec.occurs_at text w j) ->
  Re.scan text alts n i resume = [].
Proof.
  intros Hno. revert i resume.
  induction n as [|n IH]; intros i resume; simpl; [reflexivity|].
  destruct (i <? resume); [apply IH|].
  rewrite match_at_none by (intros w Hw; now apply Hno).
  apply IH.
Qed.

Lemma detect_stigma_none (keywords : keyword_dict) (text : PyStr.pystr) :
  Spec.populated keywords ->
  ~ Spec.contains_catalog_keyword keywords text ->
  stigma_classifier.detect_stigma keywords text = [].
Proof.
  intros Hpop Hno. unfold stigma_classifier.detect_stigma.
  assert (Hall : forall entry, In entry keywords ->
                   Re.finditer (snd entry) text = []).
  { intros [cat ws] Hin. simpl. unfold Re.finditer.
    apply scan_none. intros j w Hw Hocc.
    assert (Hws : Re.alternatives ws = ws).
    { destruct ws; [now destruct (Hpop _ _ Hin) | reflexivity]. }
    rewrite Hws in Hw. apply Hno. now exists cat, ws, w, j. }
  clear Hpop Hno.
  induction keywords as [|[cat ws] keywords IH]; simpl; [reflexivity|].
  pose proof (Hall (cat, ws) (or_introl eq_refl)) as E. simpl in E.
  rewrite E. simpl.
  apply IH. intros entry Hin. apply Hall. now right.
Qed.

(** C6: on a text in which no keyword of the catalog stands as a whole word
    (letter case ignored), processing returns the input as the rewritten
    text, reports no stigma, and records no change.  The catalog is taken
    with at least one keyword in every category. *)
Theorem clean_text_unchanged (keywords : keyword_dict) (text : PyStr.pystr) :
  Spec.populated keywords ->
  ~ Spec.contains_catalog_keyword keywords text ->
  stigma_classifier.rewritten_text (stigma_classifier.process_note keywords text) = text
  /\ stigma_classifier.r_has_stigma (stigma_classifier.process_note keywords text) = false
  /\ stigma_classifier.changes_made (stigma_classifier.process_note keywords text) = []
  /\ stigma_classifier.num_changes (stigma_classifier.process_note keywords text) = 0.
Proof.
  intros Hpop Hno.
  pose proof (detect_stigma_none keywords text Hpop Hno) as Hd.
  unfold stigma_classifier.process_note, stigma_classifier.rewrite_text.
  rewrite Hd. simpl. now repeat split.
Qed.

Lemma keywords_populated : Spec.populated Examples.keywords.
Proof.
  intros cat ws Hin. simpl in Hin.
  destruct Hin as [H | [H | [H | []]]]; injection H as _ <-; discriminate.
Qed.

Lemma clean_text_unchanged_witness :
  stigma_classifier.rewritten_text
    (stigma_classifier.process_note Examples.keywords Examples.note_clean)
  = Examples.note_clean
  /\ stigma_classifier.r_has_stigma
       (stigma_classifier.process_note Examples.keywords Examples.note_clean) = false
  /\ stigma_classifier.changes_made
       (stigma_classifier.process_note Examples.keywords Examples.note_clean) = []
  /\ stigma_classifier.num_changes
       (stigma_classifier.process_note Examples.keywords Examples.note_clean) = 0.
Proof.
  apply (clean_text_unchanged Examples.keywords Examples.note_clean).
  - exact keywords_populated.
  - apply contains_catalog_keywordb_complete. vm_compute. reflexivity.
Defined.

(** ** Complexity analysis and method selection *)

Lemma split_char_from_length (sep : ascii) (cur s : PyStr.pystr) :
  1 <= length (PyStr.split_char_from sep cur s).
Proof.
  revert cur. induction s as [|c s IH]; intros cur; simpl; [lia|].
  destruct (Ascii.eqb c sep); [simpl; lia | apply IH].
Qed.

Lemma available_iff (p : hybrid_processor.HybridProcessor) :
  (match hybrid_processor.bert_processor p with Some _ => true | None => false end) = true
  <-> hybrid_processor.bert_processor p <> None.
Proof. destruct (hybrid_processor.bert_processor p); split; congruence. Qed.

(** The float quotient of two counts is within a relative error of [2^-53]
    of their quotient (and of [2^-1075] below the normal range). *)
Lemma div_error (a b : nat) :
  1 <= b ->
  let q := (inject_Z (Z.of_nat a) / inject_Z (Z.of_nat b))%Q in
  (Qabs (F64.div (inject_Z (Z.of_nat a)) (inject_Z (Z.of_nat b)) - q)
   <= q * F64.pow2 (-53) + F64.pow2 (-1075))%Q.
Proof.
  intros Hb q. unfold F64.div. fold q.
  assert (Hq : (0 <= q)%Q).
  { subst q. apply Qle_shift_div_l.
    - change 0%Q with (inject_Z 0). rewrite <- Zlt_Qlt. lia.
    - rewrite Qmult_0_l. change 0%Q with (inject_Z 0). rewrite <- Zle_Qle. lia. }
  pose proof (round_error_rel q) as He.
  rewrite (Qabs_pos q Hq) in He. exact He.
Qed.

(** C7 (as amended): the analysis returns the length of the white-space
    split as word count, the length of the split on '.' (never zero) as
    sentence count, and their float quotient as average sentence length,
    which is their quotient up to a relative error of [2^-53]; it
    recommends the similarity method exactly when the embedding capability
    is available and the word count exceeds 20 or the sentence count exceeds
    3, and the rule-based method otherwise; automatic selection runs the
    similarity pipeline exactly when the capability is available and the
    word count exceeds 20. *)
Theorem complexity_analysis (p : hybrid_processor.HybridProcessor) (text : PyStr.pystr) :
  let c := hybrid_processor.analyze_text_complexity p text in
  hybrid_processor.word_count c = length (PyStr.split_ws text)
  /\ hybrid_processor.sentence_count c = length (PyStr.split_char text "."%char)
  /\ 1 <= hybrid_processor.sentence_count c
  /\ hybrid_processor.avg_sentence_length c
     = F64.div (inject_Z (Z.of_nat (hybrid_processor.word_count c)))
         (inject_Z (Z.of_nat (hybrid_processor.sentence_count c)))
  /\ (let q := inject_Z (Z.of_nat (hybrid_processor.word_count c))
                / inject_Z (Z.of_nat (hybrid_processor.sentence_count c)) in
      Qabs (hybrid_processor.avg_sentence_length c - q)
      <= q * F64.pow2 (-53) + F64.pow2 (-1075))%Q
  /\ (hybrid_processor.recommended_method c = PyStr.py "bert" <->
      hybrid_processor.bert_processor p <> None
      /\ (20 < hybrid_processor.word_count c \/ 3 < hybrid_processor.sentence_count c))
  /\ (hybrid_processor.recommended_method c <> PyStr.py "bert" ->
      hybrid_processor.recommended_method c = PyStr.py "traditional")
  /\ ((exists r, hybrid_processor._process_auto p text
                 = Ok (hybrid_processor.OfBert r)) <->
      hybrid_processor.bert_processor p <> None
      /\ 20 < length (PyStr.split_ws text)).
Proof.
  intros c. subst c. unfold hybrid_processor.analyze_text_complexity. simpl.
  pose proof (split_char_from_length "."%char [] text) as Hlen.
  fold (PyStr.split_char text "."%char) in Hlen.
  split; [reflexivity|]. split; [reflexivity|]. split; [exact Hlen|].
  assert (Havg :
    match PyStr.split_char text "."%char with
    | [] => 0%Q
    | _ :: _ =>
        F64.div (inject_Z (Z.of_nat (length (PyStr.split_ws text))))
          (inject_Z (Z.of_nat (length (PyStr.split_char text "."%char))))
    end
    = F64.div (inject_Z (Z.of_nat (length (PyStr.split_ws text))))
        (inject_Z (Z.of_nat (length (PyStr.split_char text "."%char))))).
  { destruct (PyStr.split_char text "."%char); [simpl in Hlen; lia | reflexivity]. }
  split; [exact Havg|].
  split; [rewrite Havg; exact (div_error _ _ Hlen)|].
  split; [|split].
  - destruct ((20 <? length (PyStr.split_ws text))
              || (3 <? length (PyStr.split_char text "."%char))) eqn:E.
    + apply orb_true_iff in E. rewrite !Nat.ltb_lt in E.
      destruct (hybrid_processor.bert_processor p).
      * split; [intros _; split; [discriminate | exact E] | reflexivity].
      * split; [discriminate | intros [H _]; congruence].
    + apply orb_false_iff in E. rewrite !Nat.ltb_ge in E.
      split; [discriminate | intros [_ H]; lia].
  - destruct ((20 <? _) || _); [|reflexivity].
    destruct (hybrid_processor.bert_processor p); [congruence | reflexivity].
  - unfold hybrid_processor._process_auto, hybrid_processor._process_bert.
    destruct (hybrid_processor.bert_processor p) as [cl|]; simpl.
    + destruct (20 <? length (PyStr.split_ws text)) eqn:E.
      * apply Nat.ltb_lt in E. split; [intros _; split; [discriminate | exact E]|].
        intros _. eexists. reflexivity.
      * apply Nat.ltb_ge in E. split; [intros [r Hr]; discriminate | intros [_ H]; lia].
    + split; [intros [r Hr]; discriminate | intros [H _]; congruence].
Qed.

Lemma complexity_analysis_witness :
  hybrid_processor.recommended_method
    (hybrid_processor.analyze_text_complexity Examples.processor_rules_only
       Examples.note_dotted)
  = PyStr.py "traditional".
Proof.
  apply (complexity_analysis Examples.processor_rules_only Examples.note_dotted).
  vm_compute. discriminate.
Defined.

(** C7 (as stated) fails: a text of one word and four '.'-separated pieces
    gets the similarity method recommended, with a word count below 20. *)
Lemma short_dotted_text_recommends_bert :
  hybrid_processor.word_count
    (hybrid_processor.analyze_text_complexity Examples.processor_firm
       Examples.note_dotted) = 1
  /\ hybrid_processor.sentence_count
       (hybrid_processor.analyze_text_complexity Examples.processor_firm
          Examples.note_dotted) = 4
  /\ hybrid_processor.recommended_method
       (hybrid_processor.analyze_text_complexity Examples.processor_firm
          Examples.note_dotted) = PyStr.py "bert".
Proof. repeat split. Qed.

(** C8: with the similarity pipeline available, the hybrid method returns a
    result that holds the results of both pipelines; the similarity result
    is the primary one exactly when it has more changes than the rule-based
    result (on equal counts the rule-based result is primary), and the
    rewritten text, the stigma flag, the categories and the changes of the
    hybrid result are those of the primary one. *)
Theorem hybrid_selects_larger_change_count
    (p : hybrid_processor.HybridProcessor)
    (cl : bert_enhanced_classifier.BERTEnhancedClassifier) (text : PyStr.pystr) :
  hybrid_processor.bert_processor p = Some cl ->
  exists r b,
    hybrid_processor._process_hybrid p text = Ok r
    /\ hybrid_processor._process_bert p text = Ok b
    /\ hybrid_processor.traditional_result r
       = hybrid_processor._process_traditional p text
    /\ hybrid_processor.bert_result r = Some b
    /\ (stigma_classifier.num_changes
          (hybrid_processor.t_result (hybrid_processor.traditional_result r))
        < bert_enhanced_classifier.num_changes (hybrid_processor.b_result b) ->
        hybrid_processor.primary_method r = PyStr.py "bert"
        /\ hybrid_processor.h_rewritten_text r
           = bert_enhanced_classifier.rewritten_text (hybrid_processor.b_result b)
        /\ hybrid_processor.h_has_stigma r
           = bert_enhanced_classifier.r_has_stigma (hybrid_processor.b_result b)
        /\ hybrid_processor.h_stigma_categories r
           = bert_enhanced_classifier.stigma_categories (hybrid_processor.b_result b)
        /\ hybrid_processor.h_changes_made r
           = hybrid_processor.BertChanges
               (bert_enhanced_classifier.changes_made (hybrid_processor.b_result b))
        /\ hybrid_processor.h_num_changes r
           = bert_enhanced_classifier.num_changes (hybrid_processor.b_result b))
    /\ (bert_enhanced_classifier.num_changes (hybrid_processor.b_result b)
        <= stigma_classifier.num_changes
             (hybrid_processor.t_result (hybrid_processor.traditional_result r)) ->
        hybrid_processor.primary_method r = PyStr.py "traditional"
        /\ hybrid_processor.h_rewritten_text r
           = stigma_classifier.rewritten_text
               (hybrid_processor.t_result (hybrid_processor.traditional_result r))
        /\ hybrid_processor.h_has_stigma r
           = stigma_classifier.r_has_stigma
               (hybrid_processor.t_result (hybrid_processor.traditional_result r))
        /\ hybrid_processor.h_stigma_categories r
           = stigma_classifier.stigma_categories
               (hybrid_processor.t_result (hybrid_processor.traditional_result r))
        /\ hybrid_processor.h_changes_made r
           = hybrid_processor.TraditionalChanges
               (stigma_classifier.changes_made
                  (hybrid_processor.t_result (hybrid_processor.traditional_result r)))
        /\ hybrid_processor.h_num_changes r
           = stigma_classifier.num_changes
               (hybrid_processor.t_result (hybrid_processor.traditional_result r))).
Proof.
  intros Hcl.
  unfold hybrid_processor._process_hybrid, hybrid_processor._process_bert.
  rewrite Hcl. simpl.
  eexists. eexists. split; [reflexivity|]. split; [reflexivity|].
  unfold hybrid_processor.with_primary. simpl.
  destruct (stigma_classifier.num_changes _ <? bert_enhanced_classifier.num_changes _) eqn:E;
    simpl.
  - apply Nat.ltb_lt in E.
    split; [reflexivity|]. split; [reflexivity|].
    split; [intros _; now repeat split | intros H; lia].
  - apply Nat.ltb_ge in E.
    split; [reflexivity|]. split; [reflexivity|].
    split; [intros H; lia | intros _; now repeat split].
Qed.

Lemma hybrid_selects_larger_change_count_witness :
  exists r b,
    hybrid_processor._process_hybrid Examples.processor_firm Examples.note_two = Ok r
    /\ hybrid_processor._process_bert Examples.processor_firm Examples.note_two = Ok b
    /\ hybrid_processor.bert_result r = Some b
    /\ hybrid_processor.primary_method r = PyStr.py "traditional".
Proof.
  destruct (hybrid_selects_larger_change_count Examples.processor_firm
              Examples.classifier_firm Examples.note_two eq_refl)
    as (r & b & Hr & Hb & _ & Hbr & _ & Htrad).
  exists r, b. repeat split; try assumption.
  apply Htrad.
  vm_compute in Hr. injection Hr as <-.
  vm_compute in Hb. injection Hb as <-.
  vm_compute. apply Nat.le_0_l.
Defined.

(** ** Batch processing *)

Lemma comprehension_ok {A B : Type} (f : A -> result B) (l : list A) (rs : list B) :
  comprehension f l = Ok rs <-> Forall2 (fun x r => f x = Ok r) l rs.
Proof.
  revert rs. induction l as [|x l IH]; intros rs; simpl.
  - split.
    + intros H. injection H as <-. constructor.
    + intros H. inversion H. reflexivity.
  - destruct (f x) as [y|e] eqn:Ex; simpl.
    + destruct (comprehension f l) as [ys|e] eqn:El; simpl.
      * split.
        -- intros H. injection H as <-. constructor; [exact Ex | now apply IH].
        -- intros H. inversion H as [|? r ? rs' Hr Hrs]; subst.
           rewrite Ex in Hr. injection Hr as <-.
           apply IH in Hrs. injection Hrs as <-. reflexivity.
      * split; [discriminate|].
        intros H. inversion H as [|? r ? rs' Hr Hrs]; subst.
        apply IH in Hrs. discriminate.
    + split; [discriminate|].
      intros H. inversion H as [|? r ? rs' Hr Hrs]; subst.
      rewrite Ex in Hr. discriminate.
Qed.

Lemma comprehension_raise {A B : Type} (f : A -> result B) (l : list A) :
  (exists e, comprehension f l = Raise e) <->
  (exists x e, In x l /\ f x = Raise e).
Proof.
  induction l as [|x l IH]; simpl.
  - split; [intros [e H]; discriminate | intros (x & e & [] & _)].
  - destruct (f x) as [y|e] eqn:Ex; simpl.
    + destruct (comprehension f l) as [ys|e] eqn:El; simpl.
      * split; [intros [e H]; discriminate|].
        intros (x' & e & [<- | Hin] & Hx'); [congruence|].
        assert (H : exists e', Ok ys = @Raise (list B) e')
          by (apply IH; now exists x', e).
        destruct H as [e' H]. discriminate.
      * split; [|intros _; now exists e].
        intros _. destruct (proj1 IH) as (x' & e' & Hin & Hx'); [now exists e|].
        exists x', e'. split; [now right | exact Hx'].
    + split; [|intros _; now exists e].
      intros _. exists x, e. split; [now left | exact Ex].
Qed.

(** C1 (as amended): [batch_process] returns a list of results exactly when
    every item of the batch is processed without error, and then it holds
    one result per item, in order (so for a batch of texts, the result of
    each text); an error raised for any item is not captured: it leaves
    [batch_process], and no result of the batch is returned. *)
Theorem batch_process_all_or_nothing (keywords : keyword_dict) (texts : list pyval) :
  (forall results,
      stigma_classifier.batch_process keywords texts = Ok results <->
      Forall2 (fun v r => stigma_classifier.call_process_note keywords v = Ok r)
        texts results)
  /\ ((exists e, stigma_classifier.batch_process keywords texts = Raise e) <->
      (exists v e, In v texts
                   /\ stigma_classifier.call_process_note keywords v = Raise e))
  /\ (forall strs,
        texts = map PyStr strs ->
        stigma_classifier.batch_process keywords texts
        = Ok (map (stigma_classifier.process_note keywords) strs)).
Proof.
  unfold stigma_classifier.batch_process.
  split; [|split].
  - intros results. apply comprehension_ok.
  - apply comprehension_raise.
  - intros strs ->. apply comprehension_ok.
    induction strs as [|s strs IH]; simpl; constructor; [reflexivity | exact IH].
Qed.

(** C1 (as stated) fails: in a batch whose second item is a number, the
    first and third items are texts that process without error, and the
    batch returns no result at all: the error of the second item leaves
    [batch_process]. *)
Lemma batch_aborts_on_one_failure :
  stigma_classifier.call_process_note Examples.keywords (PyStr Examples.note_adamant)
  = Ok (stigma_classifier.process_note Examples.keywords Examples.note_adamant)
  /\ stigma_classifier.call_process_note Examples.keywords (PyStr Examples.note_clean)
     = Ok (stigma_classifier.process_note Examples.keywords Examples.note_clean)
  /\ stigma_classifier.batch_process Examples.keywords Examples.batch_mixed
     = Raise AttributeError.
Proof.
  split; [reflexivity|]. split; [reflexivity|].
  vm_compute. reflexivity.
Qed.

(** A category without keywords compiles to a pattern with one empty
    alternative, which matches at every word boundary: this is why
    [clean_text_unchanged] takes a populated catalog. *)
Lemma empty_category_matches_boundaries :
  Re.finditer [] (PyStr.py "hi") = [(0, 0); (2, 2)]
  /\ stigma_classifier.r_has_stigma
       (stigma_classifier.process_note [(PyStr.py "none", [])] (PyStr.py "hi")) = true.
Proof. split; reflexivity. Qed.

(** The scenarios of the specification on the sample catalog. *)
Lemma scenario_adamant :
  stigma_classifier.rewritten_text
    (stigma_classifier.process_note Examples.keywords Examples.note_adamant)
  = PyStr.py "Patient was firm about symptoms."
  /\ stigma_classifier.num_changes
       (stigma_classifier.process_note Examples.keywords Examples.note_adamant) = 1.
Proof. split; vm_compute; reflexivity. Qed.

Lemma scenario_two_changes :
  stigma_classifier.rewritten_text
    (stigma_classifier.process_note Examples.keywords Examples.note_two)
  = PyStr.py "Patient declined treatment and was confrontational."
  /\ stigma_classifier.num_changes
       (stigma_classifier.process_note Examples.keywords Examples.note_two) = 2.
Proof. split; vm_compute; reflexivity. Qed.

(** ** Extent, order and meaning of the matches *)

Lemma prefix_ci_length (w s : PyStr.pystr) :
  Re.prefix_ci w s = true -> length w <= length s.
Proof.
  revert s. induction w as [|x w IH]; intros [|y s] H; simpl in *;
    try discriminate; try lia.
  apply andb_true_iff in H as [_ H]. apply IH in H. lia.
Qed.

Lemma prefix_ci_lower (w s : PyStr.pystr) :
  Re.prefix_ci w s = true ->
  PyStr.lower (firstn (length w) s) = PyStr.lower w.
Proof.
  revert s. induction w as [|x w IH]; intros [|y s] H; simpl in *;
    try discriminate; try reflexivity.
  apply andb_true_iff in H as [Hxy H].
  apply Ascii.eqb_eq in Hxy. rewrite Hxy. f_equal. now apply IH.
Qed.

Lemma first_alt_some (text : PyStr.pystr) (i : nat) (must_advance : bool)
    (alts : list PyStr.pystr) (e : nat) :
  Re.first_alt text i must_advance alts = Some e ->
  exists w, In w alts /\ e = i + length w
            /\ Re.prefix_ci w (skipn i text) = true
            /\ Re.word_boundary text e = true
            /\ (must_advance = true -> i < e).
Proof.
  induction alts as [|w alts IH]; simpl; [discriminate|].
  destruct (Re.prefix_ci w (skipn i text) && Re.word_boundary text (i + length w)
            && negb (must_advance && (length w =? 0))) eqn:E.
  - intros H. injection H as <-.
    apply andb_true_iff in E as [E Hadv]. apply andb_true_iff in E as [Hp Hb].
    exists w. repeat split; try assumption; [now left|].
    intros ->. simpl in Hadv. apply negb_true_iff, Nat.eqb_neq in Hadv. lia.
  - intros H. destruct (IH H) as (w' & Hin & Hrest).
    exists w'. split; [now right | exact Hrest].
Qed.

Lemma match_at_some (text : PyStr.pystr) (alts : list PyStr.pystr) (i : nat)
    (must_advance : bool) (e : nat) :
  Re.match_at text alts i must_advance = Some e ->
  exists w, In w alts /\ e = i + length w /\ Spec.occurs_at text w i
            /\ (must_advance = true -> i < e).
Proof.
  unfold Re.match_at. destruct (Re.word_boundary text i) eqn:B; [|discriminate].
  intros H. apply first_alt_some in H as (w & Hin & -> & Hp & Hb & Hadv).
  exists w. repeat split; assumption.
Qed.

(** An occurrence lies inside the text. *)
Lemma occurs_at_bounds (text w : PyStr.pystr) (i : nat) :
  Spec.occurs_at text w i -> i + length w <= length text.
Proof.
  intros (Hb & Hp & _).
  apply word_boundary_range in Hb. apply prefix_ci_length in Hp.
  rewrite length_skipn in Hp. lia.
Qed.

(** The text of an occurrence is the keyword, letter case ignored. *)
Lemma occurs_at_lower (text w : PyStr.pystr) (i : nat) :
  Spec.occurs_at text w i ->
  PyStr.lower (PyStr.slice text i (i + length w)) = PyStr.lower w.
Proof.
  intros (_ & Hp & _). unfold PyStr.slice.
  replace (i + length w - i) with (length w) by lia.
  now apply prefix_ci_lower.
Qed.

Ltac scan_case w :=
  exists w; split; [assumption|]; split; [simpl; lia|];
  split; [assumption|]; simpl; split; lia.

(** Every span of the scan is an occurrence of an alternative, at or after
    the offset the scan stands at and the end of the previous match. *)
Lemma scan_sound (text : PyStr.pystr) (alts : list PyStr.pystr)
    (n i resume : nat) (span : nat * nat) :
  In span (Re.scan text alts n i resume) ->
  exists w, In w alts /\ snd span = fst span + length w
            /\ Spec.occurs_at text w (fst span)
            /\ i <= fst span /\ resume <= fst span.
Proof.
  revert i resume. induction n as [|n IH]; intros i resume; simpl; [intros []|].
  destruct (i <? resume) eqn:L.
  - intros H. apply IH in H as (w & ? & ? & ? & ? & ?). scan_case w.
  - apply Nat.ltb_ge in L.
    destruct (Re.match_at text alts i false) as [e|] eqn:M.
    + apply match_at_some in M as (w & Hw & -> & Hocc & _).
      destruct (i + length w =? i) eqn:Z.
      * apply Nat.eqb_eq in Z.
        destruct (Re.match_at text alts i true) as [e'|] eqn:M'.
        -- apply match_at_some in M' as (w' & Hw' & -> & Hocc' & Hadv).
           intros [<- | [<- | H]].
           ++ scan_case w.
           ++ scan_case w'.
           ++ apply IH in H as (w'' & ? & ? & ? & ? & ?). scan_case w''.
        -- intros [<- | H].
           ++ scan_case w.
           ++ apply IH in H as (w'' & ? & ? & ? & ? & ?). scan_case w''.
      * apply Nat.eqb_neq in Z. intros [<- | H].
        -- scan_case w.
        -- apply IH in H as (w'' & ? & ? & ? & ? & ?). scan_case w''.
    + intros H. apply IH in H as (w & ? & ? & ? & ? & ?). scan_case w.
Qed.

(** The spans of one pattern come in text order and do not overlap. *)
Lemma scan_ordered (text : PyStr.pystr) (alts : list PyStr.pystr) (n i resume : nat) :
  StronglySorted (fun a b : nat * nat => snd a <= fst b)
    (Re.scan text alts n i resume).
Proof.
  revert i resume. induction n as [|n IH]; intros i resume; simpl; [constructor|].
  destruct (i <? resume); [apply IH|].
  destruct (Re.match_at text alts i false) as [e|] eqn:M; [|apply IH].
  destruct (e =? i) eqn:Z.
  - apply Nat.eqb_eq in Z. subst e.
    destruct (Re.match_at text alts i true) as [e'|] eqn:M'.
    + constructor; [constructor; [apply IH|]|].
      * apply Forall_forall. intros span H.
        apply scan_sound in H as (_ & _ & _ & _ & _ & H). exact H.
      * constructor; [simpl; lia|].
        apply Forall_forall. intros span H.
        apply scan_sound in H as (_ & _ & _ & _ & H & _). simpl. lia.
    + constructor; [apply IH|].
      apply Forall_forall. intros span H.
      apply scan_sound in H as (_ & _ & _ & _ & H & _). simpl. lia.
  - constructor; [apply IH|].
    apply Forall_forall. intros span H.
    apply scan_sound in H as (_ & _ & _ & _ & _ & H). exact H.
Qed.

(** A scan that yields nothing saw no match at any offset it visited. *)
Lemma scan_nil_inv (text : PyStr.pystr) (alts : list PyStr.pystr)
    (n i resume j : nat) :
  Re.scan text alts n i resume = [] ->
  i <= j -> resume <= j -> j < i + n ->
  Re.match_at text alts j false = None.
Proof.
  revert i resume. induction n as [|n IH]; intros i resume H Hi Hr Hj; [lia|].
  simpl in H. destruct (i <? resume) eqn:L.
  - apply Nat.ltb_lt in L. apply (IH (S i) resume); [exact H | lia | lia | lia].
  - destruct (Re.match_at text alts i false) as [e|] eqn:M.
    + destruct (e =? i); [|discriminate].
      destruct (Re.match_at text alts i true); discriminate.
    + destruct (Nat.eq_dec j i) as [-> | Hne]; [exact M|].
      apply (IH (S i) resume); [exact H | lia | lia | lia].
Qed.

(** Where an alternative occurs, the pattern matches. *)
Lemma match_at_complete (text : PyStr.pystr) (alts : list PyStr.pystr)
    (w : PyStr.pystr) (i : nat) :
  In w alts -> Spec.occurs_at text w i ->
  Re.match_at text alts i false <> None.
Proof.
  intros Hin (Hb & Hp & He). unfold Re.match_at. rewrite Hb.
  induction alts as [|w' alts IH]; [contradiction|].
  simpl. rewrite andb_true_r.
  destruct (Re.prefix_ci w' (skipn i text) && Re.word_boundary text (i + length w')) eqn:E;
    [discriminate|].
  destruct Hin as [-> | Hin]; [|now apply IH].
  rewrite Hp, He in E. discriminate.
Qed.

Lemma alternatives_populated (ws : list PyStr.pystr) :
  ws <> [] -> Re.alternatives ws = ws.
Proof. destruct ws; [congruence | reflexivity]. Qed.

Lemma detect_stigma_entry (keywords : keyword_dict) (text : PyStr.pystr)
    (m : stigma_classifier.StigmaMatch) :
  In m (stigma_classifier.detect_stigma keywords text) <->
  exists ws, In (stigma_classifier.category m, ws) keywords
             /\ In (stigma_classifier.start_pos m, stigma_classifier.end_pos m)
                   (Re.finditer ws text)
             /\ m = stigma_classifier.mkStigmaMatch
                      (PyStr.slice text (stigma_classifier.start_pos m)
                         (stigma_classifier.end_pos m))
                      (stigma_classifier.start_pos m) (stigma_classifier.end_pos m)
                      (stigma_classifier.category m) 1%Q
                      (PyStr.slice text (stigma_classifier.start_pos m - 50)
                         (Nat.min (length text) (stigma_classifier.end_pos m + 50))).
Proof.
  unfold stigma_classifier.detect_stigma. rewrite in_flat_map. split.
  - intros [[cat ws] [Hin H]]. apply in_map_iff in H as [[s e] [<- Hspan]].
    simpl. now exists ws.
  - intros (ws & Hin & Hspan & Hm). exists (stigma_classifier.category m, ws).
    split; [exact Hin|]. apply in_map_iff.
    exists (stigma_classifier.start_pos m, stigma_classifier.end_pos m).
    split; [now rewrite <- Hm | exact Hspan].
Qed.

(** The occurrence behind a detected match. *)
Lemma detect_stigma_occurrence (keywords : keyword_dict) (text : PyStr.pystr)
    (m : stigma_classifier.StigmaMatch) :
  In m (stigma_classifier.detect_stigma keywords text) ->
  exists ws w,
    In (stigma_classifier.category m, ws) keywords
    /\ In w (Re.alternatives ws)
    /\ Spec.occurs_at text w (stigma_classifier.start_pos m)
    /\ stigma_classifier.end_pos m = stigma_classifier.start_pos m + length w.
Proof.
  intros Hm. apply detect_stigma_entry in Hm as (ws & Hin & Hspan & _).
  unfold Re.finditer in Hspan.
  apply scan_sound in Hspan as (w & Hw & He & Hocc & _). simpl in He, Hocc.
  now exists ws, w.
Qed.

(** A detected match spans its recorded text and lies inside the text. *)
Lemma detect_stigma_extent (keywords : keyword_dict) (text : PyStr.pystr)
    (m : stigma_classifier.StigmaMatch) :
  In m (stigma_classifier.detect_stigma keywords text) ->
  stigma_classifier.end_pos m
  = stigma_classifier.start_pos m + length (stigma_classifier.original_text m)
  /\ stigma_classifier.end_pos m <= length text.
Proof.
  intros Hm. pose proof (detect_stigma_match _ _ _ Hm) as [Horig _].
  apply detect_stigma_occurrence in Hm as (ws & w & _ & _ & Hocc & He).
  pose proof (occurs_at_bounds _ _ _ Hocc) as Hbd.
  rewrite Horig. unfold PyStr.slice.
  rewrite length_firstn, length_skipn. lia.
Qed.

(** X1: every detected match is a whole-word occurrence, letter case
    ignored, of an alternative of its category's pattern; it lies inside the
    text, and its recorded text is that keyword up to letter case. *)
Theorem detect_stigma_sound (keywords : keyword_dict) (text : PyStr.pystr)
    (m : stigma_classifier.StigmaMatch) :
  In m (stigma_classifier.detect_stigma keywords text) ->
  exists ws w,
    In (stigma_classifier.category m, ws) keywords
    /\ In w (Re.alternatives ws)
    /\ Spec.occurs_at text w (stigma_classifier.start_pos m)
    /\ stigma_classifier.end_pos m = stigma_classifier.start_pos m + length w
    /\ stigma_classifier.end_pos m <= length text
    /\ length (stigma_classifier.original_text m) = length w
    /\ PyStr.lower (stigma_classifier.original_text m) = PyStr.lower w.
Proof.
  intros Hm. pose proof (detect_stigma_match _ _ _ Hm) as [Horig _].
  pose proof (detect_stigma_extent _ _ _ Hm) as [Hext Hbd].
  apply detect_stigma_occurrence in Hm as (ws & w & Hin & Hw & Hocc & He).
  exists ws, w. split; [exact Hin|]. split; [exact Hw|]. split; [exact Hocc|].
  split; [exact He|]. split; [exact Hbd|]. split; [lia|].
  rewrite Horig, He. now apply occurs_at_lower.
Qed.

Lemma detect_stigma_sound_witness :
  In Examples.match_rule
     (stigma_classifier.detect_stigma Examples.keywords Examples.note_adamant)
  /\ exists ws w,
       In (stigma_classifier.category Examples.match_rule, ws) Examples.keywords
       /\ In w (Re.alternatives ws)
       /\ Spec.occurs_at Examples.note_adamant w
            (stigma_classifier.start_pos Examples.match_rule)
       /\ stigma_classifier.end_pos Examples.match_rule
          = stigma_classifier.start_pos Examples.match_rule + length w
       /\ stigma_classifier.end_pos Examples.match_rule <= length Examples.note_adamant
       /\ length (stigma_classifier.original_text Examples.match_rule) = length w
       /\ PyStr.lower (stigma_classifier.original_text Examples.match_rule)
          = PyStr.lower w.
Proof.
  assert (H : In Examples.match_rule
                (stigma_classifier.detect_stigma Examples.keywords
                   Examples.note_adamant))
    by (vm_compute; left; reflexivity).
  split; [exact H|].
  exact (detect_stigma_sound Examples.keywords Examples.note_adamant
           Examples.match_rule H).
Defined.

(** X2: the matches of one category come in text order and do not overlap:
    each match ends at or before the start of the next. *)
Theorem category_matches_ordered (cat : PyStr.pystr) (ws : list PyStr.pystr)
    (text : PyStr.pystr) :
  StronglySorted
    (fun a b => stigma_classifier.end_pos a <= stigma_classifier.start_pos b)
    (stigma_classifier.detect_stigma [(cat, ws)] text)
  /\ Forall (fun m => stigma_classifier.start_pos m <= stigma_classifier.end_pos m
                      /\ stigma_classifier.end_pos m <= length text)
       (stigma_classifier.detect_stigma [(cat, ws)] text).
Proof.
  split.
  - unfold stigma_classifier.detect_stigma. simpl. rewrite app_nil_r.
    unfold Re.finditer.
    generalize (scan_ordered text (Re.alternatives ws) (S (length text)) 0 0).
    generalize (Re.scan text (Re.alternatives ws) (S (length text)) 0 0).
    intros l. induction 1 as [|[s e] l Hs IH Hall]; simpl; constructor.
    + exact IH.
    + apply Forall_forall. intros m Hm. apply in_map_iff in Hm as [[s' e'] [<- Hin]].
      simpl. rewrite Forall_forall in Hall. exact (Hall _ Hin).
  - apply Forall_forall. intros m Hm.
    apply detect_stigma_extent in Hm as [He Hbd]. lia.
Qed.

(** X3: with a populated catalog, [has_stigma] answers true exactly for the
    texts in which a catalog keyword stands as a whole word, letter case
    ignored. *)
Theorem has_stigma_iff_keyword (keywords : keyword_dict) (text : PyStr.pystr) :
  Spec.populated keywords ->
  (stigma_classifier.has_stigma keywords text = true <->
   Spec.contains_catalog_keyword keywords text).
Proof.
  intros Hpop. unfold stigma_classifier.has_stigma. rewrite Nat.ltb_lt. split.
  - intros Hlen.
    destruct (stigma_classifier.detect_stigma keywords text) as [|m l] eqn:E;
      [simpl in Hlen; lia|].
    assert (Hm : In m (stigma_classifier.detect_stigma keywords text))
      by (rewrite E; now left).
    apply detect_stigma_occurrence in Hm as (ws & w & Hin & Hw & Hocc & _).
    rewrite (alternatives_populated ws (Hpop _ _ Hin)) in Hw.
    now exists (stigma_classifier.category m), ws, w, (stigma_classifier.start_pos m).
  - intros (cat & ws & w & i & Hin & Hw & Hocc).
    destruct (stigma_classifier.detect_stigma keywords text) as [|m l] eqn:E;
      [|simpl; lia].
    exfalso.
    assert (Hnil : Re.finditer ws text = []).
    { destruct (Re.finditer ws text) as [|[s e] spans] eqn:F; [reflexivity|].
      assert (Hm : In (stigma_classifier.mkStigmaMatch (PyStr.slice text s e) s e cat 1%Q
                         (PyStr.slice text (s - 50) (Nat.min (length text) (e + 50))))
                      (stigma_classifier.detect_stigma keywords text)).
      { apply detect_stigma_entry. exists ws. simpl.
        split; [exact Hin|]. split; [rewrite F; now left | reflexivity]. }
      rewrite E in Hm. contradiction. }
    unfold Re.finditer in Hnil.
    pose proof (occurs_at_bounds _ _ _ Hocc) as Hbd.
    apply (scan_nil_inv _ _ _ _ _ i) in Hnil; try lia.
    apply (match_at_complete text (Re.alternatives ws) w i); try assumption.
    now rewrite (alternatives_populated ws (Hpop _ _ Hin)).
Qed.

Lemma has_stigma_iff_keyword_witness :
  stigma_classifier.has_stigma Examples.keywords Examples.note_two = true <->
  Spec.contains_catalog_keyword Examples.keywords Examples.note_two.
Proof.
  exact (has_stigma_iff_keyword Examples.keywords Examples.note_two
           keywords_populated).
Defined.

(** ** The rewritten text *)

Lemma firstn_add {A : Type} (a b : nat) (l : list A) :
  firstn (a + b) l = firstn a l ++ firstn b (skipn a l).
Proof.
  revert l. induction a as [|a IH]; intros l; [reflexivity|].
  destruct l as [|x l]; simpl; [now rewrite firstn_nil | now rewrite IH].
Qed.

Lemma slice_split (text : PyStr.pystr) (a b c : nat) :
  a <= b -> b <= c ->
  PyStr.slice text a c = PyStr.slice text a b ++ PyStr.slice text b c.
Proof.
  intros Hab Hbc. unfold PyStr.slice.
  replace (c - a) with ((b - a) + (c - b)) by lia.
  rewrite firstn_add, skipn_skipn.
  now replace (b - a + a) with b by lia.
Qed.

Lemma skipn_slice (text : PyStr.pystr) (a b : nat) :
  a <= b -> skipn a text = PyStr.slice text a b ++ skipn b text.
Proof.
  intros Hab. unfold PyStr.slice.
  replace (skipn b text) with (skipn (b - a) (skipn a text)).
  - now rewrite firstn_skipn.
  - rewrite skipn_skipn. now replace (b - a + a) with b by lia.
Qed.

Lemma map_flat_map {A B C : Type} (f : B -> C) (g : A -> list B) (l : list A) :
  map f (flat_map g l) = flat_map (fun x => map f (g x)) l.
Proof.
  induction l as [|x l IH]; simpl; [reflexivity|].
  now rewrite map_app, IH.
Qed.

Lemma apply_edit_eq (t : PyStr.pystr) (s e : nat) (r : PyStr.pystr) :
  Spec.apply_edit t (s, e, r) = firstn s t ++ r ++ skipn e t.
Proof. reflexivity. Qed.

(** [flat_map_sorted] with the elements known to come from the list. *)
Lemma flat_map_sorted_in {A B : Type} (R : A -> A -> Prop) (R' : B -> B -> Prop)
    (f : A -> list B) (l : list A) :
  (forall a, f a = [] \/ exists b, f a = [b]) ->
  (forall a a' b b', In a l -> In a' l -> R a a' -> In b (f a) -> In b' (f a') ->
                     R' b b') ->
  StronglySorted R l -> StronglySorted R' (flat_map f l).
Proof.
  intros Hsmall Hrel Hs. induction Hs as [|a l Hs IH Hall]; simpl; [constructor|].
  assert (IH' : StronglySorted R' (flat_map f l)).
  { apply IH. intros x x' b b' Hx Hx'. apply Hrel; now right. }
  destruct (Hsmall a) as [E | [b E]]; rewrite E; [exact IH'|].
  simpl. constructor; [exact IH'|].
  apply Forall_forall. intros b' Hb'.
  apply in_flat_map in Hb' as [a' [Ha' Hb']].
  rewrite Forall_forall in Hall.
  apply (Hrel a a' b b'); [now left | now right | now apply Hall
                          | rewrite E; now left | exact Hb'].
Qed.

Section Splice.
Variable text : PyStr.pystr.

(** Moving the start of a rebuild back over text that no edit touches. *)
Lemma rebuild_shift (a b : nat) (edits : list Spec.edit) :
  a <= b ->
  match edits with
  | [] => True
  | (s, _, _) :: _ => b <= s
  end ->
  Spec.rebuild text a edits = PyStr.slice text a b ++ Spec.rebuild text b edits.
Proof.
  intros Hab Hhd. destruct edits as [|[[s e] r] rest]; simpl.
  - now apply skipn_slice.
  - rewrite (slice_split text a b s Hab Hhd). now rewrite <- app_assoc.
Qed.

(** Edits carried out from the highest offset down, none reaching into the
    one before it, give the side-by-side rebuild: [done] holds the edits
    already carried out, in ascending order, all at or after offset [p]. *)
Lemma splice_descending (edits done : list Spec.edit) (p : nat) :
  p <= length text ->
  match done with
  | [] => True
  | (s, _, _) :: _ => p <= s
  end ->
  Forall (fun ed : Spec.edit => fst (fst ed) <= snd (fst ed) /\ snd (fst ed) <= p) edits ->
  StronglySorted (fun a b : Spec.edit => snd (fst b) <= fst (fst a)) edits ->
  fold_left Spec.apply_edit edits (firstn p text ++ Spec.rebuild text p done)
  = Spec.rebuild text 0 (rev edits ++ done).
Proof.
  revert done p. induction edits as [|[[s e] r] edits IH]; intros done p Hp Hhd Hall Hsorted.
  - simpl. rewrite (rebuild_shift 0 p done) by (try lia; exact Hhd).
    unfold PyStr.slice. now rewrite Nat.sub_0_r.
  - inversion Hall as [|? ? [Hse Hep] Hall']. inversion Hsorted as [|? ? Hs' Hlater].
    subst. simpl in Hse, Hep. cbn [fold_left]. rewrite apply_edit_eq.
    assert (Hlen : length (firstn p text) = p) by (rewrite length_firstn; lia).
    assert (Hpre : firstn s (firstn p text ++ Spec.rebuild text p done) = firstn s text).
    { rewrite firstn_app, Hlen. replace (s - p) with 0 by lia.
      rewrite firstn_O, app_nil_r, firstn_firstn. now replace (Nat.min s p) with s by lia. }
    assert (Hpost : skipn e (firstn p text ++ Spec.rebuild text p done)
                    = Spec.rebuild text e done).
    { rewrite skipn_app, Hlen. replace (e - p) with 0 by lia. simpl.
      rewrite skipn_firstn_comm.
      now rewrite (rebuild_shift e p done Hep Hhd). }
    rewrite Hpre, Hpost.
    replace (firstn s text ++ r ++ Spec.rebuild text e done)
      with (firstn s text ++ Spec.rebuild text s ((s, e, r) :: done)).
    + rewrite IH; simpl; try lia.
      * now rewrite <- app_assoc.
      * apply Forall_forall. intros [[s' e'] r'] Hin. simpl.
        rewrite Forall_forall in Hall', Hlater.
        specialize (Hall' _ Hin). specialize (Hlater _ Hin). simpl in *. lia.
      * exact Hs'.
    + simpl. unfold PyStr.slice. now rewrite Nat.sub_diag.
Qed.

Lemma splice_all (edits : list Spec.edit) :
  Forall (fun ed : Spec.edit => fst (fst ed) <= snd (fst ed)
                                /\ snd (fst ed) <= length text) edits ->
  StronglySorted (fun a b : Spec.edit => snd (fst b) <= fst (fst a)) edits ->
  fold_left Spec.apply_edit edits text = Spec.rebuild text 0 (rev edits).
Proof.
  intros Hall Hsorted.
  pose proof (splice_descending edits [] (length text) (le_n _) I Hall Hsorted) as H.
  simpl in H. rewrite firstn_all, skipn_all, !app_nil_r in H. exact H.
Qed.
End Splice.

Lemma rule_loop_text (ms : list stigma_classifier.StigmaMatch)
    (t : PyStr.pystr) (cs : list stigma_classifier.Change) :
  Forall (fun m => stigma_classifier.end_pos m
                   = stigma_classifier.start_pos m
                     + length (stigma_classifier.original_text m)) ms ->
  fst (fold_left stigma_classifier.rewrite_step ms (t, cs))
  = fold_left Spec.apply_edit (map Spec.rule_edit (flat_map Spec.rule_change ms)) t.
Proof.
  intros Hall. revert t cs.
  induction Hall as [|m ms Hm Hall IH]; intros t cs; [reflexivity|].
  simpl. unfold Spec.rule_change.
  destruct (negb _); simpl; rewrite IH; [|reflexivity].
  unfold Spec.rule_edit. simpl. now rewrite <- Hm.
Qed.

Lemma bert_loop_text (text : PyStr.pystr)
    (ms : list bert_enhanced_classifier.BERTStigmaMatch)
    (t : PyStr.pystr) (cs : list bert_enhanced_classifier.Change) :
  Forall (fun m => bert_enhanced_classifier.end_pos m
                   = bert_enhanced_classifier.start_pos m
                     + length (bert_enhanced_classifier.original_text m)) ms ->
  fst (fold_left (bert_enhanced_classifier.rewrite_step text) ms (t, cs))
  = fold_left Spec.apply_edit
      (map Spec.bert_edit (flat_map (Spec.bert_change text) ms)) t.
Proof.
  intros Hall. revert t cs.
  induction Hall as [|m ms Hm Hall IH]; intros t cs; [reflexivity|].
  simpl. unfold Spec.bert_change.
  destruct (bert_enhanced_classifier.bert_alternatives m) as [|[best score] rest];
    [apply IH|].
  destruct (bert_enhanced_classifier._is_appropriate_replacement _ _ _ _ _ _);
    simpl; rewrite IH; [|reflexivity].
  unfold Spec.bert_edit. simpl. now rewrite <- Hm.
Qed.

(** X4: when no match reaches into the match applied before it, the text
    returned by the rule-based rewrite is the input text with the recorded
    changes carried out side by side: every recorded original is replaced by
    its replacement where it stands, and everything else is copied. *)
Theorem rewrite_text_rebuilds (keywords : keyword_dict) (text : PyStr.pystr) :
  StronglySorted
    (fun a b => stigma_classifier.end_pos b <= stigma_classifier.start_pos a)
    (stigma_classifier.sort_matches (stigma_classifier.detect_stigma keywords text)) ->
  fst (stigma_classifier.rewrite_text keywords text)
  = Spec.rebuild text 0
      (rev (map Spec.rule_edit (snd (stigma_classifier.rewrite_text keywords text)))).
Proof.
  intros Hdisj. rewrite rewrite_text_changes.
  unfold stigma_classifier.rewrite_text.
  set (ms := stigma_classifier.sort_matches
               (stigma_classifier.detect_stigma keywords text)) in *.
  assert (Hms : forall m, In m ms ->
            stigma_classifier.end_pos m
            = stigma_classifier.start_pos m + length (stigma_classifier.original_text m)
            /\ stigma_classifier.end_pos m <= length text).
  { intros m Hm. apply sort_desc_In in Hm. now apply detect_stigma_extent in Hm. }
  rewrite rule_loop_text by (apply Forall_forall; intros m Hm; now apply Hms).
  rewrite map_flat_map. apply splice_all.
  - apply Forall_forall. intros ed Hed.
    apply in_flat_map in Hed as [m [Hm Hed]]. destruct (Hms m Hm) as [He Hbd].
    unfold Spec.rule_change in Hed. destruct (negb _); [|contradiction].
    destruct Hed as [<- | []]. unfold Spec.rule_edit. simpl. lia.
  - apply (flat_map_sorted_in
             (fun a b => stigma_classifier.end_pos b <= stigma_classifier.start_pos a));
      [| |exact Hdisj].
    + intros m. unfold Spec.rule_change. destruct (negb _); simpl; eauto.
    + intros m m' ed ed' Hm Hm' Hle Hed Hed'.
      destruct (Hms m' Hm') as [He' _].
      apply in_map_iff in Hed as [c [<- Hc]]. apply in_map_iff in Hed' as [c' [<- Hc']].
      unfold Spec.rule_change in Hc, Hc'.
      destruct (negb _); [|contradiction]. destruct Hc as [<- | []].
      destruct (negb _); [|contradiction]. destruct Hc' as [<- | []].
      unfold Spec.rule_edit. simpl. lia.
Qed.

Lemma rewrite_text_rebuilds_witness :
  fst (stigma_classifier.rewrite_text Examples.keywords Examples.note_two)
  = Spec.rebuild Examples.note_two 0
      (rev (map Spec.rule_edit
              (snd (stigma_classifier.rewrite_text Examples.keywords Examples.note_two)))).
Proof.
  apply (rewrite_text_rebuilds Examples.keywords Examples.note_two).
  vm_compute. repeat constructor.
Defined.

(** ** The two pipelines on one catalog *)

(** The matches of the two detections, field by field. *)
Lemma detect_alike (cl : bert_enhanced_classifier.BERTEnhancedClassifier)
    (text : PyStr.pystr) :
  map (fun m => (bert_enhanced_classifier.original_text m,
                 bert_enhanced_classifier.start_pos m,
                 bert_enhanced_classifier.end_pos m,
                 bert_enhanced_classifier.category m,
                 bert_enhanced_classifier.context m))
      (bert_enhanced_classifier.detect_stigma_with_bert cl text)
  = map (fun m => (stigma_classifier.original_text m,
                   stigma_classifier.start_pos m,
                   stigma_classifier.end_pos m,
                   stigma_classifier.category m,
                   stigma_classifier.context m))
        (stigma_classifier.detect_stigma
           (bert_enhanced_classifier.keyword_dict_of cl) text).
Proof.
  unfold bert_enhanced_classifier.detect_stigma_with_bert,
    stigma_classifier.detect_stigma.
  induction (bert_enhanced_classifier.keyword_dict_of cl) as [|[cat ws] kw IH];
    [reflexivity|].
  simpl. rewrite !map_app, IH. f_equal.
  rewrite !map_map. apply map_ext. now intros [s e].
Qed.

(** Stigma flag and categories of the two results. *)
Lemma detect_alike_results (cl : bert_enhanced_classifier.BERTEnhancedClassifier)
    (text : PyStr.pystr) :
  bert_enhanced_classifier.r_has_stigma
    (bert_enhanced_classifier.process_note cl text)
  = stigma_classifier.r_has_stigma
      (stigma_classifier.process_note
         (bert_enhanced_classifier.keyword_dict_of cl) text)
  /\ bert_enhanced_classifier.stigma_categories
       (bert_enhanced_classifier.process_note cl text)
     = stigma_classifier.stigma_categories
         (stigma_classifier.process_note
            (bert_enhanced_classifier.keyword_dict_of cl) text).
Proof.
  pose proof (detect_alike cl text) as Hmap.
  assert (Hlen : length (bert_enhanced_classifier.detect_stigma_with_bert cl text)
                 = length (stigma_classifier.detect_stigma
                             (bert_enhanced_classifier.keyword_dict_of cl) text)).
  { apply (f_equal (@length _)) in Hmap. now rewrite !length_map in Hmap. }
  assert (Hcat : map bert_enhanced_classifier.category
                   (bert_enhanced_classifier.detect_stigma_with_bert cl text)
                 = map stigma_classifier.category
                     (stigma_classifier.detect_stigma
                        (bert_enhanced_classifier.keyword_dict_of cl) text)).
  { apply (f_equal (map (fun t : PyStr.pystr * nat * nat * PyStr.pystr * PyStr.pystr =>
                           snd (fst t)))) in Hmap.
    now rewrite !map_map in Hmap. }
  unfold bert_enhanced_classifier.process_note, stigma_classifier.process_note,
    stigma_classifier.get_stigma_categories.
  destruct (bert_enhanced_classifier.rewrite_text_with_bert cl text).
  destruct (stigma_classifier.rewrite_text _ text).
  simpl. now rewrite Hlen, Hcat.
Qed.

(** X5: built on the same catalog, the similarity pipeline detects the same
    matches as the rule-based pipeline: the same texts, offsets, categories
    and contexts, in the same order; so both results carry the same stigma
    flag and the same categories. *)
Theorem pipelines_detect_alike
    (cl : bert_enhanced_classifier.BERTEnhancedClassifier) (text : PyStr.pystr) :
  map (fun m => (bert_enhanced_classifier.original_text m,
                 bert_enhanced_classifier.start_pos m,
                 bert_enhanced_classifier.end_pos m,
                 bert_enhanced_classifier.category m,
                 bert_enhanced_classifier.context m))
      (bert_enhanced_classifier.detect_stigma_with_bert cl text)
  = map (fun m => (stigma_classifier.original_text m,
                   stigma_classifier.start_pos m,
                   stigma_classifier.end_pos m,
                   stigma_classifier.category m,
                   stigma_classifier.context m))
        (stigma_classifier.detect_stigma
           (bert_enhanced_classifier.keyword_dict_of cl) text)
  /\ bert_enhanced_classifier.r_has_stigma
       (bert_enhanced_classifier.process_note cl text)
     = stigma_classifier.r_has_stigma
         (stigma_classifier.process_note
            (bert_enhanced_classifier.keyword_dict_of cl) text)
  /\ bert_enhanced_classifier.stigma_categories
       (bert_enhanced_classifier.process_note cl text)
     = stigma_classifier.stigma_categories
         (stigma_classifier.process_note
            (bert_enhanced_classifier.keyword_dict_of cl) text).
Proof.
  split; [apply detect_alike | apply detect_alike_results].
Qed.

(** A match of the similarity pipeline lies inside the text and spans its
    recorded text. *)
Lemma bert_match_extent (cl : bert_enhanced_classifier.BERTEnhancedClassifier)
    (text : PyStr.pystr) (m : bert_enhanced_classifier.BERTStigmaMatch) :
  In m (bert_enhanced_classifier.detect_stigma_with_bert cl text) ->
  bert_enhanced_classifier.end_pos m
  = bert_enhanced_classifier.start_pos m
    + length (bert_enhanced_classifier.original_text m)
  /\ bert_enhanced_classifier.end_pos m <= length text.
Proof.
  intros Hm.
  apply (in_map (fun m => (bert_enhanced_classifier.original_text m,
                           bert_enhanced_classifier.start_pos m,
                           bert_enhanced_classifier.end_pos m,
                           bert_enhanced_classifier.category m,
                           bert_enhanced_classifier.context m))) in Hm.
  rewrite (detect_alike cl text) in Hm.
  apply in_map_iff in Hm as [m' [E Hm']].
  injection E as E1 E2 E3 _ _.
  apply detect_stigma_extent in Hm' as [He Hbd].
  rewrite <- E1, <- E2, <- E3. lia.
Qed.

(** X6: when no match reaches into the match applied before it, the text
    returned by the similarity rewrite is the input text with the recorded
    changes carried out side by side. *)
Theorem rewrite_text_with_bert_rebuilds
    (cl : bert_enhanced_classifier.BERTEnhancedClassifier) (text : PyStr.pystr) :
  StronglySorted
    (fun a b => bert_enhanced_classifier.end_pos b
                <= bert_enhanced_classifier.start_pos a)
    (bert_enhanced_classifier.sort_matches
       (bert_enhanced_classifier.detect_stigma_with_bert cl text)) ->
  fst (bert_enhanced_classifier.rewrite_text_with_bert cl text)
  = Spec.rebuild text 0
      (rev (map Spec.bert_edit
              (snd (bert_enhanced_classifier.rewrite_text_with_bert cl text)))).
Proof.
  intros Hdisj. rewrite rewrite_text_with_bert_changes.
  unfold bert_enhanced_classifier.rewrite_text_with_bert.
  set (ms := bert_enhanced_classifier.sort_matches
               (bert_enhanced_classifier.detect_stigma_with_bert cl text)) in *.
  assert (Hms : forall m, In m ms ->
            bert_enhanced_classifier.end_pos m
            = bert_enhanced_classifier.start_pos m
              + length (bert_enhanced_classifier.original_text m)
            /\ bert_enhanced_classifier.end_pos m <= length text).
  { intros m Hm. apply sort_desc_In in Hm. now apply bert_match_extent in Hm. }
  rewrite bert_loop_text by (apply Forall_forall; intros m Hm; now apply Hms).
  rewrite map_flat_map. apply splice_all.
  - apply Forall_forall. intros ed Hed.
    apply in_flat_map in Hed as [m [Hm Hed]]. destruct (Hms m Hm) as [He Hbd].
    apply in_map_iff in Hed as [c [<- Hc]].
    apply bert_change_inv in Hc as (best & score & rest & _ & _ & ->).
    unfold Spec.bert_edit. simpl. lia.
  - apply (flat_map_sorted_in
             (fun a b => bert_enhanced_classifier.end_pos b
                         <= bert_enhanced_classifier.start_pos a));
      [| |exact Hdisj].
    + intros m. unfold Spec.bert_change.
      destruct (bert_enhanced_classifier.bert_alternatives m) as [|[best score] rest];
        [now left|].
      destruct (bert_enhanced_classifier._is_appropriate_replacement _ _ _ _ _ _);
        simpl; eauto.
    + intros m m' ed ed' Hm Hm' Hle Hed Hed'.
      destruct (Hms m' Hm') as [He' _].
      apply in_map_iff in Hed as [c [<- Hc]]. apply in_map_iff in Hed' as [c' [<- Hc']].
      apply bert_change_inv in Hc as (? & ? & ? & _ & _ & ->).
      apply bert_change_inv in Hc' as (? & ? & ? & _ & _ & ->).
      unfold Spec.bert_edit. simpl. lia.
Qed.

Lemma rewrite_text_with_bert_rebuilds_witness :
  fst (bert_enhanced_classifier.rewrite_text_with_bert Examples.classifier_firm
         Examples.note_adamant)
  = Spec.rebuild Examples.note_adamant 0
      (rev (map Spec.bert_edit
              (snd (bert_enhanced_classifier.rewrite_text_with_bert
                      Examples.classifier_firm Examples.note_adamant)))).
Proof.
  apply (rewrite_text_with_bert_rebuilds Examples.classifier_firm Examples.note_adamant).
  vm_compute. repeat constructor.
Defined.

(** ** What the recorded changes and results always satisfy *)

Lemma str_eqb_false (a b : PyStr.pystr) : PyStr.str_eqb a b = false <-> a <> b.
Proof.
  split.
  - intros H E. apply str_eqb_eq in E. congruence.
  - intros H. destruct (PyStr.str_eqb a b) eqn:E; [|reflexivity].
    apply str_eqb_eq in E. contradiction.
Qed.

(** X7: every change of the rule-based pipeline is an entry of the
    replacement table of the match's category, looked up under the
    lower-cased original, and its replacement differs from the original
    even with letter case ignored. *)
Theorem rule_changes_from_table (keywords : keyword_dict) (text : PyStr.pystr)
    (c : stigma_classifier.Change) :
  In c (snd (stigma_classifier.rewrite_text keywords text)) ->
  exists tbl,
    PyStr.dict_get stigma_classifier.replacements (stigma_classifier.c_category c)
    = Some tbl
    /\ PyStr.dict_get tbl (PyStr.lower (stigma_classifier.c_original c))
       = Some (stigma_classifier.c_replacement c)
    /\ PyStr.lower (stigma_classifier.c_replacement c)
       <> PyStr.lower (stigma_classifier.c_original c).
Proof.
  intros Hc. apply rule_change_origin in Hc as [m [_ Hc]].
  unfold Spec.rule_change in Hc.
  destruct (negb _) eqn:E; [|contradiction].
  destruct Hc as [<- | []].
  cbn [stigma_classifier.c_category stigma_classifier.c_original
       stigma_classifier.c_replacement].
  apply negb_true_iff, str_eqb_false in E. revert E.
  unfold stigma_classifier.get_replacement.
  destruct (PyStr.dict_get stigma_classifier.replacements
              (stigma_classifier.category m)) as [tbl|] eqn:T; [|congruence].
  destruct (PyStr.dict_get tbl (PyStr.lower (stigma_classifier.original_text m)))
    as [r|] eqn:R; [|congruence].
  intros E. exists tbl. split; [reflexivity|]. split; [exact R | exact E].
Qed.

Lemma rule_changes_from_table_witness :
  In Examples.change_declined
     (snd (stigma_classifier.rewrite_text Examples.keywords Examples.note_two))
  /\ exists tbl,
       PyStr.dict_get stigma_classifier.replacements (PyStr.py "compliance") = Some tbl
       /\ PyStr.dict_get tbl (PyStr.lower (PyStr.py "refused"))
          = Some (PyStr.py "declined")
       /\ PyStr.lower (PyStr.py "declined") <> PyStr.lower (PyStr.py "refused").
Proof.
  assert (H : In Examples.change_declined
                (snd (stigma_classifier.rewrite_text Examples.keywords
                        Examples.note_two)))
    by (vm_compute; right; left; reflexivity).
  split; [exact H|].
  exact (rule_changes_from_table Examples.keywords Examples.note_two
           Examples.change_declined H).
Defined.

Lemma flat_map_length_le {A B : Type} (f : A -> list B) (l : list A) :
  (forall a, length (f a) <= 1) -> length (flat_map f l) <= length l.
Proof.
  intros Hf. induction l as [|a l IH]; simpl; [lia|].
  rewrite length_app. specialize (Hf a). lia.
Qed.

Lemma sort_desc_length {A : Type} (gtb : A -> A -> bool) (l : list A) :
  length (sort_desc gtb l) = length l.
Proof. apply Permutation_length, sort_desc_perm. Qed.

(** X8: in both pipelines a result holds at most one change per match; a
    result without stigma holds no change and returns the input text; a
    result holds a change only if it reports stigma. *)
Theorem changes_bounded_by_matches :
  (forall keywords text,
      let r := stigma_classifier.process_note keywords text in
      stigma_classifier.num_changes r = length (stigma_classifier.changes_made r)
      /\ stigma_classifier.num_changes r <= length (stigma_classifier.stigma_matches r)
      /\ (stigma_classifier.r_has_stigma r = false <->
          stigma_classifier.stigma_matches r = [])
      /\ (stigma_classifier.r_has_stigma r = false ->
          stigma_classifier.changes_made r = []
          /\ stigma_classifier.rewritten_text r = text))
  /\ (forall cl text,
        let r := bert_enhanced_classifier.process_note cl text in
        bert_enhanced_classifier.num_changes r
        = length (bert_enhanced_classifier.changes_made r)
        /\ bert_enhanced_classifier.num_changes r
           <= length (bert_enhanced_classifier.stigma_matches r)
        /\ (bert_enhanced_classifier.r_has_stigma r = false <->
            bert_enhanced_classifier.stigma_matches r = [])
        /\ (bert_enhanced_classifier.r_has_stigma r = false ->
            bert_enhanced_classifier.changes_made r = []
            /\ bert_enhanced_classifier.rewritten_text r = text)).
Proof.
  split.
  - intros keywords text r. subst r.
    unfold stigma_classifier.process_note.
    pose proof (rewrite_text_changes keywords text) as Hch.
    unfold stigma_classifier.rewrite_text in *.
    destruct (fold_left stigma_classifier.rewrite_step _ _) as [t cs] eqn:F.
    simpl in Hch. simpl.
    split; [reflexivity|]. split.
    { rewrite length_map, Hch.
      etransitivity; [apply flat_map_length_le|].
      - intros m. unfold Spec.rule_change. destruct (negb _); simpl; lia.
      - unfold stigma_classifier.sort_matches. now rewrite sort_desc_length. }
    assert (Hnil : (0 <? length (stigma_classifier.detect_stigma keywords text)) = false
                   <-> stigma_classifier.detect_stigma keywords text = []).
    { rewrite Nat.ltb_ge, Nat.le_0_r. apply length_zero_iff_nil. }
    split.
    { rewrite Hnil. split; [intros H; now rewrite H | apply map_eq_nil]. }
    intros H. apply Hnil in H. rewrite H in F. simpl in F.
    injection F as <- <-. now split.
  - intros cl text r. subst r.
    unfold bert_enhanced_classifier.process_note.
    pose proof (rewrite_text_with_bert_changes cl text) as Hch.
    unfold bert_enhanced_classifier.rewrite_text_with_bert in *.
    destruct (fold_left (bert_enhanced_classifier.rewrite_step text) _ _)
      as [t cs] eqn:F.
    simpl in Hch. simpl.
    split; [reflexivity|]. split.
    { rewrite length_map, Hch.
      etransitivity; [apply flat_map_length_le|].
      - intros m. unfold Spec.bert_change.
        destruct (bert_enhanced_classifier.bert_alternatives m) as [|[b s] rest];
          [simpl; lia|].
        destruct (bert_enhanced_classifier._is_appropriate_replacement _ _ _ _ _ _);
          simpl; lia.
      - unfold bert_enhanced_classifier.sort_matches. now rewrite sort_desc_length. }
    assert (Hnil : (0 <? length (bert_enhanced_classifier.detect_stigma_with_bert cl text))
                   = false
                   <-> bert_enhanced_classifier.detect_stigma_with_bert cl text = []).
    { rewrite Nat.ltb_ge, Nat.le_0_r. apply length_zero_iff_nil. }
    split.
    { rewrite Hnil. split; [intros H; now rewrite H | apply map_eq_nil]. }
    intros H. apply Hnil in H. rewrite H in F. simpl in F.
    injection F as <- <-. now split.
Qed.

Lemma dedup_In (l : list PyStr.pystr) (x : PyStr.pystr) :
  In x (stigma_classifier.dedup l) <-> In x l.
Proof.
  induction l as [|y l IH]; simpl; [tauto|].
  rewrite filter_In, IH, negb_true_iff, str_eqb_false.
  destruct (list_eq_dec ascii_dec y x) as [-> | Hne]; [tauto|].
  split; [tauto|]. intros [H | H]; [contradiction | now right].
Qed.

Lemma dedup_NoDup (l : list PyStr.pystr) : NoDup (stigma_classifier.dedup l).
Proof.
  induction l as [|y l IH]; simpl; constructor.
  - rewrite filter_In, str_eqb_refl. simpl. intros [_ H]. discriminate.
  - now apply NoDup_filter.
Qed.

(** X9: the categories reported for a text are exactly the categories of its
    matches, each listed once; each is a category of the catalog, and the
    list is empty exactly when the text has no stigma. *)
Theorem stigma_categories_exact (keywords : keyword_dict) (text : PyStr.pystr) :
  NoDup (stigma_classifier.get_stigma_categories keywords text)
  /\ (forall cat,
        In cat (stigma_classifier.get_stigma_categories keywords text) <->
        exists m, In m (stigma_classifier.detect_stigma keywords text)
                  /\ stigma_classifier.category m = cat)
  /\ (forall cat,
        In cat (stigma_classifier.get_stigma_categories keywords text) ->
        In cat (map fst keywords))
  /\ (stigma_classifier.get_stigma_categories keywords text = [] <->
      stigma_classifier.has_stigma keywords text = false).
Proof.
  unfold stigma_classifier.get_stigma_categories.
  assert (Hin : forall cat,
            In cat (stigma_classifier.dedup
                      (map stigma_classifier.category
                         (stigma_classifier.detect_stigma keywords text))) <->
            exists m, In m (stigma_classifier.detect_stigma keywords text)
                      /\ stigma_classifier.category m = cat).
  { intros cat. rewrite dedup_In, in_map_iff. split; intros [m [H1 H2]]; now exists m. }
  split; [apply dedup_NoDup|]. split; [exact Hin|]. split.
  - intros cat H. apply Hin in H as [m [Hm <-]].
    apply detect_stigma_entry in Hm as (ws & Hk & _).
    apply in_map_iff. now exists (stigma_classifier.category m, ws).
  - unfold stigma_classifier.has_stigma.
    destruct (stigma_classifier.detect_stigma keywords text) as [|m l]; simpl.
    + split; reflexivity.
    + split; discriminate.
Qed.

Lemma slice_slice (t : PyStr.pystr) (a b x y : nat) :
  a + y <= b ->
  PyStr.slice (PyStr.slice t a b) x y = PyStr.slice t (a + x) (a + y).
Proof.
  intros H. unfold PyStr.slice.
  rewrite skipn_firstn_comm, firstn_firstn, skipn_skipn.
  replace (Nat.min (y - x) (b - a - x)) with (y - x) by lia.
  replace (a + y - (a + x)) with (y - x) by lia.
  now replace (x + a) with (a + x) by lia.
Qed.

(** X10: the context of a match is the window of the text from 50
    characters before the match to 50 characters after it, cut at the ends
    of the text: it is at most 100 characters longer than the match, and the
    matched text stands in it at offset [min(start, 50)]. *)
Theorem context_window (keywords : keyword_dict) (text : PyStr.pystr)
    (m : stigma_classifier.StigmaMatch) :
  In m (stigma_classifier.detect_stigma keywords text) ->
  length (stigma_classifier.context m)
  <= length (stigma_classifier.original_text m) + 100
  /\ PyStr.slice (stigma_classifier.context m)
       (Nat.min (stigma_classifier.start_pos m) 50)
       (Nat.min (stigma_classifier.start_pos m) 50
        + length (stigma_classifier.original_text m))
     = stigma_classifier.original_text m.
Proof.
  intros Hm.
  pose proof (detect_stigma_extent _ _ _ Hm) as [He Hbd].
  pose proof (detect_stigma_match _ _ _ Hm) as [Horig _].
  apply detect_stigma_entry in Hm as (_ & _ & _ & Hm).
  assert (Hctx : stigma_classifier.context m
                 = PyStr.slice text (stigma_classifier.start_pos m - 50)
                     (Nat.min (length text) (stigma_classifier.end_pos m + 50)))
    by (rewrite Hm at 1; reflexivity).
  rewrite Hctx. split.
  - unfold PyStr.slice. rewrite length_firstn, length_skipn. lia.
  - rewrite slice_slice by lia.
    replace (stigma_classifier.start_pos m - 50 + Nat.min (stigma_classifier.start_pos m) 50)
      with (stigma_classifier.start_pos m) by lia.
    rewrite Horig at 2. f_equal. lia.
Qed.

Lemma context_window_witness :
  In Examples.match_rule
     (stigma_classifier.detect_stigma Examples.keywords Examples.note_adamant)
  /\ length (stigma_classifier.context Examples.match_rule)
     <= length (stigma_classifier.original_text Examples.match_rule) + 100
  /\ PyStr.slice (stigma_classifier.context Examples.match_rule)
       (Nat.min (stigma_classifier.start_pos Examples.match_rule) 50)
       (Nat.min (stigma_classifier.start_pos Examples.match_rule) 50
        + length (stigma_classifier.original_text Examples.match_rule))
     = stigma_classifier.original_text Examples.match_rule.
Proof.
  assert (H : In Examples.match_rule
                (stigma_classifier.detect_stigma Examples.keywords
                   Examples.note_adamant))
    by (vm_compute; left; reflexivity).
  split; [exact H|].
  exact (context_window Examples.keywords Examples.note_adamant Examples.match_rule H).
Defined.

(** ** Candidates and the quality gate *)

Lemma str_in_In (x : PyStr.pystr) (l : list PyStr.pystr) :
  PyStr.str_in x l = true <-> In x l.
Proof.
  unfold PyStr.str_in. rewrite existsb_exists. split.
  - intros [y [Hy E]]. apply str_eqb_eq in E. now subst.
  - intros H. exists x. split; [exact H | apply str_eqb_refl].
Qed.

Lemma dict_get_In {V : Type} (d : list (PyStr.pystr * V)) (k : PyStr.pystr) (v : V) :
  PyStr.dict_get d k = Some v -> In (k, v) d.
Proof.
  induction d as [|[k' v'] d IH]; simpl; [discriminate|].
  destruct (PyStr.str_eqb k k') eqn:E.
  - intros H. injection H as <-. apply str_eqb_eq in E. subst. now left.
  - intros H. right. now apply IH.
Qed.

Lemma find_all_false {A : Type} (f : A -> bool) (l : list A) :
  (forall x, In x l -> f x = false) -> List.find f l = None.
Proof.
  induction l as [|x l IH]; intros H; simpl; [reflexivity|].
  rewrite (H x) by now left. apply IH. intros y Hy. apply H. now right.
Qed.

Lemma all_stigma_words_In (keywords : keyword_dict) (w cat : PyStr.pystr) :
  In (w, cat) (bert_enhanced_classifier.all_stigma_words keywords) <->
  exists ws, In (cat, ws) keywords /\ In w ws.
Proof.
  unfold bert_enhanced_classifier.all_stigma_words. rewrite in_flat_map. split.
  - intros [[cat' ws] [Hin H]]. simpl in H.
    apply in_map_iff in H as [w' [E Hw]]. injection E as -> ->. now exists ws.
  - intros [ws [Hin Hw]]. exists (cat, ws). split; [exact Hin|].
    simpl. apply in_map_iff. now exists w.
Qed.

Lemma sorted_app_inv {A : Type} (R : A -> A -> Prop) (l1 l2 : list A) :
  StronglySorted R (l1 ++ l2) ->
  StronglySorted R l1 /\ (forall a b, In a l1 -> In b l2 -> R a b).
Proof.
  induction l1 as [|x l1 IH]; simpl; intros H.
  - split; [constructor | intros a b []].
  - inversion H as [|? ? Hs Hall]; subst. destruct (IH Hs) as [Hs1 Hcross].
    rewrite Forall_forall in Hall. split.
    + constructor; [exact Hs1|]. apply Forall_forall. intros y Hy.
      apply Hall, in_or_app. now left.
    + intros a b [<- | Ha] Hb; [apply Hall, in_or_app; now right | now apply Hcross].
Qed.

(** The pool the ranking draws from. *)
Lemma candidates_from_pool (cl : bert_enhanced_classifier.BERTEnhancedClassifier)
    (word : PyStr.pystr) (top_k : nat) (w : PyStr.pystr) (q : Q) :
  In (w, q) (bert_enhanced_classifier.find_similar_neutral_alternatives cl word top_k) ->
  In w (match PyStr.dict_get bert_enhanced_classifier.neutral_alternatives
                (bert_enhanced_classifier.stigma_category
                   (bert_enhanced_classifier.keyword_dict_of cl) (PyStr.lower word)) with
        | Some l => l
        | None => bert_enhanced_classifier.general_alternatives
        end)
  /\ (w, q) = bert_enhanced_classifier.boost word
                (w, bert_enhanced_classifier.similarity cl word w).
Proof.
  unfold bert_enhanced_classifier.find_similar_neutral_alternatives.
  intros H. apply In_firstn in H.
  unfold bert_enhanced_classifier._filter_and_prioritize_alternatives,
    bert_enhanced_classifier.sort_pairs in H.
  apply sort_desc_In, in_map_iff in H as [[w' s] [Hb H]].
  apply in_map_iff in H as [w'' [E Hw]]. injection E as E1 E2. subst w' s.
  pose proof (boost_fst word w'' (bert_enhanced_classifier.similarity cl word w'')) as Hf.
  rewrite Hb in Hf. simpl in Hf. subst w''. split; [exact Hw | now rewrite Hb].
Qed.

(** X11: the ranking returns the [top_k] best of the candidate pool of the
    word's category (the whole pool if it is shorter): every returned
    candidate is a pool word with its adjusted similarity, the list is in
    descending score order, and no adjusted pool candidate left out scores
    above a returned one.  A word that is no catalog keyword gets the
    general pool. *)
Theorem ranking_returns_top_of_pool
    (cl : bert_enhanced_classifier.BERTEnhancedClassifier)
    (word : PyStr.pystr) (top_k : nat) :
  let pool :=
    match PyStr.dict_get bert_enhanced_classifier.neutral_alternatives
            (bert_enhanced_classifier.stigma_category
               (bert_enhanced_classifier.keyword_dict_of cl) (PyStr.lower word)) with
    | Some l => l
    | None => bert_enhanced_classifier.general_alternatives
    end in
  let adjusted :=
    map (fun w => bert_enhanced_classifier.boost word
                    (w, bert_enhanced_classifier.similarity cl word w)) pool in
  let ranked :=
    bert_enhanced_classifier.find_similar_neutral_alternatives cl word top_k in
  length ranked = Nat.min top_k (length pool)
  /\ (forall p, In p ranked -> In p adjusted)
  /\ StronglySorted (fun a b => (snd b <= snd a)%Q) ranked
  /\ (forall p r, In p adjusted -> ~ In p ranked -> In r ranked -> (snd p <= snd r)%Q)
  /\ ((forall cat ws w, In (cat, ws) (bert_enhanced_classifier.keyword_dict_of cl) ->
                        In w ws -> PyStr.lower w <> PyStr.lower word) ->
      pool = bert_enhanced_classifier.general_alternatives).
Proof.
  intros pool adjusted ranked.
  set (sorted := bert_enhanced_classifier.sort_pairs adjusted).
  assert (Hranked : ranked = firstn top_k sorted).
  { subst ranked sorted adjusted pool.
    unfold bert_enhanced_classifier.find_similar_neutral_alternatives,
      bert_enhanced_classifier._filter_and_prioritize_alternatives.
    now rewrite map_map. }
  assert (Hsorted : StronglySorted (fun a b => (snd b <= snd a)%Q)
                      (firstn top_k sorted ++ skipn top_k sorted)).
  { rewrite firstn_skipn. apply sort_pairs_sorted. }
  apply sorted_app_inv in Hsorted as [Hs Hcross].
  split; [|split; [|split; [|split]]].
  - rewrite Hranked, length_firstn. subst sorted.
    unfold bert_enhanced_classifier.sort_pairs.
    rewrite sort_desc_length. subst adjusted. now rewrite length_map.
  - intros p Hp. rewrite Hranked in Hp. apply In_firstn in Hp.
    now apply sort_desc_In in Hp.
  - now rewrite Hranked.
  - intros p r Hp Hnot Hr. rewrite Hranked in Hnot, Hr.
    apply (Hcross r p Hr).
    assert (Hin : In p sorted) by now apply sort_desc_In.
    rewrite <- (firstn_skipn top_k sorted) in Hin.
    apply in_app_or in Hin as [Hin | Hin]; [contradiction | exact Hin].
  - intros Hunknown. subst pool.
    unfold bert_enhanced_classifier.stigma_category.
    rewrite find_all_false; [reflexivity|].
    intros [w cat] Hin. apply in_rev, all_stigma_words_In in Hin as [ws [Hk Hw]].
    simpl. apply str_eqb_false. now apply (Hunknown cat ws).
Qed.

(** The critical-term check of the gate, read off a recorded change. *)
Lemma bert_changes_respect_terms_aux
    (cl : bert_enhanced_classifier.BERTEnhancedClassifier) (text : PyStr.pystr)
    (c : bert_enhanced_classifier.Change) :
  In c (snd (bert_enhanced_classifier.rewrite_text_with_bert cl text)) ->
  bert_enhanced_classifier._preserves_clinical_meaning
    (bert_enhanced_classifier.c_original c)
    (bert_enhanced_classifier.c_replacement c)
    (bert_enhanced_classifier.c_category c) = true
  /\ PyStr.str_in (PyStr.lower (bert_enhanced_classifier.c_original c))
       bert_enhanced_classifier.neutral_terms = false.
Proof.
  intros Hc. apply bert_change_origin in Hc as [m [_ Hc]].
  apply bert_change_inv in Hc as (best & score & rest & _ & Hgate & ->).
  cbn [bert_enhanced_classifier.c_original bert_enhanced_classifier.c_replacement
       bert_enhanced_classifier.c_category].
  unfold bert_enhanced_classifier._is_appropriate_replacement in Hgate.
  destruct (bert_enhanced_classifier.Qltb score (F64.lit 0.6)); [discriminate Hgate|].
  destruct (PyStr.str_in _ bert_enhanced_classifier.neutral_terms) eqn:N;
    [discriminate|].
  destruct (PyStr.str_eqb _ _ && _); [discriminate|].
  destruct (negb (bert_enhanced_classifier._is_grammatically_correct _ _ _ _));
    [discriminate|].
  destruct (bert_enhanced_classifier._preserves_clinical_meaning _ _ _) eqn:P;
    [|discriminate].
  now split.
Qed.

(** X12: a change recorded by the similarity rewrite never has a term of
    the neutral list as its original; when the original is a critical term
    its replacement is the one sanctioned replacement; when it is a term of
    the meaning-preserving table its replacement is one of the table's
    words (letter case ignored throughout). *)
Theorem bert_changes_respect_term_tables
    (cl : bert_enhanced_classifier.BERTEnhancedClassifier) (text : PyStr.pystr)
    (c : bert_enhanced_classifier.Change) :
  In c (snd (bert_enhanced_classifier.rewrite_text_with_bert cl text)) ->
  ~ In (PyStr.lower (bert_enhanced_classifier.c_original c))
       bert_enhanced_classifier.neutral_terms
  /\ (forall r,
        PyStr.dict_get bert_enhanced_classifier.critical_terms
          (PyStr.lower (bert_enhanced_classifier.c_original c)) = Some r ->
        PyStr.lower (bert_enhanced_classifier.c_replacement c) = r)
  /\ (forall l,
        PyStr.dict_get bert_enhanced_classifier.critical_terms
          (PyStr.lower (bert_enhanced_classifier.c_original c)) = None ->
        PyStr.dict_get bert_enhanced_classifier.meaning_preserving
          (PyStr.lower (bert_enhanced_classifier.c_original c)) = Some l ->
        In (PyStr.lower (bert_enhanced_classifier.c_replacement c)) l).
Proof.
  intros Hc. apply bert_changes_respect_terms_aux in Hc as [P N].
  unfold bert_enhanced_classifier._preserves_clinical_meaning in P.
  split; [|split].
  - intros H. apply str_in_In in H. congruence.
  - intros r Hr. rewrite Hr in P. now apply str_eqb_eq in P.
  - intros l Hnone Hl. rewrite Hnone, Hl in P. now apply str_in_In.
Qed.

Lemma bert_changes_respect_term_tables_witness :
  In Examples.change_firm
     (snd (bert_enhanced_classifier.rewrite_text_with_bert Examples.classifier_firm
             Examples.note_adamant))
  /\ In (PyStr.lower (bert_enhanced_classifier.c_replacement Examples.change_firm))
        (map PyStr.py ["firm"; "determined"; "resolute"]).
Proof.
  assert (H : In Examples.change_firm
                (snd (bert_enhanced_classifier.rewrite_text_with_bert
                        Examples.classifier_firm Examples.note_adamant)))
    by (vm_compute; left; reflexivity).
  split; [exact H|].
  apply (bert_changes_respect_term_tables Examples.classifier_firm
           Examples.note_adamant Examples.change_firm H); reflexivity.
Defined.

(** No candidate pool holds the word "non-adherent". *)
Lemma pools_lack_non_adherent (w : PyStr.pystr) :
  In w (bert_enhanced_classifier.general_alternatives
        ++ flat_map snd bert_enhanced_classifier.neutral_alternatives) ->
  PyStr.lower w <> PyStr.py "non-adherent".
Proof.
  intros Hin.
  assert (Hall : forallb (fun w => negb (PyStr.str_eqb (PyStr.lower w)
                                           (PyStr.py "non-adherent")))
                   (bert_enhanced_classifier.general_alternatives
                    ++ flat_map snd bert_enhanced_classifier.neutral_alternatives)
                 = true) by (vm_compute; reflexivity).
  rewrite forallb_forall in Hall. specialize (Hall w Hin).
  now apply negb_true_iff, str_eqb_false in Hall.
Qed.

(** X13: whatever the catalog and the embedding, the similarity rewrite
    records no change for "noncompliant" or "nonadherent" in any letter
    case: their one sanctioned replacement, "non-adherent", is in no
    candidate pool. *)
Theorem bert_never_rewrites_noncompliant
    (cl : bert_enhanced_classifier.BERTEnhancedClassifier) (text : PyStr.pystr)
    (c : bert_enhanced_classifier.Change) :
  In c (snd (bert_enhanced_classifier.rewrite_text_with_bert cl text)) ->
  PyStr.lower (bert_enhanced_classifier.c_original c) <> PyStr.py "noncompliant"
  /\ PyStr.lower (bert_enhanced_classifier.c_original c) <> PyStr.py "nonadherent".
Proof.
  intros Hc.
  pose proof (bert_changes_respect_terms_aux cl text c Hc) as [Hcrit _].
  unfold bert_enhanced_classifier._preserves_clinical_meaning in Hcrit.
  apply bert_change_origin in Hc as [m [Hm Hc]].
  apply bert_change_inv in Hc as (best & score & rest & Halt & _ & ->).
  cbn [bert_enhanced_classifier.c_original bert_enhanced_classifier.c_replacement] in *.
  apply detect_stigma_with_bert_match in Hm as (_ & Hfind & _).
  assert (Hpool : PyStr.lower best <> PyStr.py "non-adherent").
  { apply pools_lack_non_adherent.
    assert (Hin : In (best, score)
                    (bert_enhanced_classifier.find_similar_neutral_alternatives cl
                       (bert_enhanced_classifier.original_text m) 5))
      by (rewrite <- Hfind, Halt; now left).
    apply candidates_from_pool in Hin as [Hin _].
    apply in_or_app.
    destruct (PyStr.dict_get bert_enhanced_classifier.neutral_alternatives _)
      as [l|] eqn:D; [right | now left].
    apply dict_get_In in D. apply in_flat_map.
    eexists. split; [exact D | exact Hin]. }
  split; intros E; rewrite E in Hcrit; apply Hpool;
    apply str_eqb_eq; exact Hcrit.
Qed.

Lemma bert_never_rewrites_noncompliant_witness :
  In Examples.change_firm
     (snd (bert_enhanced_classifier.rewrite_text_with_bert Examples.classifier_firm
             Examples.note_adamant))
  /\ PyStr.lower (bert_enhanced_classifier.c_original Examples.change_firm)
     <> PyStr.py "noncompliant"
  /\ PyStr.lower (bert_enhanced_classifier.c_original Examples.change_firm)
     <> PyStr.py "nonadherent".
Proof.
  assert (H : In Examples.change_firm
                (snd (bert_enhanced_classifier.rewrite_text_with_bert
                        Examples.classifier_firm Examples.note_adamant)))
    by (vm_compute; left; reflexivity).
  split; [exact H|].
  exact (bert_never_rewrites_noncompliant Examples.classifier_firm
           Examples.note_adamant Examples.change_firm H).
Defined.

(** ** The hybrid processor *)

(** X14: [process_note] raises in two cases only: [ValueError] for a method
    name other than the four known ones, and [RuntimeError] for the method
    "bert" on a processor without the similarity pipeline; the methods
    "traditional", "hybrid" and "auto" always return a result. *)
Theorem process_note_raises_iff (p : hybrid_processor.HybridProcessor)
    (text method : PyStr.pystr) (e : exn) :
  hybrid_processor.process_note p text method = Raise e <->
  (e = ValueError
   /\ method <> PyStr.py "traditional" /\ method <> PyStr.py "bert"
   /\ method <> PyStr.py "hybrid" /\ method <> PyStr.py "auto")
  \/ (e = RuntimeError /\ method = PyStr.py "bert"
      /\ hybrid_processor.bert_processor p = None).
Proof.
  unfold hybrid_processor.process_note.
  destruct (PyStr.str_eqb method (PyStr.py "traditional")) eqn:T.
  { apply str_eqb_eq in T. subst method. split; [discriminate|].
    intros [(_ & E & _) | (_ & E & _)]; [congruence | discriminate]. }
  destruct (PyStr.str_eqb method (PyStr.py "bert")) eqn:B.
  { apply str_eqb_eq in B. subst method.
    unfold hybrid_processor._process_bert.
    destruct (hybrid_processor.bert_processor p); simpl.
    - split; [discriminate|].
      intros [(_ & _ & E & _) | (_ & _ & E)]; congruence.
    - split.
      + intros E. injection E as <-. now right.
      + intros [(_ & _ & E & _) | (-> & _)]; congruence. }
  destruct (PyStr.str_eqb method (PyStr.py "hybrid")) eqn:Hy.
  { apply str_eqb_eq in Hy. subst method.
    unfold hybrid_processor._process_hybrid, hybrid_processor._process_bert.
    destruct (hybrid_processor.bert_processor p); simpl;
      (split; [discriminate|];
       intros [(_ & _ & _ & E & _) | (_ & E & _)]; [congruence | discriminate]). }
  destruct (PyStr.str_eqb method (PyStr.py "auto")) eqn:A.
  { apply str_eqb_eq in A. subst method.
    unfold hybrid_processor._process_auto, hybrid_processor._process_bert.
    destruct (hybrid_processor.bert_processor p); simpl;
      [destruct (20 <? _); simpl|];
      (split; [discriminate|];
       intros [(_ & _ & _ & _ & E) | (_ & E & _)]; [congruence | discriminate]). }
  apply str_eqb_false in T, B, Hy, A. split.
  - intros E. injection E as <-. left. now repeat split.
  - intros [(-> & _) | (_ & E & _)]; [reflexivity | contradiction].
Qed.

(** X15: the hybrid method always returns a result; its change count is the
    larger of the two pipelines' counts; without the similarity pipeline it
    is the rule-based result with no similarity sub-result; and when both
    pipelines are built on the same catalog, its stigma flag and its
    categories are those of the rule-based result whichever pipeline is
    primary. *)
Theorem hybrid_result_shape (p : hybrid_processor.HybridProcessor) (text : PyStr.pystr) :
  exists r,
    hybrid_processor._process_hybrid p text = Ok r
    /\ hybrid_processor.h_num_changes r
       = match hybrid_processor.bert_result r with
         | Some b =>
             Nat.max
               (stigma_classifier.num_changes
                  (hybrid_processor.t_result (hybrid_processor.traditional_result r)))
               (bert_enhanced_classifier.num_changes (hybrid_processor.b_result b))
         | None =>
             stigma_classifier.num_changes
               (hybrid_processor.t_result (hybrid_processor.traditional_result r))
         end
    /\ (hybrid_processor.bert_processor p = None ->
        hybrid_processor.bert_result r = None
        /\ hybrid_processor.h_bert_enhanced r = false
        /\ hybrid_processor.primary_method r = PyStr.py "traditional"
        /\ hybrid_processor.h_rewritten_text r
           = stigma_classifier.rewritten_text
               (stigma_classifier.process_note
                  (hybrid_processor.traditional_processor p) text))
    /\ (forall cl,
          hybrid_processor.bert_processor p = Some cl ->
          bert_enhanced_classifier.keyword_dict_of cl
          = hybrid_processor.traditional_processor p ->
          hybrid_processor.h_has_stigma r
          = stigma_classifier.r_has_stigma
              (stigma_classifier.process_note
                 (hybrid_processor.traditional_processor p) text)
          /\ hybrid_processor.h_stigma_categories r
             = stigma_classifier.stigma_categories
                 (stigma_classifier.process_note
                    (hybrid_processor.traditional_processor p) text)).
Proof.
  unfold hybrid_processor._process_hybrid, hybrid_processor._process_bert.
  destruct (hybrid_processor.bert_processor p) as [cl|] eqn:Hcl; simpl.
  - eexists. split; [reflexivity|].
    unfold hybrid_processor.with_primary, hybrid_processor._process_traditional.
    cbn [hybrid_processor.b_result hybrid_processor.t_result].
    destruct (stigma_classifier.num_changes _ <? bert_enhanced_classifier.num_changes _)
      eqn:E; cbn.
    + apply Nat.ltb_lt in E. split; [lia|]. split; [discriminate|].
      intros cl' Hcl' Hkw. injection Hcl' as <-.
      pose proof (detect_alike_results cl text) as [H1 H2].
      rewrite Hkw in H1, H2. now split.
    + apply Nat.ltb_ge in E. split; [lia|]. split; [discriminate|].
      intros cl' _ _. now split.
  - eexists. split; [reflexivity|].
    unfold hybrid_processor.with_primary. cbn.
    split; [reflexivity|]. split; [now repeat split | discriminate].
Qed.

(** X16: [compare_methods] always returns; it lists the rule-based method
    alone on a processor without the similarity pipeline, and all three
    methods otherwise; the hybrid entry then has the larger of the two
    change counts and the rewritten text of the pipeline it names as
    primary, and the similarity entry has one confidence score per match. *)
Theorem compare_methods_shape (p : hybrid_processor.HybridProcessor) (text : PyStr.pystr) :
  exists c,
    hybrid_processor.compare_methods p text = Ok c
    /\ hybrid_processor.cmp_original_text c = text
    /\ hybrid_processor.s_num_changes (hybrid_processor.cmp_traditional c)
       = stigma_classifier.num_changes
           (stigma_classifier.process_note (hybrid_processor.traditional_processor p) text)
    /\ (hybrid_processor.bert_processor p = None ->
        hybrid_processor.methods_available c = [PyStr.py "traditional"]
        /\ hybrid_processor.cmp_bert c = None
        /\ hybrid_processor.cmp_hybrid c = None)
    /\ (forall cl,
          hybrid_processor.bert_processor p = Some cl ->
          hybrid_processor.methods_available c
          = [PyStr.py "traditional"; PyStr.py "bert"; PyStr.py "hybrid"]
          /\ exists b h scores,
               hybrid_processor.cmp_bert c = Some b
               /\ hybrid_processor.cmp_hybrid c = Some h
               /\ hybrid_processor.s_confidence_scores b = Some scores
               /\ length scores
                  = length (bert_enhanced_classifier.detect_stigma_with_bert cl text)
               /\ hybrid_processor.s_num_changes h
                  = Nat.max
                      (hybrid_processor.s_num_changes (hybrid_processor.cmp_traditional c))
                      (hybrid_processor.s_num_changes b)
               /\ ((hybrid_processor.s_primary_method h = Some (PyStr.py "bert")
                    /\ hybrid_processor.s_rewritten_text h
                       = hybrid_processor.s_rewritten_text b)
                   \/ (hybrid_processor.s_primary_method h = Some (PyStr.py "traditional")
                       /\ hybrid_processor.s_rewritten_text h
                          = hybrid_processor.s_rewritten_text
                              (hybrid_processor.cmp_traditional c)))).
Proof.
  unfold hybrid_processor.compare_methods, hybrid_processor._process_hybrid,
    hybrid_processor._process_bert.
  destruct (hybrid_processor.bert_processor p) as [cl|] eqn:Hcl; cbn [bind].
  - eexists. split; [reflexivity|].
    cbn [hybrid_processor.cmp_original_text hybrid_processor.cmp_traditional
         hybrid_processor.methods_available hybrid_processor.cmp_bert
         hybrid_processor.cmp_hybrid hybrid_processor.s_num_changes].
    split; [reflexivity|]. split; [reflexivity|]. split; [discriminate|].
    intros cl' E. injection E as <-. split; [reflexivity|].
    eexists. eexists. eexists.
    split; [reflexivity|]. split; [reflexivity|]. split; [reflexivity|].
    split.
    { rewrite length_map. unfold bert_enhanced_classifier.process_note.
      destruct (bert_enhanced_classifier.rewrite_text_with_bert cl text).
      cbn. now rewrite length_map. }
    unfold hybrid_processor.with_primary, hybrid_processor._process_traditional.
    cbn [hybrid_processor.b_result hybrid_processor.t_result].
    destruct (stigma_classifier.num_changes _ <? bert_enhanced_classifier.num_changes _)
      eqn:E; cbn.
    + apply Nat.ltb_lt in E. split; [lia | now left].
    + apply Nat.ltb_ge in E. split; [lia | now right].
  - eexists. split; [reflexivity|]. cbn.
    split; [reflexivity|]. split; [reflexivity|].
    split; [now repeat split | discriminate].
Qed.

Lemma replacements_keys (cat : PyStr.pystr) (tbl : list (PyStr.pystr * PyStr.pystr)) :
  In (cat, tbl) stigma_classifier.replacements ->
  PyStr.dict_get stigma_classifier.replacements cat = Some tbl.
Proof.
  unfold stigma_classifier.replacements.
  intros [E | [E | [E | []]]]; injection E as <- <-; reflexivity.
Qed.

Lemma traditional_alternatives_spec (word_lower : PyStr.pystr)
    (tables : list (PyStr.pystr * list (PyStr.pystr * PyStr.pystr))) :
  (hybrid_processor.traditional_alternatives word_lower tables = []
   /\ forall cat tbl, In (cat, tbl) tables -> PyStr.dict_get tbl word_lower = None)
  \/ (exists cat tbl r,
        In (cat, tbl) tables /\ PyStr.dict_get tbl word_lower = Some r
        /\ hybrid_processor.traditional_alternatives word_lower tables = [(r, 1.0%Q)]).
Proof.
  induction tables as [|[cat tbl] tables IH]; simpl.
  - left. split; [reflexivity | intros ? ? []].
  - destruct (PyStr.dict_get tbl word_lower) as [r|] eqn:E.
    + right. exists cat, tbl, r. split; [now left | now split].
    + destruct IH as [[H1 H2] | (cat' & tbl' & r & Hin & Hget & H)].
      * left. split; [exact H1|].
        intros c t [Heq | Hin]; [injection Heq as <- <-; exact E | now apply (H2 c)].
      * right. exists cat', tbl', r. split; [now right | now split].
Qed.

(** X17: for the method "traditional", [get_word_alternatives] returns no
    alternative when no replacement table has the lower-cased word (every
    [get_replacement] then returns the word itself), and otherwise one
    alternative with score 1.0, which is what [get_replacement] returns for
    the word in one of the categories.  Any other method raises
    [ValueError], except "bert" on a processor with the similarity
    pipeline, which returns at most [top_k] ranked candidates. *)
Theorem get_word_alternatives_cases (p : hybrid_processor.HybridProcessor)
    (word method : PyStr.pystr) (top_k : nat) :
  (method = PyStr.py "traditional" ->
   exists l,
     hybrid_processor.get_word_alternatives p word method top_k = Ok l
     /\ ((l = [] /\ forall cat, stigma_classifier.get_replacement word cat = word)
         \/ exists cat r,
              l = [(r, 1.0%Q)]
              /\ In cat (map fst stigma_classifier.replacements)
              /\ stigma_classifier.get_replacement word cat = r))
  /\ (method = PyStr.py "bert" ->
      match hybrid_processor.bert_processor p with
      | Some cl =>
          exists l,
            hybrid_processor.get_word_alternatives p word method top_k = Ok l
            /\ l = bert_enhanced_classifier.find_similar_neutral_alternatives cl word top_k
            /\ length l <= top_k
      | None =>
          hybrid_processor.get_word_alternatives p word method top_k = Raise ValueError
      end)
  /\ (method <> PyStr.py "traditional" -> method <> PyStr.py "bert" ->
      hybrid_processor.get_word_alternatives p word method top_k = Raise ValueError).
Proof.
  unfold hybrid_processor.get_word_alternatives.
  split; [|split].
  - intros ->. cbn.
    eexists. split; [reflexivity|].
    destruct (traditional_alternatives_spec (PyStr.lower word)
                stigma_classifier.replacements)
      as [[H1 H2] | (cat & tbl & r & Hin & Hget & H)].
    + left. split; [exact H1|]. intros cat.
      unfold stigma_classifier.get_replacement.
      destruct (PyStr.dict_get stigma_classifier.replacements cat) as [tbl|] eqn:E;
        [|reflexivity].
      apply dict_get_In in E. now rewrite (H2 _ _ E).
    + right. exists cat, r. split; [exact H|]. split.
      * exact (in_map fst _ _ Hin).
      * unfold stigma_classifier.get_replacement.
        now rewrite (replacements_keys _ _ Hin), Hget.
  - intros ->. cbn.
    destruct (hybrid_processor.bert_processor p) as [cl|]; [|reflexivity].
    eexists. split; [reflexivity|]. split; [reflexivity|].
    unfold bert_enhanced_classifier.find_similar_neutral_alternatives.
    rewrite length_firstn. lia.
  - intros Ht Hb. apply str_eqb_false in Ht, Hb. now rewrite Hb, Ht.
Qed.

Lemma get_word_alternatives_cases_witness :
  hybrid_processor.get_word_alternatives Examples.processor_rules_only
    (PyStr.py "Refused") (PyStr.py "bert") 10 = Raise ValueError
  /\ hybrid_processor.get_word_alternatives Examples.processor_rules_only
       (PyStr.py "Refused") (PyStr.py "similar") 10 = Raise ValueError.
Proof.
  split.
  - exact (proj1 (proj2 (get_word_alternatives_cases Examples.processor_rules_only
                           (PyStr.py "Refused") (PyStr.py "bert") 10)) eq_refl).
  - apply (proj2 (proj2 (get_word_alternatives_cases Examples.processor_rules_only
                           (PyStr.py "Refused") (PyStr.py "similar") 10)));
      discriminate.
Defined.

(** ** Words and sentences *)





(** ** Letter case *)

Lemma is_word_char_lower (c : ascii) :
  PyStr.is_word_char (PyStr.lower_char c) = PyStr.is_word_char c.
Proof.
  destruct c as [[] [] [] [] [] [] [] []]; reflexivity.
Qed.

Lemma lower_length (a b : PyStr.pystr) :
  PyStr.lower a = PyStr.lower b -> length a = length b.
Proof.
  intros H. apply (f_equal (@length _)) in H.
  unfold PyStr.lower in H. now rewrite !length_map in H.
Qed.

Lemma word_at_lower (a b : PyStr.pystr) (i : nat) :
  PyStr.lower a = PyStr.lower b -> Re.word_at a i = Re.word_at b i.
Proof.
  intros H. apply (f_equal (fun l => nth_error l i)) in H.
  unfold PyStr.lower in H. rewrite !nth_error_map in H.
  unfold Re.word_at.
  destruct (nth_error a i) as [x|], (nth_error b i) as [y|]; simpl in H;
    try discriminate; [|reflexivity].
  injection H as H.
  now rewrite <- (is_word_char_lower x), <- (is_word_char_lower y), H.
Qed.

Lemma word_boundary_lower (a b : PyStr.pystr) (i : nat) :
  PyStr.lower a = PyStr.lower b -> Re.word_boundary a i = Re.word_boundary b i.
Proof.
  intros H. unfold Re.word_boundary.
  rewrite (word_at_lower a b i H).
  destruct i as [|j]; [reflexivity|]. now rewrite (word_at_lower a b j H).
Qed.

Lemma prefix_ci_lower_eq (w a b : PyStr.pystr) :
  PyStr.lower a = PyStr.lower b -> Re.prefix_ci w a = Re.prefix_ci w b.
Proof.
  revert a b. induction w as [|x w IH]; intros [|y a] [|z b] H; simpl in *;
    try discriminate; try reflexivity.
  injection H as Hyz H. now rewrite Hyz, (IH a b H).
Qed.

Lemma skipn_lower (a b : PyStr.pystr) (i : nat) :
  PyStr.lower a = PyStr.lower b -> PyStr.lower (skipn i a) = PyStr.lower (skipn i b).
Proof.
  intros H. unfold PyStr.lower in *. now rewrite <- !skipn_map, H.
Qed.

Lemma slice_lower (a b : PyStr.pystr) (s e : nat) :
  PyStr.lower a = PyStr.lower b ->
  PyStr.lower (PyStr.slice a s e) = PyStr.lower (PyStr.slice b s e).
Proof.
  intros H. unfold PyStr.slice, PyStr.lower in *.
  now rewrite <- !firstn_map, <- !skipn_map, H.
Qed.

Lemma match_at_lower (a b : PyStr.pystr) (alts : list PyStr.pystr) (i : nat)
    (must_advance : bool) :
  PyStr.lower a = PyStr.lower b ->
  Re.match_at a alts i must_advance = Re.match_at b alts i must_advance.
Proof.
  intros H. unfold Re.match_at. rewrite (word_boundary_lower a b i H).
  destruct (Re.word_boundary b i); [|reflexivity].
  induction alts as [|w alts IH]; simpl; [reflexivity|].
  rewrite (prefix_ci_lower_eq w _ _ (skipn_lower a b i H)),
    (word_boundary_lower a b _ H), IH.
  reflexivity.
Qed.

Lemma scan_lower (a b : PyStr.pystr) (alts : list PyStr.pystr) (n i resume : nat) :
  PyStr.lower a = PyStr.lower b ->
  Re.scan a alts n i resume = Re.scan b alts n i resume.
Proof.
  intros H. revert i resume.
  induction n as [|n IH]; intros i resume; simpl; [reflexivity|].
  rewrite !(match_at_lower a b _ _ _ H), !IH.
  destruct (i <? resume); [reflexivity|].
  destruct (Re.match_at b alts i false) as [e|]; [|reflexivity].
  destruct (e =? i); [|now rewrite IH].
  destruct (Re.match_at b alts i true) as [e'|]; [now rewrite IH | reflexivity].
Qed.

Lemma finditer_lower (a b : PyStr.pystr) (ws : list PyStr.pystr) :
  PyStr.lower a = PyStr.lower b -> Re.finditer ws a = Re.finditer ws b.
Proof.
  intros H. unfold Re.finditer. rewrite (lower_length a b H).
  now apply scan_lower.
Qed.

Lemma detect_stigma_lower (keywords : keyword_dict) (a b : PyStr.pystr) :
  PyStr.lower a = PyStr.lower b ->
  Forall2 Spec.same_match_ci (stigma_classifier.detect_stigma keywords a)
    (stigma_classifier.detect_stigma keywords b).
Proof.
  intros H. unfold stigma_classifier.detect_stigma.
  induction keywords as [|[cat ws] keywords IH]; simpl; [constructor|].
  apply Forall2_app; [|exact IH].
  rewrite (finditer_lower a b ws H).
  induction (Re.finditer ws b) as [|[s e] spans IHs]; simpl; constructor;
    [|exact IHs].
  repeat split. simpl. now apply slice_lower.
Qed.

Lemma insert_desc_same (x1 x2 : stigma_classifier.StigmaMatch)
    (l1 l2 : list stigma_classifier.StigmaMatch) :
  Spec.same_match_ci x1 x2 -> Forall2 Spec.same_match_ci l1 l2 ->
  Forall2 Spec.same_match_ci
    (insert_desc (fun y x => stigma_classifier.start_pos x <? stigma_classifier.start_pos y)
       x1 l1)
    (insert_desc (fun y x => stigma_classifier.start_pos x <? stigma_classifier.start_pos y)
       x2 l2).
Proof.
  intros Hx Hl. induction Hl as [|y1 y2 l1 l2 Hy Hl IH]; simpl.
  - constructor; [exact Hx | constructor].
  - destruct Hx as [Hxs Hx'], Hy as [Hys Hy']. rewrite Hxs, Hys.
    destruct (stigma_classifier.start_pos x2 <? stigma_classifier.start_pos y2).
    + constructor; [now split | apply IH].
    + constructor; [now split|]. constructor; [now split | exact Hl].
Qed.

Lemma sort_matches_same (l1 l2 : list stigma_classifier.StigmaMatch) :
  Forall2 Spec.same_match_ci l1 l2 ->
  Forall2 Spec.same_match_ci (stigma_classifier.sort_matches l1)
    (stigma_classifier.sort_matches l2).
Proof.
  unfold stigma_classifier.sort_matches.
  induction 1 as [|x1 x2 l1 l2 Hx Hl IH]; simpl; [constructor|].
  now apply insert_desc_same.
Qed.

Lemma rule_change_same (m1 m2 : stigma_classifier.StigmaMatch) :
  Spec.same_match_ci m1 m2 ->
  map Spec.change_key (Spec.rule_change m1) = map Spec.change_key (Spec.rule_change m2).
Proof.
  intros (Hs & He & Hc & Ho). unfold Spec.rule_change, stigma_classifier.get_replacement.
  rewrite Hc, Ho.
  destruct (PyStr.dict_get stigma_classifier.replacements (stigma_classifier.category m2))
    as [tbl|].
  - destruct (PyStr.dict_get tbl (PyStr.lower (stigma_classifier.original_text m2)))
      as [r|].
    + destruct (negb _); [|reflexivity].
      unfold Spec.change_key. simpl. now rewrite Hs, ?Hc, ?Ho.
    + now rewrite Ho, !str_eqb_refl.
  - now rewrite Ho, !str_eqb_refl.
Qed.

(** X19: detection and rule-based replacement ignore letter case: two texts
    that differ in letter case only give matches at the same offsets with
    the same categories, and changes at the same positions with the same
    replacements. *)
Theorem rule_pipeline_ignores_case (keywords : keyword_dict) (a b : PyStr.pystr) :
  PyStr.lower a = PyStr.lower b ->
  map Spec.rule_span (stigma_classifier.detect_stigma keywords a)
  = map Spec.rule_span (stigma_classifier.detect_stigma keywords b)
  /\ stigma_classifier.has_stigma keywords a = stigma_classifier.has_stigma keywords b
  /\ map Spec.change_key (snd (stigma_classifier.rewrite_text keywords a))
     = map Spec.change_key (snd (stigma_classifier.rewrite_text keywords b)).
Proof.
  intros H. pose proof (detect_stigma_lower keywords a b H) as Hd.
  split; [|split].
  - induction Hd as [|m1 m2 l1 l2 (Hs & He & Hc & _) Hl IH]; simpl; [reflexivity|].
    unfold Spec.rule_span at 1 3. now rewrite Hs, He, Hc, IH.
  - unfold stigma_classifier.has_stigma. now rewrite (Forall2_length Hd).
  - rewrite !rewrite_text_changes. apply sort_matches_same in Hd.
    induction Hd as [|m1 m2 l1 l2 Hm Hl IH]; simpl; [reflexivity|].
    now rewrite !map_app, IH, (rule_change_same m1 m2 Hm).
Qed.

Lemma rule_pipeline_ignores_case_witness :
  PyStr.lower Examples.note_two_upper = PyStr.lower Examples.note_two
  /\ map Spec.change_key
       (snd (stigma_classifier.rewrite_text Examples.keywords Examples.note_two_upper))
     = map Spec.change_key
         (snd (stigma_classifier.rewrite_text Examples.keywords Examples.note_two)).
Proof.
  assert (H : PyStr.lower Examples.note_two_upper = PyStr.lower Examples.note_two)
    by reflexivity.
  split; [exact H|].
  exact (proj2 (proj2 (rule_pipeline_ignores_case Examples.keywords
                         Examples.note_two_upper Examples.note_two H))).
Defined.
